(** * A shallow embedding of the Source-engine query / RCON client

    The development follows the three Go files of package [steam]:
    the wire codec ([readLong], [readString], ...), the length-framed
    RCON socket ([rconSocket.send], [rconSocket.receive]) and the server
    facade ([Connect], [Ping], [Info], [PlayersInfo], [Send], [Close]).

    Go values are modelled as follows.
    - [[]byte] and [string] are [list byte];
    - [int32] and [int] are [Z], the 32-bit wrap-around written out in
      [int32_of_le];
    - a Go call returning [(T, error)] returns a [result T]; a call that
      panics returns [Panic v];
    - a loop that need not terminate takes a [fuel : nat] and returns
      [None] when the fuel runs out;
    - a [net.Conn] is a record holding the script of what its successive
      [Read] and [Write] calls deliver, so that the functions of the
      package run on concrete connections. *)

From Stdlib Require Import Strings.String Strings.Byte.
From Stdlib Require Import List ZArith Lia Bool Arith.
Import Corelib.Init.Datatypes.
Import ListNotations.

Local Open Scope Z_scope.

(** ** Errors *)

(** Error values coming from [io] and [net]. *)
Inductive ioErr : Type :=
| io_EOF
| io_ErrUnexpectedEOF
| net_Timeout                 (* a [net.Error] whose [Timeout()] is true *)
| net_Closed                  (* use of closed network connection *)
| net_OpError (msg : string). (* any other transport error *)

(** The [error] values of the package. *)
Inductive error : Type :=
| IOError (e : ioErr)
| errCouldNotReadData
| errNotEnoughDataInResponse
| errBadData
| ErrRCONAuthFailed
| ErrRCONNotInitialized
| ErrInvalidResponseType
| ErrInvalidResponseID
| ErrInvalidResponseTrailer
| errors_New (msg : string)
| fmt_Errorf (format : string) (arg : error)
| runtime_nilDereference.

(** Outcome of a Go call: a value with a nil error, a non-nil error
    (the value is then the zero value in every function of the package),
    or a panic carrying its value. *)
Inductive result (A : Type) : Type :=
| Ok (a : A)
| Err (e : error)
| Panic (v : error).

Arguments Ok {A} a.
Arguments Err {A} e.
Arguments Panic {A} v.

Definition is_Err {A} (r : result A) : bool :=
  match r with Err _ => true | _ => false end.

(** ** Byte sources and readers *)

(** One [Read] of the underlying transport: the bytes it could deliver
    and the error it reports with them. *)
Inductive chunk : Type :=
| Chunk (data : list byte) (err : option ioErr).

(** What a peer will deliver: a finite script of chunks, then [idle] on
    every further [Read] ([io_EOF] for a peer that closed, [net_Timeout]
    for a peer that stays silent). *)
Record source : Type := mkSource {
  pending : list chunk;
  idle : ioErr
}.

(** [Read(p)] with [len(p) = n]: a chunk longer than the buffer is
    delivered in part and its error kept for the read that drains it. *)
Definition source_Read (s : source) (n : nat)
  : list byte * option ioErr * source :=
  match pending s with
  | [] => ([], Some (idle s), s)
  | Chunk bs e :: rest =>
      if (n <? length bs)%nat
      then (firstn n bs, None, mkSource (Chunk (skipn n bs) e :: rest) (idle s))
      else (bs, e, mkSource rest (idle s))
  end.

(** The readers the package builds: a plain reader ([net.Conn],
    [bytes.NewReader]) and [io.TeeReader(r, buf)], which appends every
    byte it reads to [buf]. *)
Inductive Reader : Type :=
| plainReader (s : source)
| teeReader (s : source) (buf : list byte).

Definition bytes_NewReader (data : list byte) : Reader :=
  plainReader (mkSource [Chunk data None] io_EOF).

Definition Reader_source (r : Reader) : source :=
  match r with plainReader s => s | teeReader s _ => s end.

Definition Read (r : Reader) (n : nat) : list byte * option ioErr * Reader :=
  match r with
  | plainReader s =>
      let '(bs, e, s') := source_Read s n in (bs, e, plainReader s')
  | teeReader s buf =>
      let '(bs, e, s') := source_Read s n in (bs, e, teeReader s' (buf ++ bs))
  end.

(** [io.ReadAtLeast(r, buf, len(buf))]: the loop
    [for n < min && err == nil { nn, err = r.Read(buf[n:]); n += nn }]
    run over the script; [n >= min] clears the error. *)
Fixpoint readAtLeast (p : list chunk) (idl : ioErr) (need : nat)
  : list byte * option ioErr * list chunk :=
  match need with
  | O => ([], None, p)
  | S _ =>
      match p with
      | [] => ([], Some idl, [])
      | Chunk bs e :: rest =>
          if (need <? length bs)%nat
          then (firstn need bs, None, Chunk (skipn need bs) e :: rest)
          else if (need =? length bs)%nat
          then (bs, None, rest)
          else match e with
               | Some x => (bs, Some x, rest)
               | None =>
                   let '(got, err, p') :=
                     readAtLeast rest idl (need - length bs) in
                   (bs ++ got, err, p')
               end
      end
  end.

(** [io.ReadFull]: a stream that ends after some but not all bytes gives
    [io.ErrUnexpectedEOF]. *)
Definition io_ReadFull (r : Reader) (n : nat)
  : list byte * option ioErr * Reader :=
  let s := Reader_source r in
  let '(got, err, p') := readAtLeast (pending s) (idle s) n in
  let err' :=
    match err with
    | Some io_EOF =>
        if (0 <? length got)%nat then Some io_ErrUnexpectedEOF else Some io_EOF
    | _ => err
    end in
  let s' := mkSource p' (idle s) in
  match r with
  | plainReader _ => (got, err', plainReader s')
  | teeReader _ buf => (got, err', teeReader s' (buf ++ got))
  end.

(** ** Wire codec (the file of the read and write helpers) *)

Definition byteZ (b : byte) : Z := Z.of_N (Byte.to_N b).

(** Little-endian [uint32] as [encoding/binary] assembles it. *)
Definition uint32_of_le (bs : list byte) : Z :=
  match bs with
  | [b0; b1; b2; b3] =>
      Z.lor (Z.lor (Z.lor (byteZ b0) (Z.shiftl (byteZ b1) 8))
                   (Z.shiftl (byteZ b2) 16))
            (Z.shiftl (byteZ b3) 24)
  | _ => 0
  end.

(** Conversion [int32(u)] of a 32-bit pattern. *)
Definition int32_of_uint32 (u : Z) : Z :=
  if u <? 2 ^ 31 then u else u - 2 ^ 32.

Definition int32_of_le (bs : list byte) : Z := int32_of_uint32 (uint32_of_le bs).

(** Modelled from the spec: [must] is not among the source files. The
    spec says that every codec read fails with the parse error
    CouldNotReadData when the underlying read is short or erroring;
    [must err] is the value the call panics with, if it does. *)
Definition must (err : option ioErr) : option error :=
  match err with
  | None => None
  | Some _ => Some errCouldNotReadData
  end.

(** [binary.Read(r, binary.LittleEndian, &v)] for a 4-byte [v]. *)
Definition binary_Read4 (r : Reader) : list byte * option ioErr * Reader :=
  io_ReadFull r 4.

Definition readByte (r : Reader) : result byte * Reader :=
  let '(buf, err, r') := io_ReadFull r 1 in
  match must err with
  | Some v => (Panic v, r')
  | None => (Ok (hd x00 buf), r')
  end.

Definition readBytes (r : Reader) (n : nat) : result (list byte) * Reader :=
  let '(buf, err, r') := io_ReadFull r n in
  match must err with
  | Some v => (Panic v, r')
  | None => (Ok buf, r')
  end.

Definition readLong (r : Reader) : result Z * Reader :=
  let '(bs, err, r') := binary_Read4 r in
  match must err with
  | Some v => (Panic v, r')
  | None => (Ok (int32_of_le bs), r')
  end.

Definition readULong (r : Reader) : result Z * Reader :=
  let '(bs, err, r') := binary_Read4 r in
  match must err with
  | Some v => (Panic v, r')
  | None => (Ok (uint32_of_le bs), r')
  end.

(** [readString]: the [for] loop reads one byte per iteration into [b],
    stops at a zero byte and otherwise appends the byte to [buf]. *)
Fixpoint readString_loop (fuel : nat) (r : Reader) (buf : list byte)
  : option (result (list byte) * Reader) :=
  match fuel with
  | O => None
  | S fuel' =>
      let '(b, err, r') := io_ReadFull r 1 in
      match must err with
      | Some v => Some (Panic v, r')
      | None =>
          if Byte.eqb (hd x00 b) x00
          then Some (Ok buf, r')
          else readString_loop fuel' r' (buf ++ [hd x00 b])
      end
  end.

Definition readString (fuel : nat) (r : Reader)
  : option (result (list byte) * Reader) :=
  readString_loop fuel r [].

(** The write side of the codec; a [bytes.Buffer] is its contents. *)
Definition byte_of_Z (z : Z) : byte :=
  match Byte.of_N (Z.to_N (z mod 256)) with
  | Some b => b
  | None => x00
  end.

Definition le32 (v : Z) : list byte :=
  [byte_of_Z v; byte_of_Z (Z.shiftr v 8);
   byte_of_Z (Z.shiftr v 16); byte_of_Z (Z.shiftr v 24)].

Definition requestPrefix : list byte := [xff; xff; xff; xff].

Definition writeRequestPrefix (buf : list byte) : list byte :=
  buf ++ requestPrefix.

Definition writeString (buf : list byte) (v : list byte) : list byte :=
  (buf ++ v) ++ [x00].

Definition writeByte (buf : list byte) (v : byte) : list byte := buf ++ [v].

Definition writeLong (buf : list byte) (v : Z) : list byte := buf ++ le32 v.

Definition writeNull (buf : list byte) : list byte := buf ++ [x00].

(** A script without transport errors, and the bytes it holds. *)
Fixpoint clean (p : list chunk) : bool :=
  match p with
  | [] => true
  | Chunk _ None :: rest => clean rest
  | Chunk _ (Some _) :: _ => false
  end.

Fixpoint available (p : list chunk) : list byte :=
  match p with
  | [] => []
  | Chunk bs _ :: rest => bs ++ available rest
  end.

(** The bytes a reader has not read yet. *)
Definition unread (r : Reader) : list byte :=
  available (pending (Reader_source r)).

Definition Reader_clean (r : Reader) : bool :=
  clean (pending (Reader_source r)).

(** ** Connections *)

(** A [net.Conn] as the dialer hands it out.  [rd] scripts its reads,
    [writeErrs] the results of its successive writes (a write succeeds
    once the script is exhausted), [deadlineErr] what [SetReadDeadline]
    and [SetWriteDeadline] return.  [written] logs the buffers accepted
    by [Write], oldest first; [closed] records a call of [Close]. *)
Record Conn : Type := mkConn {
  rd : source;
  writeErrs : list (option ioErr);
  deadlineErr : option ioErr;
  written : list (list byte);
  closed : bool
}.

Definition Conn_set_rd (c : Conn) (s : source) : Conn :=
  mkConn s (writeErrs c) (deadlineErr c) (written c) (closed c).

Definition Conn_Read (c : Conn) (n : nat) : list byte * option ioErr * Conn :=
  let '(bs, e, s') := source_Read (rd c) n in (bs, e, Conn_set_rd c s').

Definition Conn_Write (c : Conn) (p : list byte) : option ioErr * Conn :=
  match writeErrs c with
  | Some e :: ws =>
      (Some e, mkConn (rd c) ws (deadlineErr c) (written c) (closed c))
  | None :: ws =>
      (None, mkConn (rd c) ws (deadlineErr c) (written c ++ [p]) (closed c))
  | [] =>
      (None, mkConn (rd c) [] (deadlineErr c) (written c ++ [p]) (closed c))
  end.

Definition Conn_Close (c : Conn) : Conn :=
  mkConn (rd c) (writeErrs c) (deadlineErr c) (written c) true.

(** ** The RCON socket *)

Record rconSocket : Type := mkRconSocket { conn : Conn }.

Definition rconSocket_close (s : rconSocket) : rconSocket :=
  mkRconSocket (Conn_Close (conn s)).

Definition rconSocket_send (s : rconSocket) (p : list byte)
  : option error * rconSocket :=
  match deadlineErr (conn s) with
  | Some e => (Some (IOError e), s)
  | None =>
      let '(err, c') := Conn_Write (conn s) p in
      match err with
      | Some e => (Some (IOError e), mkRconSocket c')
      | None => (None, mkRconSocket c')
      end
  end.

(** The loop [for total > 0] of [receive].  Each iteration allocates
    [b] of [total] zero bytes, reads into it, and when [n > 0] appends
    the whole of [b] to [buf] and lowers [total] by [n]; only an
    [io.EOF] leaves the loop with an error. *)
Fixpoint receive_loop (fuel : nat) (c : Conn) (buf : list byte) (total : Z)
  : option (result (list byte) * Conn) :=
  if total <=? 0 then Some (Ok buf, c) else
  match fuel with
  | O => None
  | S fuel' =>
      match deadlineErr c with
      | Some e => Some (Err (IOError e), c)
      | None =>
          let '(bs, err, c') := Conn_Read c (Z.to_nat total) in
          let n := length bs in
          let b := bs ++ repeat x00 (Z.to_nat total - n) in
          let buf' := if (0 <? n)%nat then buf ++ b else buf in
          let total' := if (0 <? n)%nat then total - Z.of_nat n else total in
          match err with
          | Some io_EOF =>
              Some (Err (fmt_Errorf "steam: could not receive data (%v)"%string
                                    (IOError io_EOF)), c')
          | _ => receive_loop fuel' c' buf' total'
          end
      end
  end.

(** [receive]: the length prefix is read through a tee into [buf]; a
    panic of [readLong] is recovered into the returned error. *)
Definition receive (fuel : nat) (s : rconSocket)
  : option (result (list byte) * rconSocket) :=
  let '(r, tr) := readLong (teeReader (rd (conn s)) []) in
  let c := Conn_set_rd (conn s) (Reader_source tr) in
  let buf := match tr with teeReader _ b => b | plainReader _ => [] end in
  match r with
  | Panic v => Some (Err v, mkRconSocket c)
  | Err e => Some (Err e, mkRconSocket c)
  | Ok total =>
      match receive_loop fuel c buf total with
      | None => None
      | Some (res, c') => Some (res, mkRconSocket c')
      end
  end.

(** ** The frame models and the query socket

    The RCON frame model, the query frame model and the query socket
    are parts of the package outside the three source files.  The
    functions of the facade only call them, so they are taken as the
    fields of one interface; [wire] below is an instance that follows
    the wire formats of the spec. *)

Record rconRequest : Type := mkRconRequest {
  req_id : Z;
  req_typ : Z;
  req_body : list byte
}.

Record rconResponse : Type := mkRconResponse {
  typ : Z;
  id : Z;
  body : list byte
}.

(** The zero value of [var resp rconResponse]. *)
Definition rconResponse_zero : rconResponse := mkRconResponse 0 0 [].

Definition DialFn : Type := string -> string -> result Conn.

Record FrameModel : Type := mkFrameModel {
  (* the four [rconRequestType] constants *)
  rrtAuth : Z;
  rrtExecCmd : Z;
  rrtAuthResp : Z;
  rrtRespValue : Z;
  (* the state [newRCONRequest] draws request ids from *)
  idState : Type;
  nextID : idState -> Z * idState;
  (* [rconRequest.marshalBinary], whose error the callers drop *)
  rconRequest_marshalBinary : rconRequest -> list byte;
  (* [rconResponse.unmarshalBinary], which updates its receiver *)
  rconResponse_unmarshalBinary :
    rconResponse -> list byte -> option error * rconResponse;
  (* [infoRequest{c}.marshalBinary] and [playersInfoRequest{c}.marshalBinary];
     the empty literals [infoRequest{}] and [playersInfoRequest{}] hold [0] *)
  infoRequest_marshalBinary : Z -> list byte;
  playersInfoRequest_marshalBinary : Z -> list byte;
  isChallengeResponse : list byte -> bool;
  (* [unmarshalBinary] on a fresh [ChallengeResponse]: its [Challenge] *)
  ChallengeResponse_unmarshalBinary : list byte -> result Z;
  InfoResponse : Type;
  InfoResponse_unmarshalBinary : list byte -> result InfoResponse;
  PlayersInfoResponse : Type;
  PlayersInfoResponse_unmarshalBinary : list byte -> result PlayersInfoResponse;
  (* size of the buffer the query socket reads a datagram into *)
  udpBufferSize : nat;
  (* [(&net.Dialer{Timeout: 1 * time.Second}).Dial] *)
  netDial : DialFn
}.

(** The query socket.  [latency] scripts the wall-clock time its
    successive calls take (no time once the script is exhausted). *)
Record udpSocket : Type := mkUdpSocket {
  uconn : Conn;
  latency : list Z
}.

Definition udpSocket_tick (u : udpSocket) (c : Conn) : udpSocket * Z :=
  (mkUdpSocket c (tl (latency u)), hd 0 (latency u)).

(** Modelled from the spec: [newUDPSocket] is not among the source
    files.  The query socket is opened with the dialer on the target
    address; the time its calls take is a property of the path to the
    peer, given here with the socket. *)
Definition newUDPSocket (lat : list Z) (dial : DialFn) (addr : string)
  : result udpSocket :=
  match dial "udp"%string addr with
  | Ok c => Ok (mkUdpSocket c lat)
  | Err e => Err e
  | Panic v => Panic v
  end.

(** Modelled from the spec: [udpSocket.close] is not among the source
    files.  It releases the connection. *)
Definition udpSocket_close (u : udpSocket) : udpSocket :=
  mkUdpSocket (Conn_Close (uconn u)) (latency u).

(** Modelled from the spec: [udpSocket.send] is not among the source
    files.  Send sets a short write deadline then writes the full
    datagram.  The third component is the time the call took. *)
Definition udpSocket_send (u : udpSocket) (p : list byte)
  : option error * udpSocket * Z :=
  match deadlineErr (uconn u) with
  | Some e => (Some (IOError e), u, 0)
  | None =>
      let '(err, c') := Conn_Write (uconn u) p in
      let '(u', d) := udpSocket_tick u c' in
      match err with
      | Some e => (Some (IOError e), u', d)
      | None => (None, u', d)
      end
  end.

(** Modelled from the spec: [udpSocket.receive] is not among the source
    files.  Receive sets a short read deadline then reads one datagram
    into a buffer of [size] bytes and returns exactly the bytes
    received; a timeout surfaces as an error.  One chunk of the script
    is one datagram, what does not fit the buffer is lost. *)
Definition udpSocket_receive (size : nat) (u : udpSocket)
  : result (list byte) * udpSocket * Z :=
  match deadlineErr (uconn u) with
  | Some e => (Err (IOError e), u, 0)
  | None =>
      match pending (rd (uconn u)) with
      | [] =>
          let '(u', d) := udpSocket_tick u (uconn u) in
          (Err (IOError (idle (rd (uconn u)))), u', d)
      | Chunk bs e :: rest =>
          let c' := Conn_set_rd (uconn u) (mkSource rest (idle (rd (uconn u)))) in
          let '(u', d) := udpSocket_tick u c' in
          match e with
          | Some x => (Err (IOError x), u', d)
          | None => (Ok (firstn size bs), u', d)
          end
      end
  end.

(** [newRCONSocket]. *)
Definition newRCONSocket (dial : DialFn) (addr : string) : result rconSocket :=
  match dial "tcp"%string addr with
  | Ok c => Ok (mkRconSocket c)
  | Err e => Err e
  | Panic v => Panic v
  end.

Fixpoint bytes_eqb (a b : list byte) : bool :=
  match a, b with
  | [], [] => true
  | x :: a', y :: b' => Byte.eqb x y && bytes_eqb a' b'
  | _, _ => false
  end.

Definition trailer : list byte := [x00; x01; x00; x00].

(** ** The server facade *)

Record Server : Type := mkServer {
  addr : string;
  dial : option DialFn;
  rconPassword : list byte;
  usock : option udpSocket;
  udpInitialized : bool;
  rsock : option rconSocket;
  rconInitialized : bool
}.

Record ConnectOptions : Type := mkConnectOptions {
  Dial : option DialFn;
  RCONPassword : list byte
}.

Definition set_usock (s : Server) (u : option udpSocket) : Server :=
  mkServer (addr s) (dial s) (rconPassword s) u (udpInitialized s)
           (rsock s) (rconInitialized s).

Definition set_rsock (s : Server) (r : option rconSocket) : Server :=
  mkServer (addr s) (dial s) (rconPassword s) (usock s) (udpInitialized s)
           r (rconInitialized s).

Definition set_rconInitialized (s : Server) (b : bool) : Server :=
  mkServer (addr s) (dial s) (rconPassword s) (usock s) (udpInitialized s)
           (rsock s) b.

Definition string_is_empty (a : string) : bool :=
  match a with EmptyString => true | _ => false end.

Definition bytes_is_empty (a : list byte) : bool :=
  match a with [] => true | _ => false end.

Section Facade.

Variable fm : FrameModel.

(** Modelled from the spec: [newRCONRequest] is not among the source
    files.  Each new outbound request allocates a fresh id, drawn here
    from [nextID]; type and body are the arguments. *)
Definition newRCONRequest (ids : idState fm) (t : Z) (b : list byte)
  : rconRequest * idState fm :=
  let '(i, ids') := nextID fm ids in (mkRconRequest i t b, ids').

(** Calling the [dial] field; a nil function value panics. *)
Definition call_dial (d : option DialFn) : DialFn :=
  match d with
  | Some f => f
  | None => fun _ _ => Panic runtime_nilDereference
  end.

(** [Server.init]; [lat] is the latency script of the query path. *)
Definition init (lat : list Z) (s : Server) : result unit * Server :=
  if string_is_empty (addr s)
  then (Err (errors_New "steam: server needs a address"), s)
  else
    match newUDPSocket lat (call_dial (dial s)) (addr s) with
    | Ok u => (Ok tt, set_usock s (Some u))
    | Err e =>
        (Err (fmt_Errorf "steam: could not open udp socket (%v)" e),
         set_usock s None)
    | Panic v => (Panic v, s)
    end.

(** [Server.authenticate]. *)
Definition authenticate (fuel : nat) (s : Server) (ids : idState fm)
  : option (result unit * Server * idState fm) :=
  let '(req, ids) := newRCONRequest ids (rrtAuth fm) (rconPassword s) in
  let data := rconRequest_marshalBinary fm req in
  match rsock s with
  | None => Some (Panic runtime_nilDereference, s, ids)
  | Some rs =>
      let '(err, rs) := rconSocket_send rs data in
      match err with
      | Some e => Some (Err e, set_rsock s (Some rs), ids)
      | None =>
          (* Receive the empty response value *)
          match receive fuel rs with
          | None => None
          | Some (Panic v, rs) => Some (Panic v, set_rsock s (Some rs), ids)
          | Some (Err e, rs) => Some (Err e, set_rsock s (Some rs), ids)
          | Some (Ok data, rs) =>
              let s := set_rsock s (Some rs) in
              let '(uerr, resp) :=
                rconResponse_unmarshalBinary fm rconResponse_zero data in
              match uerr with
              | Some e => Some (Err e, s, ids)
              | None =>
                  if negb (typ resp =? rrtRespValue fm)
                     || negb (id resp =? req_id req)
                  then Some (Err ErrInvalidResponseID, s, ids)
                  else if negb (id resp =? req_id req)
                  then Some (Err ErrInvalidResponseType, s, ids)
                  else
                    (* Receive the actual auth response *)
                    match receive fuel rs with
                    | None => None
                    | Some (Panic v, rs) =>
                        Some (Panic v, set_rsock s (Some rs), ids)
                    | Some (Err e, rs) =>
                        Some (Err e, set_rsock s (Some rs), ids)
                    | Some (Ok data, rs) =>
                        let s := set_rsock s (Some rs) in
                        let '(uerr, resp) :=
                          rconResponse_unmarshalBinary fm resp data in
                        match uerr with
                        | Some e => Some (Err e, s, ids)
                        | None =>
                            if negb (typ resp =? rrtAuthResp fm)
                               || negb (id resp =? req_id req)
                            then Some (Err ErrRCONAuthFailed, s, ids)
                            else Some (Ok tt, s, ids)
                        end
                    end
              end
          end
      end
  end.

(** [rsock.close()] on the socket the struct holds. *)
Definition close_rsock (s : Server) : result unit * Server :=
  match rsock s with
  | Some rs => (Ok tt, set_rsock s (Some (rconSocket_close rs)))
  | None => (Panic runtime_nilDereference, s)
  end.

(** [usock.close()] on the socket the struct holds. *)
Definition close_usock (s : Server) : result unit * Server :=
  match usock s with
  | Some u => (Ok tt, set_usock s (Some (udpSocket_close u)))
  | None => (Panic runtime_nilDereference, s)
  end.

(** [Server.initRCON].  The deferred function, registered once the
    socket is open, closes it when the named result [err] is set. *)
Definition initRCON (fuel : nat) (s : Server) (ids : idState fm)
  : option (result unit * Server * idState fm) :=
  if string_is_empty (addr s)
  then Some (Err (errors_New "steam: server needs a address"), s, ids)
  else
    match newRCONSocket (call_dial (dial s)) (addr s) with
    | Panic v => Some (Panic v, s, ids)
    | Err e =>
        Some (Err (fmt_Errorf "steam: could not open tcp socket (%v)" e),
              set_rsock s None, ids)
    | Ok rs =>
        let s := set_rsock s (Some rs) in
        match authenticate fuel s ids with
        | None => None
        | Some (Panic v, s, ids) => Some (Panic v, s, ids)
        | Some (Err e, s, ids) =>
            let err := fmt_Errorf "steam: could not authenticate (%v)" e in
            match close_rsock s with
            | (Panic v, s) => Some (Panic v, s, ids)
            | (_, s) => Some (Err err, s, ids)
            end
        | Some (Ok _, s, ids) =>
            Some (Ok tt, set_rconInitialized s true, ids)
        end
    end.

(** [Connect].  The result pairs the returned error with the state of
    the struct [s] allocated on entry (the pointer is returned only
    when there is no error), so that its sockets stay observable.  The
    deferred function, registered once the query socket is open and a
    password is present, closes the query socket when [err] is set.
    [os] holds the options that the variadic argument points to: the
    pointers are taken to be non-nil (the source reads [os[0].Dial]
    unchecked, a nil first pointer panics there). *)
Definition Connect (fuel : nat) (lat : list Z) (a : string)
  (os : list ConnectOptions) (ids : idState fm)
  : option (result unit * Server * idState fm) :=
  let s := mkServer a None [] None false None false in
  let s :=
    match os with
    | o :: _ =>
        mkServer (addr s) (Dial o) (RCONPassword o) (usock s)
                 (udpInitialized s) (rsock s) (rconInitialized s)
    | [] => s
    end in
  let s :=
    match dial s with
    | None =>
        mkServer (addr s) (Some (netDial fm)) (rconPassword s) (usock s)
                 (udpInitialized s) (rsock s) (rconInitialized s)
    | Some _ => s
    end in
  match init lat s with
  | (Panic v, s) => Some (Panic v, s, ids)
  | (Err e, s) => Some (Err e, s, ids)
  | (Ok _, s) =>
      if bytes_is_empty (rconPassword s)
      then Some (Ok tt, s, ids)
      else
        match initRCON fuel s ids with
        | None => None
        | Some (Panic v, s, ids) => Some (Panic v, s, ids)
        | Some (Err e, s, ids) =>
            match close_usock s with
            | (Panic v, s) => Some (Panic v, s, ids)
            | (_, s) => Some (Err e, s, ids)
            end
        | Some (Ok _, s, ids) => Some (Ok tt, s, ids)
        end
  end.

(** [Server.Close]. *)
Definition Close (s : Server) : result unit * Server :=
  let '(r, s) :=
    if rconInitialized s then close_rsock s else (Ok tt, s) in
  match r with
  | Panic v => (Panic v, s)
  | _ => close_usock s
  end.

(** [Server.Ping].  [now] is the reading of [time.Now()] at [start];
    [time.Since(start)] reads the clock again after the two calls. *)
Definition Ping (now : Z) (s : Server) : result Z * Server :=
  let req := infoRequest_marshalBinary fm 0 in
  let start := now in
  match usock s with
  | None => (Panic runtime_nilDereference, s)
  | Some u =>
      let '(_, u, d1) := udpSocket_send u req in
      let '(r, u, d2) := udpSocket_receive (udpBufferSize fm) u in
      let s := set_usock s (Some u) in
      match r with
      | Panic v => (Panic v, s)
      | Err e => (Err e, s)
      | Ok _ =>
          let elapsed := (now + d1 + d2) - start in
          (Ok elapsed, s)
      end
  end.

(** [Server.Info].  [parse] is the tail of the function, reached with
    the first reply or, after a challenge, with the second. *)
Definition Info (s : Server) : result (InfoResponse fm) * Server :=
  let req := infoRequest_marshalBinary fm 0 in
  match usock s with
  | None => (Panic runtime_nilDereference, s)
  | Some u =>
      let '(err, u, _) := udpSocket_send u req in
      match err with
      | Some e => (Err e, set_usock s (Some u))
      | None =>
          let '(r, u, _) := udpSocket_receive (udpBufferSize fm) u in
          match r with
          | Panic v => (Panic v, set_usock s (Some u))
          | Err e =>
              (Err (fmt_Errorf "steam: could not receive info response (%v)" e),
               set_usock s (Some u))
          | Ok data =>
              let parse (data : list byte) (u : udpSocket) :=
                match InfoResponse_unmarshalBinary fm data with
                | Panic v => (Panic v, set_usock s (Some u))
                | Err e =>
                    (Err (fmt_Errorf
                            "steam: could not unmarshal info response (%v)" e),
                     set_usock s (Some u))
                | Ok res => (Ok res, set_usock s (Some u))
                end in
              if isChallengeResponse fm data
              then
                (* Parse the challenge response *)
                match ChallengeResponse_unmarshalBinary fm data with
                | Panic v => (Panic v, set_usock s (Some u))
                | Err e => (Err e, set_usock s (Some u))
                | Ok challenge =>
                    (* Send a new request with the proper challenge number *)
                    let req := infoRequest_marshalBinary fm challenge in
                    let '(err, u, _) := udpSocket_send u req in
                    match err with
                    | Some e => (Err e, set_usock s (Some u))
                    | None =>
                        let '(r, u, _) :=
                          udpSocket_receive (udpBufferSize fm) u in
                        match r with
                        | Panic v => (Panic v, set_usock s (Some u))
                        | Err e => (Err e, set_usock s (Some u))
                        | Ok data => parse data u
                        end
                    end
                end
              else parse data u
          end
      end
  end.

(** [Server.PlayersInfo]. *)
Definition PlayersInfo (s : Server) : result (PlayersInfoResponse fm) * Server :=
  (* Send the challenge request *)
  let req := playersInfoRequest_marshalBinary fm 0 in
  match usock s with
  | None => (Panic runtime_nilDereference, s)
  | Some u =>
      let '(err, u, _) := udpSocket_send u req in
      match err with
      | Some e => (Err e, set_usock s (Some u))
      | None =>
          let '(r, u, _) := udpSocket_receive (udpBufferSize fm) u in
          match r with
          | Panic v => (Panic v, set_usock s (Some u))
          | Err e => (Err e, set_usock s (Some u))
          | Ok data =>
              (* Parse the return value *)
              let parse (data : list byte) (u : udpSocket) :=
                match PlayersInfoResponse_unmarshalBinary fm data with
                | Panic v => (Panic v, set_usock s (Some u))
                | Err e => (Err e, set_usock s (Some u))
                | Ok res => (Ok res, set_usock s (Some u))
                end in
              if isChallengeResponse fm data
              then
                (* Parse the challenge response *)
                match ChallengeResponse_unmarshalBinary fm data with
                | Panic v => (Panic v, set_usock s (Some u))
                | Err e => (Err e, set_usock s (Some u))
                | Ok challenge =>
                    (* Send a new request with the proper challenge number *)
                    let req := playersInfoRequest_marshalBinary fm challenge in
                    let '(err, u, _) := udpSocket_send u req in
                    match err with
                    | Some e => (Err e, set_usock s (Some u))
                    | None =>
                        let '(r, u, _) :=
                          udpSocket_receive (udpBufferSize fm) u in
                        match r with
                        | Panic v => (Panic v, set_usock s (Some u))
                        | Err e => (Err e, set_usock s (Some u))
                        | Ok data => parse data u
                        end
                    end
                end
              else parse data u
          end
      end
  end.

(** The receive loop of [Send]: [reqID] and [mirrorID] are the ids of
    the command request and of the mirror request, [buf] the output
    accumulated so far. *)
Fixpoint Send_loop (fuel : nat) (reqID mirrorID : Z) (rs : rconSocket)
  (buf : list byte) (sawMirror : bool)
  : option (result (list byte) * rconSocket) :=
  match fuel with
  | O => None
  | S fuel' =>
      match receive fuel rs with
      | None => None
      | Some (Panic v, rs) => Some (Panic v, rs)
      | Some (Err e, rs) =>
          Some (Err (fmt_Errorf "steam: receiving rcon response (%v)" e), rs)
      | Some (Ok data, rs) =>
          let '(uerr, resp) :=
            rconResponse_unmarshalBinary fm rconResponse_zero data in
          match uerr with
          | Some e =>
              Some (Err (fmt_Errorf "steam: decoding response (%v)" e), rs)
          | None =>
              if negb (typ resp =? rrtRespValue fm)
              then Some (Err ErrInvalidResponseType, rs)
              else if negb sawMirror && (id resp =? mirrorID)
              then Send_loop fuel' reqID mirrorID rs buf true
              else if sawMirror
              then
                if bytes_eqb (body resp) trailer
                then Some (Ok buf, rs)
                else Some (Err ErrInvalidResponseTrailer, rs)
              else if negb (reqID =? id resp)
              then Some (Err ErrInvalidResponseID, rs)
              else Send_loop fuel' reqID mirrorID rs (buf ++ body resp) sawMirror
          end
      end
  end.

(** [Server.Send]. *)
Definition Send (fuel : nat) (cmd : list byte) (s : Server) (ids : idState fm)
  : option (result (list byte) * Server * idState fm) :=
  if negb (rconInitialized s)
  then Some (Err ErrRCONNotInitialized, s, ids)
  else
    let '(req, ids) := newRCONRequest ids (rrtExecCmd fm) cmd in
    let data := rconRequest_marshalBinary fm req in
    match rsock s with
    | None => Some (Panic runtime_nilDereference, s, ids)
    | Some rs =>
        let '(err, rs) := rconSocket_send rs data in
        match err with
        | Some e =>
            Some (Err (fmt_Errorf "steam: sending rcon request (%v)" e),
                  set_rsock s (Some rs), ids)
        | None =>
            (* Send the mirror packet. *)
            let '(reqMirror, ids) := newRCONRequest ids (rrtRespValue fm) [] in
            let data := rconRequest_marshalBinary fm reqMirror in
            let '(err, rs) := rconSocket_send rs data in
            match err with
            | Some e =>
                Some (Err (fmt_Errorf
                             "steam: sending rcon mirror request (%v)" e),
                      set_rsock s (Some rs), ids)
            | None =>
                (* Start receiving data. *)
                match Send_loop fuel (req_id req) (req_id reqMirror) rs [] false with
                | None => None
                | Some (r, rs) => Some (r, set_rsock s (Some rs), ids)
                end
            end
        end
    end.

End Facade.

(** ** An instance of the frame models *)

Module Wire.

(** Modelled from the spec: the RCON frame model is not among the
    source files.  A request is marshalled as the little-endian length
    [4 + 4 + len(body) + 1 + 1], then id, type, the null-terminated
    body and an empty null-terminated string. *)
Definition marshalRequest (r : rconRequest) : list byte :=
  let buf := writeLong [] (Z.of_nat (length (req_body r)) + 10) in
  let buf := writeLong buf (req_id r) in
  let buf := writeLong buf (req_typ r) in
  let buf := writeString buf (req_body r) in
  writeNull buf.

(** Modelled from the spec: unmarshalling a response reads length, id
    and type; the remaining bytes up to the length, less the two
    trailing null bytes, are the body.  It fails with
    NotEnoughDataInResponse if the declared length exceeds the
    available bytes and with BadData if the type is unrecognized. *)
Definition unmarshalResponse (old : rconResponse) (data : list byte)
  : option error * rconResponse :=
  let size := int32_of_le (firstn 4 data) in
  let rest := skipn 4 data in
  if (length data <? 4)%nat || (Z.of_nat (length rest) <? size) || (size <? 10)
  then (Some errNotEnoughDataInResponse, old)
  else
    let i := int32_of_le (firstn 4 rest) in
    let t := int32_of_le (firstn 4 (skipn 4 rest)) in
    let b := firstn (Z.to_nat size - 10) (skipn 8 rest) in
    if (t =? 0) || (t =? 2)
    then (None, mkRconResponse t i b)
    else (Some errBadData, old).

(** Modelled from the spec: a query request is the 4-byte prefix, a
    request-type tag and the challenge as a little-endian int32. *)
Definition marshalQuery (tag : byte) (challenge : Z) : list byte :=
  writeLong (writeByte (writeRequestPrefix []) tag) challenge.

(** Modelled from the spec: a reserved response-type byte after the
    prefix tells a challenge reply from a direct reply. *)
Definition responseTag (data : list byte) : byte := nth 4 data x00.

Definition isChallenge (data : list byte) : bool :=
  Byte.eqb (responseTag data) x41.

Definition unmarshalChallenge (data : list byte) : result Z :=
  if (length data <? 9)%nat then Err errNotEnoughDataInResponse
  else Ok (int32_of_le (firstn 4 (skipn 5 data))).

(** The payload of a direct reply is kept as it is. *)
Definition unmarshalTagged (tag : byte) (data : list byte)
  : result (list byte) :=
  if Byte.eqb (responseTag data) tag then Ok (skipn 5 data)
  else Err errBadData.

Definition noNetwork : DialFn :=
  fun _ _ => Err (IOError (net_OpError "network unreachable")).

Definition model : FrameModel :=
  mkFrameModel 3 2 2 0
    Z (fun n => (n, n + 1))
    marshalRequest unmarshalResponse
    (marshalQuery x54) (marshalQuery x55)
    isChallenge unmarshalChallenge
    (list byte) (unmarshalTagged x49)
    (list byte) (unmarshalTagged x44)
    1400%nat noNetwork.

(** A connection that delivers the given reads and accepts every write. *)
Definition peer (reads : list chunk) (idl : ioErr) : Conn :=
  mkConn (mkSource reads idl) [] None [] false.

(** A response frame as the server puts it on the wire. *)
Definition frame (i t : Z) (b : list byte) : list byte :=
  marshalRequest (mkRconRequest i t b).

End Wire.

(** * Vocabulary of the statements *)

(** The error [receive] builds from an [io.EOF] of the payload loop. *)
Definition errCouldNotReceive : error :=
  fmt_Errorf "steam: could not receive data (%v)" (IOError io_EOF).

(** What follows the delivered chunks ends the stream: the peer has
    closed, or the next read reports [io.EOF] with at most [remaining]
    bytes. *)
Definition reaches_EOF (tail : list chunk) (idl : ioErr) (remaining : Z) : Prop :=
  (tail = [] /\ idl = io_EOF)
  \/ (exists last rest,
        tail = Chunk last (Some io_EOF) :: rest
        /\ Z.of_nat (length last) <= remaining).

(** A peer that sends the length prefix 10 and then stays silent. *)
Definition silent_after_prefix : rconSocket :=
  mkRconSocket (Wire.peer [Chunk [x0a; x00; x00; x00] None] net_Timeout).

(** A peer that sends the length prefix 10, three bytes, and closes. *)
Definition closes_early : rconSocket :=
  mkRconSocket
    (Wire.peer [Chunk [x0a; x00; x00; x00] None; Chunk [x01; x02; x03] None]
               io_EOF).

(** The successive [receive] calls on [rs] return data that
    [unmarshalBinary] decodes, on a fresh response, to the given frames;
    they leave the socket as [rs']. *)
Inductive replies (fm : FrameModel)
  : rconSocket -> list rconResponse -> rconSocket -> Prop :=
| replies_nil (rs : rconSocket) : replies fm rs [] rs
| replies_cons (rs rs1 rs2 : rconSocket) (fuel : nat) (data : list byte)
    (r : rconResponse) (rest : list rconResponse) :
    receive fuel rs = Some (Ok data, rs1) ->
    rconResponse_unmarshalBinary fm rconResponse_zero data = (None, r) ->
    replies fm rs1 rest rs2 ->
    replies fm rs (r :: rest) rs2.

(** An authenticated facade whose RCON peer delivers [reads]. *)
Definition rcon_server (reads : list chunk) : Server :=
  mkServer "example:27015" None [x70; x77] None false
           (Some (mkRconSocket (Wire.peer reads io_EOF))) true.

(** The same facade once [Send] has written its two requests, with ids
    5 and 6, and read every reply. *)
Definition rcon_server_after (cmd : list byte) : Server :=
  mkServer "example:27015" None [x70; x77] None false
           (Some (mkRconSocket
                    (mkConn (mkSource [] io_EOF) [] None
                            [Wire.frame 5 2 cmd; Wire.frame 6 0 []] false)))
           true.

(** Two output fragments, the mirror frame and the trailer frame. *)
Definition two_fragments_reply : list chunk :=
  [Chunk (Wire.frame 5 0 [x61]) None; Chunk (Wire.frame 5 0 [x62]) None;
   Chunk (Wire.frame 6 0 []) None; Chunk (Wire.frame 6 0 trailer) None].

(** One output fragment, the mirror frame and a frame that is not the
    trailer. *)
Definition bad_trailer_reply : list chunk :=
  [Chunk (Wire.frame 5 0 [x61]) None;
   Chunk (Wire.frame 6 0 []) None; Chunk (Wire.frame 6 0 [x01]) None].

(** A facade that has opened its RCON socket to a peer delivering
    [reads] and is about to authenticate. *)
Definition auth_server (reads : list chunk) : Server :=
  mkServer "example:27015" None [x70; x77] None false
           (Some (mkRconSocket (Wire.peer reads io_EOF))) false.

(** The socket the facade holds has been closed. *)
Definition usock_closed (s : Server) : Prop :=
  exists u, usock s = Some u /\ closed (uconn u) = true.

Definition rsock_closed (s : Server) : Prop :=
  exists rs, rsock s = Some rs /\ closed (conn rs) = true.

(** The dialer and the password [Connect] takes from its options. *)
Definition effective_dial (fm : FrameModel) (os : list ConnectOptions) : DialFn :=
  match os with
  | o :: _ => match Dial o with Some f => f | None => netDial fm end
  | [] => netDial fm
  end.

Definition password (os : list ConnectOptions) : list byte :=
  match os with
  | o :: _ => RCONPassword o
  | [] => []
  end.

(** The struct of [Connect] once the query socket [u] is open. *)
Definition connecting (fm : FrameModel) (a : string)
  (os : list ConnectOptions) (u : udpSocket) : Server :=
  mkServer a (Some (effective_dial fm os)) (password os) (Some u) false
           None false.

(** A dialer that reaches the peer over UDP only. *)
Definition dial_udp_only : DialFn :=
  fun network _ =>
    if String.eqb network "udp"
    then Ok (Wire.peer [] net_Timeout)
    else Err (IOError (net_OpError "connection refused")).

(** A dialer whose TCP peer answers the AUTH request of id 5 with the
    empty RESPONSE_VALUE and an AUTH_RESPONSE of id -1. *)
Definition dial_wrong_password : DialFn :=
  fun network _ =>
    if String.eqb network "udp"
    then Ok (Wire.peer [] net_Timeout)
    else Ok (Wire.peer [Chunk (Wire.frame 5 0 []) None;
                        Chunk (Wire.frame (-1) 2 []) None] io_EOF).

(** The options of a client that knows the password "pw". *)
Definition with_password (d : DialFn) : list ConnectOptions :=
  [mkConnectOptions (Some d) [x70; x77]].

(** What [Info] returns for the reply it parses. *)
Definition Info_parse (fm : FrameModel) (data : list byte)
  : result (InfoResponse fm) :=
  match InfoResponse_unmarshalBinary fm data with
  | Ok res => Ok res
  | Err e => Err (fmt_Errorf "steam: could not unmarshal info response (%v)" e)
  | Panic v => Panic v
  end.

(** The requests written to the query socket so far. *)
Definition requests (u : udpSocket) : list (list byte) := written (uconn u).

(** A facade without RCON whose query peer delivers [reads], each call
    on the query socket taking the time scripted in [lat]. *)
Definition query_server (reads : list chunk) (lat : list Z) : Server :=
  mkServer "example:27015" None []
           (Some (mkUdpSocket (Wire.peer reads net_Timeout) lat)) false
           None false.

(** A challenge reply carrying the challenge 0x01020304, and direct
    replies to an info and to a players request. *)
Definition challenge_reply : list byte :=
  [xff; xff; xff; xff; x41; x04; x03; x02; x01].

Definition info_reply : list byte := [xff; xff; xff; xff; x49; x11; x68].

Definition players_reply : list byte := [xff; xff; xff; xff; x44; x00].

(** The replies the query peer has yet to deliver. *)
Definition replies_left (u : udpSocket) : nat :=
  length (pending (rd (uconn u))).

(** A query socket whose first write fails and whose peer delivers one
    datagram all the same; the two calls take 3 and 7 units of time. *)
Definition lossy_query_socket : udpSocket :=
  mkUdpSocket
    (mkConn (mkSource [Chunk info_reply None] net_Timeout)
            [Some (net_OpError "network is unreachable")] None [] false)
    [3; 7].

Definition lossy_query_server : Server :=
  mkServer "example:27015" None [] (Some lossy_query_socket) false None false.

(** The challenge exchange of a query [call] on a facade holding the
    query socket [u]; [marshal c] is the request carrying the challenge
    [c] (0 when there is none) and [parse] gives the result of the call
    from the reply it parses.
    - A first reply that is not a challenge response is parsed, after
      one request and one reply.
    - A first reply that is a challenge response carrying [challenge]
      is followed by one more request, [marshal challenge], and the
      second reply is parsed.
    - Whatever happens, the call writes at most two requests and
      takes at most two replies. *)
Definition challenge_exchange (fm : FrameModel) {A : Type}
  (marshal : Z -> list byte) (call : Server -> result A * Server)
  (parse : list byte -> result A) (s : Server) (u : udpSocket) : Prop :=
  (forall u1 u2 t1 t2 data1,
      udpSocket_send u (marshal 0) = (None, u1, t1) ->
      udpSocket_receive (udpBufferSize fm) u1 = (Ok data1, u2, t2) ->
      isChallengeResponse fm data1 = false ->
      call s = (parse data1, set_usock s (Some u2))
      /\ requests u2 = requests u ++ [marshal 0]
      /\ replies_left u = S (replies_left u2))
  /\ (forall u1 u2 u3 u4 t1 t2 t3 t4 data1 data2 challenge,
         udpSocket_send u (marshal 0) = (None, u1, t1) ->
         udpSocket_receive (udpBufferSize fm) u1 = (Ok data1, u2, t2) ->
         isChallengeResponse fm data1 = true ->
         ChallengeResponse_unmarshalBinary fm data1 = Ok challenge ->
         udpSocket_send u2 (marshal challenge) = (None, u3, t3) ->
         udpSocket_receive (udpBufferSize fm) u3 = (Ok data2, u4, t4) ->
         call s = (parse data2, set_usock s (Some u4))
         /\ requests u4 = requests u ++ [marshal 0; marshal challenge]
         /\ replies_left u = S (S (replies_left u4)))
  /\ (exists u',
         usock (snd (call s)) = Some u'
         /\ (length (requests u') <= length (requests u) + 2)%nat
         /\ (replies_left u <= replies_left u' + 2)%nat).

(** A query peer that challenges once and then answers. *)
Definition challenging_peer (answer : list byte) : list chunk :=
  [Chunk challenge_reply None; Chunk answer None].

(** ** Vocabulary of the further properties *)

(** [Send] has passed its guard and written the command request [req]
    and the mirror request [reqMirror], which leaves the RCON socket as
    [rs2] and the id state as [ids2]. *)
Definition requests_written (fm : FrameModel) (cmd : list byte) (s : Server)
  (ids : idState fm) (req reqMirror : rconRequest) (ids2 : idState fm)
  (rs2 : rconSocket) : Prop :=
  rconInitialized s = true
  /\ exists rs rs1 ids1,
       rsock s = Some rs
       /\ newRCONRequest fm ids (rrtExecCmd fm) cmd = (req, ids1)
       /\ rconSocket_send rs (rconRequest_marshalBinary fm req) = (None, rs1)
       /\ newRCONRequest fm ids1 (rrtRespValue fm) [] = (reqMirror, ids2)
       /\ rconSocket_send rs1 (rconRequest_marshalBinary fm reqMirror)
          = (None, rs2).

(** The frames [Send] has taken when its loop is about to read again:
    the fragments, and the mirror frame once [sawMirror] is set. *)
Definition frames_taken (fragments : list rconResponse) (mirror : rconResponse)
  (sawMirror : bool) : list rconResponse :=
  fragments ++ (if sawMirror then [mirror] else []).

(** The facade of [rcon_server] once [Send] has written its two
    requests, with ids 5 and 6, and the peer still holds [reads]. *)
Definition rcon_server_left (cmd : list byte) (reads : list chunk) : Server :=
  mkServer "example:27015" None [x70; x77] None false
           (Some (mkRconSocket
                    (mkConn (mkSource reads io_EOF) [] None
                            [Wire.frame 5 2 cmd; Wire.frame 6 0 []] false)))
           true.

(** [authenticate] has written the AUTH request [req], which leaves
    the RCON socket as [rs1] and the id state as [ids1]. *)
Definition auth_request_written (fm : FrameModel) (s : Server)
  (ids : idState fm) (req : rconRequest) (ids1 : idState fm)
  (rs1 : rconSocket) : Prop :=
  exists rs,
    rsock s = Some rs
    /\ newRCONRequest fm ids (rrtAuth fm) (rconPassword s) = (req, ids1)
    /\ rconSocket_send rs (rconRequest_marshalBinary fm req) = (None, rs1).

(** The facade of [auth_server] once [authenticate] has written its
    request, with id 5, and the peer still holds [reads]. *)
Definition auth_server_left (reads : list chunk) : Server :=
  mkServer "example:27015" None [x70; x77] None false
           (Some (mkRconSocket
                    (mkConn (mkSource reads io_EOF) [] None
                            [Wire.frame 5 3 [x70; x77]] false)))
           false.

(** A TCP peer that accepts the password: it answers the AUTH request
    of id 5 with the empty RESPONSE_VALUE and an AUTH_RESPONSE of the
    same id. *)
Definition accepting_peer : list chunk :=
  [Chunk (Wire.frame 5 0 []) None; Chunk (Wire.frame 5 2 []) None].

Definition dial_accepting : DialFn :=
  fun network _ =>
    if String.eqb network "udp"
    then Ok (Wire.peer [] net_Timeout)
    else Ok (Wire.peer accepting_peer io_EOF).

(** A dialer that reaches no peer. *)
Definition dial_unreachable : DialFn :=
  fun _ _ => Err (IOError (net_OpError "no route to host")).

(** A facade that holds both sockets and has authenticated. *)
Definition connected_server : Server :=
  mkServer "example:27015" (Some dial_accepting) [x70; x77]
           (Some (mkUdpSocket (Wire.peer [] net_Timeout) [])) false
           (Some (mkRconSocket (Wire.peer [] io_EOF))) true.

(** The reply to a command with the single output fragment "abc",
    where the transport delivers the fragment's frame in two reads (the
    last three of its bytes come apart), then the mirror frame and the
    trailer frame. *)
Definition split_fragment_reply : list chunk :=
  [Chunk (firstn 14 (Wire.frame 5 0 [x61; x62; x63])) None;
   Chunk (skipn 14 (Wire.frame 5 0 [x61; x62; x63])) None;
   Chunk (Wire.frame 6 0 []) None; Chunk (Wire.frame 6 0 trailer) None].

(** * Properties *)

(** ** The codec: [readString] *)

Lemma Byte_eqb_refl (b : byte) : Byte.eqb b b = true.
Proof. now apply Byte.byte_dec_lb. Qed.

Lemma bytes_eqb_eq (a b : list byte) : bytes_eqb a b = true <-> a = b.
Proof.
  revert b; induction a as [|x a IH]; intros [|y b]; simpl; split;
    try congruence; try reflexivity.
  - intros H. apply andb_prop in H as [Hx Hab].
    apply Byte.byte_dec_bl in Hx. apply IH in Hab. congruence.
  - intros H. injection H as -> ->.
    rewrite Byte_eqb_refl. simpl. now apply IH.
Qed.

(** [readAtLeast] is one [Read] of the loop of [io.ReadAtLeast]
    followed by the rest of the loop. *)
Lemma readAtLeast_step (p : list chunk) (idl : ioErr) (need : nat) :
  (0 < need)%nat ->
  readAtLeast p idl need
  = let '(bs, e, s') := source_Read (mkSource p idl) need in
    if (length bs =? need)%nat then (bs, None, pending s')
    else match e with
         | Some x => (bs, Some x, pending s')
         | None =>
             let '(got, err, p') :=
               readAtLeast (pending s') idl (need - length bs) in
             (bs ++ got, err, p')
         end.
Proof.
  intros Hn. destruct need as [|n]; [lia|].
  destruct p as [|[bs e] rest]; [reflexivity|].
  unfold source_Read. cbn [readAtLeast pending idle].
  destruct (S n <? length bs)%nat eqn:Elt.
  - apply Nat.ltb_lt in Elt.
    rewrite length_firstn, Nat.min_l by lia. rewrite Nat.eqb_refl. reflexivity.
  - cbn [pending]. rewrite (Nat.eqb_sym (length bs) (S n)).
    destruct (S n =? length bs)%nat; [reflexivity|].
    destruct e; reflexivity.
Qed.

(** One byte is read from a clean script that still holds one. *)
Lemma readAtLeast_one (p : list chunk) (idl : ioErr) (b : byte) (tl : list byte) :
  clean p = true ->
  available p = b :: tl ->
  exists p',
    readAtLeast p idl 1 = ([b], None, p')
    /\ clean p' = true /\ available p' = tl.
Proof.
  induction p as [|[bs e] rest IH]; simpl; intros Hc Ha.
  - discriminate.
  - destruct e as [x|]; [discriminate|].
    destruct bs as [|x [|y bs]]; simpl in *.
    + destruct (IH Hc Ha) as (p' & Hr & Hc' & Ha').
      rewrite Hr. exists p'. auto.
    + injection Ha as -> <-. exists rest. auto.
    + injection Ha as -> <-. exists (Chunk (y :: bs) None :: rest). auto.
Qed.

Lemma io_ReadFull_one (r : Reader) (b : byte) (tl : list byte) :
  Reader_clean r = true ->
  unread r = b :: tl ->
  exists r',
    io_ReadFull r 1 = ([b], None, r')
    /\ Reader_clean r' = true /\ unread r' = tl.
Proof.
  unfold Reader_clean, unread, io_ReadFull. intros Hc Ha.
  destruct (readAtLeast_one _ (idle (Reader_source r)) _ _ Hc Ha)
    as (p' & Hr & Hc' & Ha').
  rewrite Hr. destruct r as [s|s buf]; eexists; split; try reflexivity;
    simpl; auto.
Qed.

Lemma readString_loop_spec (pre post : list byte) :
  ~ In x00 pre ->
  forall (fuel : nat) (r : Reader) (buf : list byte),
    Reader_clean r = true ->
    unread r = pre ++ x00 :: post ->
    (length pre < fuel)%nat ->
    exists r',
      readString_loop fuel r buf = Some (Ok (buf ++ pre), r')
      /\ Reader_clean r' = true /\ unread r' = post.
Proof.
  induction pre as [|b pre IH]; intros Hnz fuel r buf Hc Hu Hf.
  - destruct fuel as [|fuel]; [simpl in Hf; lia|].
    destruct (io_ReadFull_one r x00 post Hc Hu) as (r' & Hr & Hc' & Hu').
    simpl. rewrite Hr. simpl. exists r'. rewrite app_nil_r. auto.
  - destruct fuel as [|fuel]; [simpl in Hf; lia|].
    destruct (io_ReadFull_one r b (pre ++ x00 :: post) Hc Hu)
      as (r' & Hr & Hc' & Hu').
    assert (Hb : Byte.eqb b x00 = false).
    { destruct (Byte.eqb b x00) eqn:E; [|reflexivity].
      apply Byte.byte_dec_bl in E. subst b. exfalso. apply Hnz. now left. }
    destruct (IH (fun H => Hnz (or_intror H)) fuel r' (buf ++ [b]) Hc' Hu')
      as (r'' & Hl & Hc'' & Hu''); [simpl in Hf; lia|].
    simpl. rewrite Hr. simpl. rewrite Hb.
    exists r''. rewrite Hl, <- app_assoc. auto.
Qed.

(** C9. On a reader whose unread bytes are [pre], a zero byte and
    [post], with no zero byte in [pre], [readString] returns exactly
    [pre]: the zero byte is consumed and left out of the result, and
    the bytes of [post] stay unread. *)
Theorem readString_stops_at_first_zero
  (r : Reader) (pre post : list byte) (fuel : nat) :
  Reader_clean r = true ->
  unread r = pre ++ x00 :: post ->
  ~ In x00 pre ->
  (length pre < fuel)%nat ->
  exists r',
    readString fuel r = Some (Ok pre, r')
    /\ Reader_clean r' = true /\ unread r' = post.
Proof.
  intros Hc Hu Hnz Hf. unfold readString.
  destruct (readString_loop_spec pre post Hnz fuel r [] Hc Hu Hf)
    as (r' & Hl & H). exists r'. split; [exact Hl | exact H].
Qed.

Lemma readString_stops_at_first_zero_witness :
  exists r',
    readString 3 (bytes_NewReader [x41; x42; x00; x43]) = Some (Ok [x41; x42], r')
    /\ Reader_clean r' = true /\ unread r' = [x43].
Proof.
  apply (readString_stops_at_first_zero
           (bytes_NewReader [x41; x42; x00; x43]) [x41; x42] [x43] 3).
  - reflexivity.
  - reflexivity.
  - simpl. intros [H | [H | H]]; [discriminate H | discriminate H | exact H].
  - simpl. lia.
Defined.

(** ** The RCON socket: [receive] *)

Lemma Conn_set_rd_deadlineErr (c : Conn) (s : source) :
  deadlineErr (Conn_set_rd c s) = deadlineErr c.
Proof. reflexivity. Qed.

(** More fuel does not change a result. *)
Lemma receive_loop_mono (fuel : nat) :
  forall (fuel' : nat) (c : Conn) (buf : list byte) (total : Z) r,
    receive_loop fuel c buf total = Some r ->
    (fuel <= fuel')%nat ->
    receive_loop fuel' c buf total = Some r.
Proof.
  induction fuel as [|fuel IH]; intros fuel' c buf total r H Hle.
  - destruct fuel'; simpl in *; destruct (total <=? 0); congruence.
  - destruct fuel' as [|fuel']; [lia|].
    simpl in *. destruct (total <=? 0); [exact H|].
    destruct (deadlineErr c); [exact H|].
    destruct (Conn_Read c (Z.to_nat total)) as [[bs err] c'].
    destruct err as [[| | | |]|]; try exact H; apply IH; auto; lia.
Qed.

Lemma receive_mono (fuel fuel' : nat) (s : rconSocket) r :
  receive fuel s = Some r -> (fuel <= fuel')%nat -> receive fuel' s = Some r.
Proof.
  unfold receive. intros H Hle.
  destruct (readLong (teeReader (rd (conn s)) [])) as [[total|e|v] tr];
    try exact H.
  destruct (receive_loop fuel _ _ total) as [[res c']|] eqn:E; [|discriminate].
  rewrite (receive_loop_mono _ _ _ _ _ _ E Hle). exact H.
Qed.

(** A frame that arrives whole is returned with its length prefix. *)
Example receive_whole_frame :
  option_map fst
    (receive 1 (mkRconSocket (Wire.peer [Chunk (Wire.frame 7 0 [x41]) None] io_EOF)))
  = Some (Ok (Wire.frame 7 0 [x41])).
Proof. reflexivity. Qed.

(** A payload that arrives in two reads: the first read appends the
    whole of [b], zero bytes included, before the second appends the
    rest. *)
Example receive_split_payload :
  option_map fst
    (receive 2 (mkRconSocket
                  (Wire.peer [Chunk [x03; x00; x00; x00; x41] None;
                              Chunk [x42; x43] None] io_EOF)))
  = Some (Ok [x03; x00; x00; x00; x41; x00; x00; x42; x43]).
Proof. reflexivity. Qed.

(** A peer that stays silent without closing keeps the loop running. *)
Lemma receive_loop_silent (fuel : nat) :
  forall (c : Conn) (buf : list byte) (total : Z),
    0 < total ->
    deadlineErr c = None ->
    pending (rd c) = [] ->
    idle (rd c) <> io_EOF ->
    receive_loop fuel c buf total = None.
Proof.
  induction fuel as [|fuel IH]; intros c buf total Ht Hd Hp Hi; simpl.
  - destruct (total <=? 0) eqn:E; [apply Z.leb_le in E; lia | reflexivity].
  - destruct (total <=? 0) eqn:E; [apply Z.leb_le in E; lia |].
    rewrite Hd. unfold Conn_Read, source_Read. rewrite Hp. simpl.
    assert (Hc : receive_loop fuel (Conn_set_rd c (rd c)) buf total = None)
      by (apply IH; auto).
    destruct (idle (rd c)); try exact Hc. congruence.
Qed.

Lemma receive_loop_EOF (chunks : list (list byte)) :
  forall (fuel : nat) (c : Conn) (buf : list byte) (total : Z)
         (tail : list chunk),
    deadlineErr c = None ->
    pending (rd c) = map (fun bs => Chunk bs None) chunks ++ tail ->
    Z.of_nat (length (concat chunks)) < total ->
    reaches_EOF tail (idle (rd c)) (total - Z.of_nat (length (concat chunks))) ->
    (length chunks < fuel)%nat ->
    exists c', receive_loop fuel c buf total = Some (Err errCouldNotReceive, c').
Proof.
  induction chunks as [|bs chunks IH];
    intros fuel c buf total tail Hd Hp Hlt Heof Hf;
    (destruct fuel as [|fuel]; [simpl in Hf; lia|]);
    simpl in Hp, Hlt, Heof |- *;
    (destruct (total <=? 0) eqn:E; [apply Z.leb_le in E; lia|]);
    rewrite Hd; unfold Conn_Read, source_Read; rewrite Hp.
  - destruct Heof as [[-> Hi] | (last & rest & -> & Hlast)].
    + rewrite Hi. eexists. reflexivity.
    + replace (Z.to_nat total <? length last)%nat with false
        by (symmetry; apply Nat.ltb_ge; lia).
      eexists. reflexivity.
  - rewrite length_app in Hlt, Heof.
    replace (Z.to_nat total <? length bs)%nat with false
      by (symmetry; apply Nat.ltb_ge; lia).
    set (c' := Conn_set_rd c _).
    destruct (0 <? length bs)%nat eqn:En.
    + apply (IH fuel c' _ (total - Z.of_nat (length bs)) tail); auto.
      * lia.
      * replace (total - Z.of_nat (length bs) - Z.of_nat (length (concat chunks)))
          with (total - Z.of_nat (length bs + length (concat chunks))) by lia.
        exact Heof.
      * simpl in Hf. lia.
    + apply Nat.ltb_ge in En.
      apply (IH fuel c' _ total tail); auto.
      * lia.
      * replace (total - Z.of_nat (length (concat chunks)))
          with (total - Z.of_nat (length bs + length (concat chunks))) by lia.
        exact Heof.
      * simpl in Hf. lia.
Qed.

(** C1. The code at the failing input: against a peer that sends a
    length prefix of 10 and nothing more, the prefix is read, every
    read of the payload loop times out, and [receive] returns for no
    amount of fuel, where the specification has it return the timeout
    error. *)
Theorem receive_silent_peer_never_returns :
  fst (readLong (teeReader (rd (conn silent_after_prefix)) [])) = Ok 10
  /\ forall fuel : nat, receive fuel silent_after_prefix = None.
Proof.
  split; [reflexivity|].
  intros fuel. unfold receive. simpl.
  rewrite receive_loop_silent.
  - reflexivity.
  - reflexivity.
  - reflexivity.
  - reflexivity.
  - simpl. discriminate.
Qed.

(** C4, as stated, fails: the read that meets the end of the stream
    makes [receive] return the formatted error of the loop, and no
    amount of fuel gives NotEnoughDataInResponse. *)
Lemma receive_EOF_not_NotEnoughData :
  (exists s', receive 2 closes_early = Some (Err errCouldNotReceive, s'))
  /\ ~ (exists fuel s',
          receive fuel closes_early = Some (Err errNotEnoughDataInResponse, s')).
Proof.
  split.
  - eexists. reflexivity.
  - intros (fuel & s' & H).
    destruct fuel as [|[|fuel]]; cbn in H; discriminate H.
Qed.

(** C4, amended. Once the length prefix [total] is read, if the peer
    delivers fewer than [total] payload bytes and the next read meets
    the end of the stream, [receive] fails with the error formatted
    from [io.EOF] as "steam: could not receive data (EOF)". *)
Theorem receive_EOF_before_length
  (s : rconSocket) (total : Z) (tr : Reader)
  (chunks : list (list byte)) (tail : list chunk) (fuel : nat) :
  deadlineErr (conn s) = None ->
  readLong (teeReader (rd (conn s)) []) = (Ok total, tr) ->
  pending (Reader_source tr) = map (fun bs => Chunk bs None) chunks ++ tail ->
  Z.of_nat (length (concat chunks)) < total ->
  reaches_EOF tail (idle (Reader_source tr))
              (total - Z.of_nat (length (concat chunks))) ->
  (length chunks < fuel)%nat ->
  exists s', receive fuel s = Some (Err errCouldNotReceive, s').
Proof.
  intros Hd Hr Hp Hlt Heof Hf. unfold receive. rewrite Hr.
  destruct (receive_loop_EOF chunks fuel
              (Conn_set_rd (conn s) (Reader_source tr))
              (match tr with teeReader _ b => b | plainReader _ => [] end)
              total tail) as (c' & Hc'); auto.
  rewrite Hc'. eexists. reflexivity.
Qed.

Lemma receive_EOF_before_length_witness :
  exists s', receive 2 closes_early = Some (Err errCouldNotReceive, s').
Proof.
  apply (receive_EOF_before_length closes_early 10
           (teeReader (mkSource [Chunk [x01; x02; x03] None] io_EOF)
                      [x0a; x00; x00; x00])
           [[x01; x02; x03]] [] 2).
  - reflexivity.
  - reflexivity.
  - reflexivity.
  - simpl. lia.
  - left. split; reflexivity.
  - simpl. lia.
Defined.

(** ** The RCON engine: [Send] *)

Section SendLoop.

Variable fm : FrameModel.
Variables reqID mirrorID : Z.
Hypothesis ids_differ : reqID <> mirrorID.

Lemma replies_nil_inv (rs rs' : rconSocket) :
  replies fm rs [] rs' -> rs' = rs.
Proof. intros H. inversion H. reflexivity. Qed.

Lemma replies_cons_inv (rs rs' : rconSocket) (r : rconResponse)
  (rest : list rconResponse) :
  replies fm rs (r :: rest) rs' ->
  exists f data rs1,
    receive f rs = Some (Ok data, rs1)
    /\ rconResponse_unmarshalBinary fm rconResponse_zero data = (None, r)
    /\ replies fm rs1 rest rs'.
Proof.
  intros H. inversion H as [|? rs1 ? f data ? ? Hr Hu Hrest].
  exists f, data, rs1. auto.
Qed.

(** One turn of the loop on a frame of the command's output. *)
Lemma Send_loop_fragment (fuel f : nat) (rs rs1 : rconSocket)
  (data buf : list byte) (r : rconResponse) :
  receive f rs = Some (Ok data, rs1) ->
  rconResponse_unmarshalBinary fm rconResponse_zero data = (None, r) ->
  typ r = rrtRespValue fm ->
  id r = reqID ->
  (f <= S fuel)%nat ->
  Send_loop fm (S fuel) reqID mirrorID rs buf false
  = Send_loop fm fuel reqID mirrorID rs1 (buf ++ body r) false.
Proof.
  intros Hr Hu Ht Hi Hle. simpl.
  rewrite (receive_mono _ _ _ _ Hr Hle), Hu, Ht, Hi, !Z.eqb_refl. simpl.
  destruct (reqID =? mirrorID) eqn:E; [apply Z.eqb_eq in E; contradiction|].
  reflexivity.
Qed.

(** One turn of the loop on the mirror frame. *)
Lemma Send_loop_mirror (fuel f : nat) (rs rs1 : rconSocket)
  (data buf : list byte) (r : rconResponse) :
  receive f rs = Some (Ok data, rs1) ->
  rconResponse_unmarshalBinary fm rconResponse_zero data = (None, r) ->
  typ r = rrtRespValue fm ->
  id r = mirrorID ->
  (f <= S fuel)%nat ->
  Send_loop fm (S fuel) reqID mirrorID rs buf false
  = Send_loop fm fuel reqID mirrorID rs1 buf true.
Proof.
  intros Hr Hu Ht Hi Hle. simpl.
  rewrite (receive_mono _ _ _ _ Hr Hle), Hu, Ht, Hi, !Z.eqb_refl. reflexivity.
Qed.

(** The turn of the loop that follows the mirror frame. *)
Lemma Send_loop_after_mirror (fuel f : nat) (rs rs1 : rconSocket)
  (data buf : list byte) (r : rconResponse) :
  receive f rs = Some (Ok data, rs1) ->
  rconResponse_unmarshalBinary fm rconResponse_zero data = (None, r) ->
  typ r = rrtRespValue fm ->
  (f <= S fuel)%nat ->
  Send_loop fm (S fuel) reqID mirrorID rs buf true
  = if bytes_eqb (body r) trailer
    then Some (Ok buf, rs1)
    else Some (Err ErrInvalidResponseTrailer, rs1).
Proof.
  intros Hr Hu Ht Hle. simpl.
  rewrite (receive_mono _ _ _ _ Hr Hle), Hu, Ht, Z.eqb_refl. reflexivity.
Qed.

(** The loop runs through the fragments, appending their bodies. *)
Lemma Send_loop_fragments (fragments : list rconResponse) :
  forall (rs rs' : rconSocket) (buf : list byte) (tail : list rconResponse) res,
    replies fm rs (fragments ++ tail) rs' ->
    Forall (fun r => typ r = rrtRespValue fm /\ id r = reqID) fragments ->
    (forall rsm,
        replies fm rsm tail rs' ->
        exists f1, forall fuel, (f1 <= fuel)%nat ->
          Send_loop fm fuel reqID mirrorID rsm
                    (buf ++ concat (map body fragments)) false = Some res) ->
    exists f0, forall fuel, (f0 <= fuel)%nat ->
      Send_loop fm fuel reqID mirrorID rs buf false = Some res.
Proof.
  induction fragments as [|r fragments IH];
    intros rs rs' buf tail res Hrep Hall Hk.
  - simpl in *. rewrite app_nil_r in Hk. apply (Hk rs Hrep).
  - simpl in Hrep.
    destruct (replies_cons_inv _ _ _ _ Hrep) as (f & data & rs1 & Hr & Hu & Hrest).
    destruct (Forall_inv Hall) as [Ht Hi].
    pose proof (Forall_inv_tail Hall) as Hall'.
    destruct (IH rs1 rs' (buf ++ body r) tail res Hrest Hall') as (f0 & Hf0).
    { intros rsm Hm. destruct (Hk rsm Hm) as (f1 & Hf1).
      exists f1. intros fuel Hle. rewrite <- app_assoc. apply Hf1, Hle. }
    exists (S (Nat.max f f0)). intros fuel Hle.
    destruct fuel as [|fuel]; [lia|].
    rewrite (Send_loop_fragment fuel f rs rs1 data buf r Hr Hu Ht Hi);
      [|lia].
    apply Hf0. lia.
Qed.

(** Fragments, then the mirror frame, then one more frame [last]: the
    loop ends on [last], with the trailer check deciding the result. *)
Lemma Send_loop_protocol (fragments : list rconResponse)
  (mirror last : rconResponse) (rs rs' : rconSocket) :
  replies fm rs (fragments ++ [mirror; last]) rs' ->
  Forall (fun r => typ r = rrtRespValue fm /\ id r = reqID) fragments ->
  typ mirror = rrtRespValue fm ->
  id mirror = mirrorID ->
  typ last = rrtRespValue fm ->
  exists f0, forall fuel, (f0 <= fuel)%nat ->
    Send_loop fm fuel reqID mirrorID rs [] false
    = if bytes_eqb (body last) trailer
      then Some (Ok (concat (map body fragments)), rs')
      else Some (Err ErrInvalidResponseTrailer, rs').
Proof.
  intros Hrep Hall Htm Him Htl.
  assert (Hres : exists res,
             res = (if bytes_eqb (body last) trailer
                    then (Ok (concat (map body fragments)), rs')
                    else (Err ErrInvalidResponseTrailer, rs'))).
  { eexists. reflexivity. }
  destruct Hres as (res & Hres).
  assert (Hgoal : exists f0, forall fuel, (f0 <= fuel)%nat ->
             Send_loop fm fuel reqID mirrorID rs [] false = Some res).
  { apply (Send_loop_fragments fragments rs rs' [] [mirror; last] res Hrep Hall).
    intros rsm Hm. simpl.
    destruct (replies_cons_inv _ _ _ _ Hm) as (f1 & d1 & rs1 & Hr1 & Hu1 & Hrest1).
    destruct (replies_cons_inv _ _ _ _ Hrest1)
      as (f2 & d2 & rs2 & Hr2 & Hu2 & Hrest2).
    apply replies_nil_inv in Hrest2. rewrite Hrest2 in *.
    exists (S (S (Nat.max f1 f2))). intros fuel Hle.
    destruct fuel as [|[|fuel]]; try lia.
    rewrite (Send_loop_mirror (S fuel) f1 rsm rs1 d1 _ mirror Hr1 Hu1 Htm Him);
      [|lia].
    rewrite (Send_loop_after_mirror fuel f2 rs1 rs2 d2 _ last Hr2 Hu2 Htl);
      [|lia].
    rewrite Hres. destruct (bytes_eqb (body last) trailer); reflexivity. }
  destruct Hgoal as (f0 & Hf0). exists f0. intros fuel Hle.
  rewrite (Hf0 fuel Hle), Hres.
  destruct (bytes_eqb (body last) trailer); reflexivity.
Qed.

End SendLoop.

(** [Send] up to its loop, when both requests are written. *)
Lemma Send_reaches_loop (fm : FrameModel) (fuel : nat) (cmd : list byte)
  (s : Server) (ids ids1 ids2 : idState fm) (rs rs1 rs2 : rconSocket)
  (req reqMirror : rconRequest) :
  rconInitialized s = true ->
  rsock s = Some rs ->
  newRCONRequest fm ids (rrtExecCmd fm) cmd = (req, ids1) ->
  rconSocket_send rs (rconRequest_marshalBinary fm req) = (None, rs1) ->
  newRCONRequest fm ids1 (rrtRespValue fm) [] = (reqMirror, ids2) ->
  rconSocket_send rs1 (rconRequest_marshalBinary fm reqMirror) = (None, rs2) ->
  Send fm fuel cmd s ids
  = match Send_loop fm fuel (req_id req) (req_id reqMirror) rs2 [] false with
    | None => None
    | Some (r, rs') => Some (r, set_rsock s (Some rs'), ids2)
    end.
Proof.
  intros Hi Hs Hq Hw Hqm Hwm. unfold Send.
  rewrite Hi, Hq, Hs, Hw, Hqm, Hwm. reflexivity.
Qed.

(** X27. On the frames as the successive [receive] calls return them
    and [unmarshalBinary] decodes them: after an authenticated [Send]
    has written the command request and the mirror request, N
    RESPONSE_VALUE frames with the id of the command request, then a
    RESPONSE_VALUE frame with the id of the mirror request, then a
    RESPONSE_VALUE frame whose body is the trailer make [Send] return
    the bodies of the N frames concatenated in the order received; the
    contents of the mirror frame and of the trailer frame are not part
    of the result.  The two request ids are taken to be distinct. *)
Theorem Send_returns_concatenated_fragments
  (fm : FrameModel) (cmd : list byte) (s : Server)
  (ids ids1 ids2 : idState fm) (rs rs1 rs2 rs3 : rconSocket)
  (req reqMirror : rconRequest)
  (fragments : list rconResponse) (mirror last : rconResponse) :
  rconInitialized s = true ->
  rsock s = Some rs ->
  newRCONRequest fm ids (rrtExecCmd fm) cmd = (req, ids1) ->
  rconSocket_send rs (rconRequest_marshalBinary fm req) = (None, rs1) ->
  newRCONRequest fm ids1 (rrtRespValue fm) [] = (reqMirror, ids2) ->
  rconSocket_send rs1 (rconRequest_marshalBinary fm reqMirror) = (None, rs2) ->
  req_id req <> req_id reqMirror ->
  replies fm rs2 (fragments ++ [mirror; last]) rs3 ->
  Forall (fun r => typ r = rrtRespValue fm /\ id r = req_id req) fragments ->
  typ mirror = rrtRespValue fm ->
  id mirror = req_id reqMirror ->
  typ last = rrtRespValue fm ->
  body last = trailer ->
  exists f0, forall fuel, (f0 <= fuel)%nat ->
    Send fm fuel cmd s ids
    = Some (Ok (concat (map body fragments)), set_rsock s (Some rs3), ids2).
Proof.
  intros Hi Hs Hq Hw Hqm Hwm Hne Hrep Hall Htm Him Htl Hbl.
  destruct (Send_loop_protocol fm (req_id req) (req_id reqMirror) Hne
              fragments mirror last rs2 rs3 Hrep Hall Htm Him Htl)
    as (f0 & Hf0).
  exists f0. intros fuel Hle.
  rewrite (Send_reaches_loop fm fuel cmd s ids ids1 ids2 rs rs1 rs2
             req reqMirror Hi Hs Hq Hw Hqm Hwm).
  rewrite (Hf0 fuel Hle).
  apply bytes_eqb_eq in Hbl. rewrite Hbl. reflexivity.
Qed.

Lemma Send_returns_concatenated_fragments_witness :
  exists f0, forall fuel, (f0 <= fuel)%nat ->
    Send Wire.model fuel [x6c; x73] (rcon_server two_fragments_reply) 5
    = Some (Ok [x61; x62], rcon_server_after [x6c; x73], 7).
Proof.
  apply (Send_returns_concatenated_fragments Wire.model [x6c; x73]
           (rcon_server two_fragments_reply) 5 6 7
           (mkRconSocket (Wire.peer two_fragments_reply io_EOF))
           (mkRconSocket
              (mkConn (mkSource two_fragments_reply io_EOF) [] None
                      [Wire.frame 5 2 [x6c; x73]] false))
           (mkRconSocket
              (mkConn (mkSource two_fragments_reply io_EOF) [] None
                      [Wire.frame 5 2 [x6c; x73]; Wire.frame 6 0 []] false))
           (mkRconSocket
              (mkConn (mkSource [] io_EOF) [] None
                      [Wire.frame 5 2 [x6c; x73]; Wire.frame 6 0 []] false))
           (mkRconRequest 5 2 [x6c; x73]) (mkRconRequest 6 0 [])
           [mkRconResponse 0 5 [x61]; mkRconResponse 0 5 [x62]]
           (mkRconResponse 0 6 []) (mkRconResponse 0 6 trailer)).
  - reflexivity.
  - reflexivity.
  - reflexivity.
  - reflexivity.
  - reflexivity.
  - reflexivity.
  - simpl. lia.
  - simpl.
    eapply (replies_cons _ _ _ _ 1%nat); [vm_compute; reflexivity | reflexivity |].
    eapply (replies_cons _ _ _ _ 1%nat); [vm_compute; reflexivity | reflexivity |].
    eapply (replies_cons _ _ _ _ 1%nat); [vm_compute; reflexivity | reflexivity |].
    eapply (replies_cons _ _ _ _ 1%nat); [vm_compute; reflexivity | reflexivity |].
    apply replies_nil.
  - repeat constructor.
  - reflexivity.
  - reflexivity.
  - reflexivity.
  - reflexivity.
Defined.

(** C6. Once the mirror frame has been seen, a following RESPONSE_VALUE
    frame whose body differs from the trailer makes [Send] fail with
    ErrInvalidResponseTrailer; the output accumulated from the fragments
    is not returned. *)
Theorem Send_rejects_wrong_trailer
  (fm : FrameModel) (cmd : list byte) (s : Server)
  (ids ids1 ids2 : idState fm) (rs rs1 rs2 rs3 : rconSocket)
  (req reqMirror : rconRequest)
  (fragments : list rconResponse) (mirror last : rconResponse) :
  rconInitialized s = true ->
  rsock s = Some rs ->
  newRCONRequest fm ids (rrtExecCmd fm) cmd = (req, ids1) ->
  rconSocket_send rs (rconRequest_marshalBinary fm req) = (None, rs1) ->
  newRCONRequest fm ids1 (rrtRespValue fm) [] = (reqMirror, ids2) ->
  rconSocket_send rs1 (rconRequest_marshalBinary fm reqMirror) = (None, rs2) ->
  req_id req <> req_id reqMirror ->
  replies fm rs2 (fragments ++ [mirror; last]) rs3 ->
  Forall (fun r => typ r = rrtRespValue fm /\ id r = req_id req) fragments ->
  typ mirror = rrtRespValue fm ->
  id mirror = req_id reqMirror ->
  typ last = rrtRespValue fm ->
  body last <> trailer ->
  exists f0, forall fuel, (f0 <= fuel)%nat ->
    Send fm fuel cmd s ids
    = Some (Err ErrInvalidResponseTrailer, set_rsock s (Some rs3), ids2).
Proof.
  intros Hi Hs Hq Hw Hqm Hwm Hne Hrep Hall Htm Him Htl Hbl.
  destruct (Send_loop_protocol fm (req_id req) (req_id reqMirror) Hne
              fragments mirror last rs2 rs3 Hrep Hall Htm Him Htl)
    as (f0 & Hf0).
  exists f0. intros fuel Hle.
  rewrite (Send_reaches_loop fm fuel cmd s ids ids1 ids2 rs rs1 rs2
             req reqMirror Hi Hs Hq Hw Hqm Hwm).
  rewrite (Hf0 fuel Hle).
  destruct (bytes_eqb (body last) trailer) eqn:E; [|reflexivity].
  apply bytes_eqb_eq in E. contradiction.
Qed.

Lemma Send_rejects_wrong_trailer_witness :
  exists f0, forall fuel, (f0 <= fuel)%nat ->
    Send Wire.model fuel [x6c; x73] (rcon_server bad_trailer_reply) 5
    = Some (Err ErrInvalidResponseTrailer, rcon_server_after [x6c; x73], 7).
Proof.
  apply (Send_rejects_wrong_trailer Wire.model [x6c; x73]
           (rcon_server bad_trailer_reply) 5 6 7
           (mkRconSocket (Wire.peer bad_trailer_reply io_EOF))
           (mkRconSocket
              (mkConn (mkSource bad_trailer_reply io_EOF) [] None
                      [Wire.frame 5 2 [x6c; x73]] false))
           (mkRconSocket
              (mkConn (mkSource bad_trailer_reply io_EOF) [] None
                      [Wire.frame 5 2 [x6c; x73]; Wire.frame 6 0 []] false))
           (mkRconSocket
              (mkConn (mkSource [] io_EOF) [] None
                      [Wire.frame 5 2 [x6c; x73]; Wire.frame 6 0 []] false))
           (mkRconRequest 5 2 [x6c; x73]) (mkRconRequest 6 0 [])
           [mkRconResponse 0 5 [x61]]
           (mkRconResponse 0 6 []) (mkRconResponse 0 6 [x01])).
  - reflexivity.
  - reflexivity.
  - reflexivity.
  - reflexivity.
  - reflexivity.
  - reflexivity.
  - simpl. lia.
  - simpl.
    eapply (replies_cons _ _ _ _ 1%nat); [vm_compute; reflexivity | reflexivity |].
    eapply (replies_cons _ _ _ _ 1%nat); [vm_compute; reflexivity | reflexivity |].
    eapply (replies_cons _ _ _ _ 1%nat); [vm_compute; reflexivity | reflexivity |].
    apply replies_nil.
  - repeat constructor.
  - reflexivity.
  - reflexivity.
  - reflexivity.
  - simpl. discriminate.
Defined.

(** C7. While [rconInitialized] is false, [Send] fails with
    ErrRCONNotInitialized and leaves the facade as it was: nothing is
    written to or read from either socket, and no request id is drawn. *)
Theorem Send_before_authentication
  (fm : FrameModel) (fuel : nat) (cmd : list byte) (s : Server)
  (ids : idState fm) :
  rconInitialized s = false ->
  Send fm fuel cmd s ids = Some (Err ErrRCONNotInitialized, s, ids).
Proof.
  intros H. unfold Send. rewrite H. reflexivity.
Qed.

(** ** The RCON engine: [authenticate] *)

(** The check of the first reply: a frame of the wrong type and a frame
    of the wrong id both give ErrInvalidResponseID. *)
Lemma authenticate_first_reply_mismatch
  (fm : FrameModel) (fuel f : nat) (s : Server) (ids ids1 : idState fm)
  (rs rs1 rs2 : rconSocket) (req : rconRequest) (data : list byte)
  (resp : rconResponse) :
  newRCONRequest fm ids (rrtAuth fm) (rconPassword s) = (req, ids1) ->
  rsock s = Some rs ->
  rconSocket_send rs (rconRequest_marshalBinary fm req) = (None, rs1) ->
  receive f rs1 = Some (Ok data, rs2) ->
  (f <= fuel)%nat ->
  rconResponse_unmarshalBinary fm rconResponse_zero data = (None, resp) ->
  typ resp <> rrtRespValue fm \/ id resp <> req_id req ->
  authenticate fm fuel s ids
  = Some (Err ErrInvalidResponseID, set_rsock s (Some rs2), ids1).
Proof.
  intros Hq Hs Hw Hr Hle Hu Hbad. unfold authenticate.
  rewrite Hq, Hs, Hw, (receive_mono _ _ _ _ Hr Hle), Hu.
  destruct Hbad as [Ht | Hi].
  - apply Z.eqb_neq in Ht. rewrite Ht. reflexivity.
  - apply Z.eqb_neq in Hi. rewrite Hi, orb_true_r. reflexivity.
Qed.

(** C3. The code at the failing input: the first reply has the id of
    the AUTH request (5) and the type 2, which is not RESPONSE_VALUE;
    [authenticate] fails with ErrInvalidResponseID, where the
    specification has ErrInvalidResponseType. *)
Theorem authenticate_wrong_type_gives_InvalidResponseID :
  exists s' ids',
    authenticate Wire.model 1 (auth_server [Chunk (Wire.frame 5 2 []) None]) 5
    = Some (Err ErrInvalidResponseID, s', ids').
Proof.
  eexists. eexists. vm_compute. reflexivity.
Qed.

(** [authenticate] touches the RCON socket only. *)
Lemma set_rsock_set_rsock (s : Server) (a b : option rconSocket) :
  set_rsock (set_rsock s a) b = set_rsock s b.
Proof. reflexivity. Qed.

Lemma authenticate_frame (fm : FrameModel) (fuel : nat) (s s' : Server)
  (ids ids' : idState fm) (rs : rconSocket) (e : error) :
  rsock s = Some rs ->
  authenticate fm fuel s ids = Some (Err e, s', ids') ->
  exists rs', s' = set_rsock s (Some rs').
Proof.
  intros Hs H. unfold authenticate in H. rewrite Hs in H.
  repeat match type of H with
         | context [match ?x with _ => _ end] => destruct x eqn:?
         | context [if ?x then _ else _] => destruct x eqn:?
         | (let '(_, _) := ?x in _) = _ => destruct x eqn:?
         end;
    try discriminate H;
    injection H as <- <- <-;
    rewrite ?set_rsock_set_rsock; eexists; reflexivity.
Qed.

(** ** The facade: [Connect] *)

Section ConnectFailure.

Variable fm : FrameModel.
Variables (fuel : nat) (lat : list Z) (a : string) (os : list ConnectOptions).
Variable ids : idState fm.
Variable c : Conn.

Hypothesis addr_given : string_is_empty a = false.
Hypothesis password_given : bytes_is_empty (password os) = false.
Hypothesis udp_opened : effective_dial fm os "udp"%string a = Ok c.

(** [Connect] up to the call of [initRCON]. *)
Lemma Connect_reaches_initRCON :
  Connect fm fuel lat a os ids
  = match initRCON fm fuel (connecting fm a os (mkUdpSocket c lat)) ids with
    | None => None
    | Some (Panic v, s, ids') => Some (Panic v, s, ids')
    | Some (Err e, s, ids') =>
        match close_usock s with
        | (Panic v, s) => Some (Panic v, s, ids')
        | (_, s) => Some (Err e, s, ids')
        end
    | Some (Ok _, s, ids') => Some (Ok tt, s, ids')
    end.
Proof.
  unfold Connect, connecting.
  assert (Hinit : forall s0,
             addr s0 = a -> dial s0 = Some (effective_dial fm os) ->
             init lat s0 = (Ok tt, set_usock s0 (Some (mkUdpSocket c lat)))).
  { intros s0 Ha Hd. unfold init. rewrite Ha, addr_given, Hd. simpl.
    unfold newUDPSocket. rewrite udp_opened. reflexivity. }
  destruct os as [|o os']; simpl in *.
  - discriminate password_given.
  - destruct (Dial o) as [f|] eqn:Ed; simpl;
      rewrite Hinit by reflexivity; simpl; rewrite password_given;
      reflexivity.
Qed.

Lemma Connect_tcp_fails (e : error) :
  effective_dial fm os "tcp"%string a = Err e ->
  exists s',
    Connect fm fuel lat a os ids
    = Some (Err (fmt_Errorf "steam: could not open tcp socket (%v)" e), s', ids)
    /\ usock_closed s' /\ rsock s' = None /\ rconInitialized s' = false.
Proof.
  intros Ht. rewrite Connect_reaches_initRCON.
  unfold initRCON, connecting. simpl. rewrite addr_given.
  unfold newRCONSocket. rewrite Ht. simpl.
  eexists. split; [reflexivity|]. repeat split.
  exists (udpSocket_close (mkUdpSocket c lat)). split; reflexivity.
Qed.

Lemma Connect_authenticate_fails (c2 : Conn) (e : error) (s1 : Server)
  (ids1 : idState fm) :
  effective_dial fm os "tcp"%string a = Ok c2 ->
  authenticate fm fuel
    (set_rsock (connecting fm a os (mkUdpSocket c lat)) (Some (mkRconSocket c2))) ids
  = Some (Err e, s1, ids1) ->
  exists s',
    Connect fm fuel lat a os ids
    = Some (Err (fmt_Errorf "steam: could not authenticate (%v)" e), s', ids1)
    /\ usock_closed s' /\ rsock_closed s' /\ rconInitialized s' = false.
Proof.
  intros Ht Ha. rewrite Connect_reaches_initRCON.
  unfold initRCON. simpl. rewrite addr_given.
  unfold newRCONSocket. rewrite Ht. rewrite Ha.
  destruct (authenticate_frame fm fuel
              (set_rsock (connecting fm a os (mkUdpSocket c lat)) (Some (mkRconSocket c2)))
              s1 ids ids1 (mkRconSocket c2) e eq_refl Ha) as (rs' & ->).
  simpl. eexists. split; [reflexivity|]. repeat split.
  - exists (udpSocket_close (mkUdpSocket c lat)). split; reflexivity.
  - exists (rconSocket_close rs'). split; reflexivity.
Qed.

Lemma Connect_failure_closes_usock (e : error) (s' : Server)
  (ids' : idState fm) :
  Connect fm fuel lat a os ids = Some (Err e, s', ids') ->
  usock_closed s' /\ rconInitialized s' = false.
Proof.
  intros H.
  destruct (effective_dial fm os "tcp"%string a) as [c2|e2|v] eqn:Ht.
  - destruct (authenticate fm fuel
                (set_rsock (connecting fm a os (mkUdpSocket c lat)) (Some (mkRconSocket c2))) ids)
      as [[[[x|e1|v] s1] ids1]|] eqn:Ha.
    + rewrite Connect_reaches_initRCON in H. unfold initRCON in H.
      simpl in H. rewrite addr_given in H. unfold newRCONSocket in H.
      rewrite Ht, Ha in H. discriminate H.
    + destruct (Connect_authenticate_fails c2 e1 s1 ids1 Ht Ha)
        as (s2 & Hc & Hu & _ & Hi).
      rewrite Hc in H. injection H as _ <- _. auto.
    + rewrite Connect_reaches_initRCON in H. unfold initRCON in H.
      simpl in H. rewrite addr_given in H. unfold newRCONSocket in H.
      rewrite Ht, Ha in H. discriminate H.
    + rewrite Connect_reaches_initRCON in H. unfold initRCON in H.
      simpl in H. rewrite addr_given in H. unfold newRCONSocket in H.
      rewrite Ht, Ha in H. discriminate H.
  - destruct (Connect_tcp_fails e2 Ht) as (s2 & Hc & Hu & _ & Hi).
    rewrite Hc in H. injection H as _ <- _. auto.
  - rewrite Connect_reaches_initRCON in H. unfold initRCON in H.
    simpl in H. rewrite addr_given in H. unfold newRCONSocket in H.
    rewrite Ht in H. discriminate H.
Qed.

End ConnectFailure.

(** C8. With the query socket opened and a password supplied, a
    failure in the rest of the connect sequence closes the query socket
    before the error is returned: when the RCON socket cannot be
    opened, when [authenticate] fails, and for whatever error [Connect]
    returns.  After a failed [authenticate] the RCON socket is closed
    as well and [rconInitialized] is false. *)
Theorem Connect_closes_sockets_on_failure
  (fm : FrameModel) (fuel : nat) (lat : list Z) (a : string)
  (os : list ConnectOptions) (ids : idState fm) (c : Conn) :
  string_is_empty a = false ->
  bytes_is_empty (password os) = false ->
  effective_dial fm os "udp"%string a = Ok c ->
  (forall e,
      effective_dial fm os "tcp"%string a = Err e ->
      exists s',
        Connect fm fuel lat a os ids
        = Some (Err (fmt_Errorf "steam: could not open tcp socket (%v)" e),
                s', ids)
        /\ usock_closed s' /\ rsock s' = None /\ rconInitialized s' = false)
  /\ (forall c2 e s1 ids1,
         effective_dial fm os "tcp"%string a = Ok c2 ->
         authenticate fm fuel
           (set_rsock (connecting fm a os (mkUdpSocket c lat))
                      (Some (mkRconSocket c2))) ids
         = Some (Err e, s1, ids1) ->
         exists s',
           Connect fm fuel lat a os ids
           = Some (Err (fmt_Errorf "steam: could not authenticate (%v)" e),
                   s', ids1)
           /\ usock_closed s' /\ rsock_closed s' /\ rconInitialized s' = false)
  /\ (forall e s' ids',
         Connect fm fuel lat a os ids = Some (Err e, s', ids') ->
         usock_closed s' /\ rconInitialized s' = false).
Proof.
  intros Ha Hp Hu. split; [|split].
  - intros e. apply (Connect_tcp_fails fm fuel lat a os ids c Ha Hp Hu).
  - intros c2 e s1 ids1.
    apply (Connect_authenticate_fails fm fuel lat a os ids c Ha Hp Hu).
  - intros e s' ids'.
    apply (Connect_failure_closes_usock fm fuel lat a os ids c Ha Hp Hu).
Qed.

Lemma Connect_closes_sockets_on_failure_witness :
  exists s',
    Connect Wire.model 1 [] "example:27015" (with_password dial_wrong_password) 5
    = Some (Err (fmt_Errorf "steam: could not authenticate (%v)"
                            ErrRCONAuthFailed), s', 6)
    /\ usock_closed s' /\ rsock_closed s' /\ rconInitialized s' = false.
Proof.
  destruct (Connect_closes_sockets_on_failure Wire.model 1 []
              "example:27015" (with_password dial_wrong_password) 5
              (Wire.peer [] net_Timeout))
    as (_ & Hauth & _).
  - reflexivity.
  - reflexivity.
  - reflexivity.
  - eapply Hauth.
    + reflexivity.
    + vm_compute. reflexivity.
Defined.

(** ** The query engine: [Ping], [Info], [PlayersInfo] *)

Lemma udpSocket_send_ok (u u' : udpSocket) (p : list byte) (t : Z) :
  udpSocket_send u p = (None, u', t) ->
  requests u' = requests u ++ [p] /\ replies_left u' = replies_left u.
Proof.
  unfold udpSocket_send, Conn_Write, requests, replies_left. intros H.
  destruct (deadlineErr (uconn u)); [discriminate H|].
  destruct (writeErrs (uconn u)) as [|[e|] ws]; simpl in H;
    try discriminate H; injection H as <- _; simpl; auto.
Qed.

Lemma udpSocket_send_bound (u u' : udpSocket) (p : list byte)
  (err : option error) (t : Z) :
  udpSocket_send u p = (err, u', t) ->
  (length (requests u') <= length (requests u) + 1)%nat
  /\ replies_left u' = replies_left u.
Proof.
  unfold udpSocket_send, Conn_Write, requests, replies_left. intros H.
  destruct (deadlineErr (uconn u)); [injection H as _ <- _; lia|].
  destruct (writeErrs (uconn u)) as [|[e|] ws]; simpl in H;
    injection H as _ <- _; simpl; rewrite ?length_app; simpl; lia.
Qed.

Lemma udpSocket_receive_bound (n : nat) (u u' : udpSocket)
  (r : result (list byte)) (t : Z) :
  udpSocket_receive n u = (r, u', t) ->
  requests u' = requests u
  /\ (replies_left u <= replies_left u' + 1)%nat.
Proof.
  unfold udpSocket_receive, requests, replies_left. intros H.
  destruct (deadlineErr (uconn u));
    [injection H as _ <- _; split; [reflexivity | lia]|].
  destruct (pending (rd (uconn u))) as [|[bs e] rest] eqn:Ep; simpl in H.
  - injection H as _ <- _. simpl. rewrite Ep. simpl. split; [reflexivity | lia].
  - destruct e; injection H as _ <- _; simpl; split; try reflexivity; lia.
Qed.

(** C10. [Ping] drops the result of sending the request and goes on
    to receive: it returns the error of the receive when there is one,
    and otherwise the time from the reading of the clock before the
    send to the reading after the receive, whatever the datagram holds.
    So it returns an error exactly when the receive fails. *)
Theorem Ping_result_is_that_of_receive
  (fm : FrameModel) (now : Z) (s : Server) (u u1 u2 : udpSocket)
  (serr : option error) (r : result (list byte)) (t1 t2 : Z) :
  usock s = Some u ->
  udpSocket_send u (infoRequest_marshalBinary fm 0) = (serr, u1, t1) ->
  udpSocket_receive (udpBufferSize fm) u1 = (r, u2, t2) ->
  Ping fm now s
  = (match r with
     | Ok _ => Ok ((now + t1 + t2) - now)
     | Err e => Err e
     | Panic v => Panic v
     end, set_usock s (Some u2))
  /\ (is_Err (fst (Ping fm now s)) = true <-> is_Err r = true)
  /\ (forall data, r = Ok data -> fst (Ping fm now s) = Ok (t1 + t2)).
Proof.
  intros Hs Hw Hr.
  assert (HP : Ping fm now s
               = (match r with
                  | Ok _ => Ok ((now + t1 + t2) - now)
                  | Err e => Err e
                  | Panic v => Panic v
                  end, set_usock s (Some u2))).
  { unfold Ping. rewrite Hs, Hw, Hr. destruct r; reflexivity. }
  rewrite HP. split; [reflexivity|]. split.
  - destruct r; simpl; split; auto.
  - intros data ->. simpl. f_equal. lia.
Qed.

Lemma Ping_result_is_that_of_receive_witness :
  fst (Ping Wire.model 100 lossy_query_server) = Ok 10.
Proof.
  destruct (Ping_result_is_that_of_receive Wire.model 100 lossy_query_server
              lossy_query_socket
              (mkUdpSocket
                 (mkConn (mkSource [Chunk info_reply None] net_Timeout)
                         [] None [] false) [7])
              (mkUdpSocket
                 (mkConn (mkSource [] net_Timeout) [] None [] false) [])
              (Some (IOError (net_OpError "network is unreachable")))
              (Ok info_reply) 3 7)
    as (_ & _ & H).
  - reflexivity.
  - reflexivity.
  - reflexivity.
  - apply (H info_reply). reflexivity.
Defined.

Lemma udpSocket_send_count (u u' : udpSocket) (p : list byte)
  (err : option error) (t : Z) :
  udpSocket_send u p = (err, u', t) ->
  (length (requests u') <= length (requests u) + 1)%nat
  /\ (replies_left u <= replies_left u')%nat.
Proof.
  intros H. apply udpSocket_send_bound in H as [H1 H2]. rewrite H2. auto.
Qed.

Lemma udpSocket_receive_count (n : nat) (u u' : udpSocket)
  (r : result (list byte)) (t : Z) :
  udpSocket_receive n u = (r, u', t) ->
  (length (requests u') <= length (requests u))%nat
  /\ (replies_left u <= replies_left u' + 1)%nat.
Proof.
  intros H. apply udpSocket_receive_bound in H as [H1 H2]. rewrite H1. auto.
Qed.

(** Closes a branch of [Info] or [PlayersInfo]: the facade holds the
    socket reached through the calls recorded in the context. *)
Ltac count_round_trips :=
  simpl; eexists; split; [reflexivity|];
  repeat match goal with
         | H : udpSocket_send _ _ = _ |- _ =>
             apply udpSocket_send_count in H; destruct H
         | H : udpSocket_receive _ _ = _ |- _ =>
             apply udpSocket_receive_count in H; destruct H
         end;
  split; lia.

Ltac split_query_calls :=
  repeat match goal with
         | |- context [udpSocket_send ?u ?p] =>
             destruct (udpSocket_send u p) as [[[?|] ?] ?] eqn:?
         | |- context [udpSocket_receive ?n ?u] =>
             destruct (udpSocket_receive n u) as [[[?|?|?] ?] ?] eqn:?
         | |- context [if ?b then _ else _] => destruct b
         | |- context [match ?x with Ok _ => _ | Err _ => _ | Panic _ => _ end] =>
             destruct x
         end.

Section Challenge.

Variable fm : FrameModel.
Variables (s : Server) (u : udpSocket).
Hypothesis has_usock : usock s = Some u.

Lemma Info_direct (u1 u2 : udpSocket) (t1 t2 : Z) (data1 : list byte) :
  udpSocket_send u (infoRequest_marshalBinary fm 0) = (None, u1, t1) ->
  udpSocket_receive (udpBufferSize fm) u1 = (Ok data1, u2, t2) ->
  isChallengeResponse fm data1 = false ->
  Info fm s = (Info_parse fm data1, set_usock s (Some u2)).
Proof.
  intros Hw Hr Hc. unfold Info, Info_parse.
  rewrite has_usock, Hw, Hr, Hc.
  destruct (InfoResponse_unmarshalBinary fm data1); reflexivity.
Qed.

Lemma Info_challenged (u1 u2 u3 u4 : udpSocket) (t1 t2 t3 t4 : Z)
  (data1 data2 : list byte) (challenge : Z) :
  udpSocket_send u (infoRequest_marshalBinary fm 0) = (None, u1, t1) ->
  udpSocket_receive (udpBufferSize fm) u1 = (Ok data1, u2, t2) ->
  isChallengeResponse fm data1 = true ->
  ChallengeResponse_unmarshalBinary fm data1 = Ok challenge ->
  udpSocket_send u2 (infoRequest_marshalBinary fm challenge) = (None, u3, t3) ->
  udpSocket_receive (udpBufferSize fm) u3 = (Ok data2, u4, t4) ->
  Info fm s = (Info_parse fm data2, set_usock s (Some u4)).
Proof.
  intros Hw Hr Hc Hch Hw2 Hr2. unfold Info, Info_parse.
  rewrite has_usock, Hw, Hr, Hc, Hch, Hw2, Hr2.
  destruct (InfoResponse_unmarshalBinary fm data2); reflexivity.
Qed.

Lemma Info_at_most_two_round_trips :
  exists u',
    usock (snd (Info fm s)) = Some u'
    /\ (length (requests u') <= length (requests u) + 2)%nat
    /\ (replies_left u <= replies_left u' + 2)%nat.
Proof.
  unfold Info. rewrite has_usock. split_query_calls; count_round_trips.
Qed.

Lemma PlayersInfo_direct (u1 u2 : udpSocket) (t1 t2 : Z) (data1 : list byte) :
  udpSocket_send u (playersInfoRequest_marshalBinary fm 0) = (None, u1, t1) ->
  udpSocket_receive (udpBufferSize fm) u1 = (Ok data1, u2, t2) ->
  isChallengeResponse fm data1 = false ->
  PlayersInfo fm s
  = (PlayersInfoResponse_unmarshalBinary fm data1, set_usock s (Some u2)).
Proof.
  intros Hw Hr Hc. unfold PlayersInfo.
  rewrite has_usock, Hw, Hr, Hc.
  destruct (PlayersInfoResponse_unmarshalBinary fm data1); reflexivity.
Qed.

Lemma PlayersInfo_challenged (u1 u2 u3 u4 : udpSocket) (t1 t2 t3 t4 : Z)
  (data1 data2 : list byte) (challenge : Z) :
  udpSocket_send u (playersInfoRequest_marshalBinary fm 0) = (None, u1, t1) ->
  udpSocket_receive (udpBufferSize fm) u1 = (Ok data1, u2, t2) ->
  isChallengeResponse fm data1 = true ->
  ChallengeResponse_unmarshalBinary fm data1 = Ok challenge ->
  udpSocket_send u2 (playersInfoRequest_marshalBinary fm challenge)
  = (None, u3, t3) ->
  udpSocket_receive (udpBufferSize fm) u3 = (Ok data2, u4, t4) ->
  PlayersInfo fm s
  = (PlayersInfoResponse_unmarshalBinary fm data2, set_usock s (Some u4)).
Proof.
  intros Hw Hr Hc Hch Hw2 Hr2. unfold PlayersInfo.
  rewrite has_usock, Hw, Hr, Hc, Hch, Hw2, Hr2.
  destruct (PlayersInfoResponse_unmarshalBinary fm data2); reflexivity.
Qed.

Lemma PlayersInfo_at_most_two_round_trips :
  exists u',
    usock (snd (PlayersInfo fm s)) = Some u'
    /\ (length (requests u') <= length (requests u) + 2)%nat
    /\ (replies_left u <= replies_left u' + 2)%nat.
Proof.
  unfold PlayersInfo. rewrite has_usock. split_query_calls; count_round_trips.
Qed.

End Challenge.

Lemma udpSocket_receive_ok (n : nat) (u u' : udpSocket) (data : list byte)
  (t : Z) :
  udpSocket_receive n u = (Ok data, u', t) ->
  requests u' = requests u /\ replies_left u = S (replies_left u').
Proof.
  unfold udpSocket_receive, requests, replies_left. intros H.
  destruct (deadlineErr (uconn u)); [discriminate H|].
  destruct (pending (rd (uconn u))) as [|[bs e] rest] eqn:Ep; simpl in H;
    [discriminate H|].
  destruct e; [discriminate H|]. injection H as _ <- _. simpl. auto.
Qed.

Lemma challenge_exchange_intro (fm : FrameModel) (A : Type)
  (marshal : Z -> list byte) (call : Server -> result A * Server)
  (parse : list byte -> result A) (s : Server) (u : udpSocket) :
  (forall u1 u2 t1 t2 data1,
      udpSocket_send u (marshal 0) = (None, u1, t1) ->
      udpSocket_receive (udpBufferSize fm) u1 = (Ok data1, u2, t2) ->
      isChallengeResponse fm data1 = false ->
      call s = (parse data1, set_usock s (Some u2))) ->
  (forall u1 u2 u3 u4 t1 t2 t3 t4 data1 data2 challenge,
      udpSocket_send u (marshal 0) = (None, u1, t1) ->
      udpSocket_receive (udpBufferSize fm) u1 = (Ok data1, u2, t2) ->
      isChallengeResponse fm data1 = true ->
      ChallengeResponse_unmarshalBinary fm data1 = Ok challenge ->
      udpSocket_send u2 (marshal challenge) = (None, u3, t3) ->
      udpSocket_receive (udpBufferSize fm) u3 = (Ok data2, u4, t4) ->
      call s = (parse data2, set_usock s (Some u4))) ->
  (exists u',
      usock (snd (call s)) = Some u'
      /\ (length (requests u') <= length (requests u) + 2)%nat
      /\ (replies_left u <= replies_left u' + 2)%nat) ->
  challenge_exchange fm marshal call parse s u.
Proof.
  intros Hd Hc Hb. unfold challenge_exchange. split; [|split; [|exact Hb]].
  - intros u1 u2 t1 t2 data1 Hw Hr Hn. split; [eapply Hd; eauto|].
    apply udpSocket_send_ok in Hw as [Hw1 Hw2].
    apply udpSocket_receive_ok in Hr as [Hr1 Hr2].
    rewrite Hr1, Hw1, <- Hw2, Hr2. auto.
  - intros u1 u2 u3 u4 t1 t2 t3 t4 data1 data2 challenge Hw Hr Hy Hch Hw' Hr'.
    split; [eapply Hc; eauto|].
    apply udpSocket_send_ok in Hw as [Hw1 Hw2].
    apply udpSocket_receive_ok in Hr as [Hr1 Hr2].
    apply udpSocket_send_ok in Hw' as [Hw1' Hw2'].
    apply udpSocket_receive_ok in Hr' as [Hr1' Hr2'].
    rewrite Hr1', Hw1', Hr1, Hw1, <- app_assoc, <- Hw2, Hr2, <- Hw2', Hr2'.
    auto.
Qed.

(** C5. For [Info] and for [PlayersInfo]: a first reply that is not a
    challenge response is the one parsed, after a single round trip; a
    first reply that is a challenge response is followed by exactly one
    more request, which carries the challenge of that reply, and the
    second reply is the one parsed; no call makes a third round trip. *)
Theorem Info_and_PlayersInfo_challenge_once
  (fm : FrameModel) (s : Server) (u : udpSocket) :
  usock s = Some u ->
  challenge_exchange fm (infoRequest_marshalBinary fm) (Info fm)
                     (Info_parse fm) s u
  /\ challenge_exchange fm (playersInfoRequest_marshalBinary fm)
                        (PlayersInfo fm)
                        (PlayersInfoResponse_unmarshalBinary fm) s u.
Proof.
  intros Hs. split; apply challenge_exchange_intro.
  - intros. eapply Info_direct; eauto.
  - intros. eapply Info_challenged; eauto.
  - apply Info_at_most_two_round_trips, Hs.
  - intros. eapply PlayersInfo_direct; eauto.
  - intros. eapply PlayersInfo_challenged; eauto.
  - apply PlayersInfo_at_most_two_round_trips, Hs.
Qed.

Lemma Info_and_PlayersInfo_challenge_once_witness :
  (exists s',
      Info Wire.model (query_server (challenging_peer info_reply) [])
      = (Ok [x11; x68], s')
      /\ option_map requests (usock s')
         = Some [Wire.marshalQuery x54 0; Wire.marshalQuery x54 16909060])
  /\ (exists s',
         PlayersInfo Wire.model (query_server [Chunk players_reply None] [])
         = (Ok [x00], s')
         /\ option_map requests (usock s') = Some [Wire.marshalQuery x55 0]).
Proof.
  split.
  - destruct (Info_and_PlayersInfo_challenge_once Wire.model
                (query_server (challenging_peer info_reply) [])
                (mkUdpSocket (Wire.peer (challenging_peer info_reply) net_Timeout) []))
      as ((_ & Hc & _) & _); [reflexivity|].
    destruct (Hc (mkUdpSocket
                    (mkConn (mkSource (challenging_peer info_reply) net_Timeout)
                            [] None [Wire.marshalQuery x54 0] false) [])
                 (mkUdpSocket
                    (mkConn (mkSource [Chunk info_reply None] net_Timeout)
                            [] None [Wire.marshalQuery x54 0] false) [])
                 (mkUdpSocket
                    (mkConn (mkSource [Chunk info_reply None] net_Timeout)
                            [] None
                            [Wire.marshalQuery x54 0;
                             Wire.marshalQuery x54 16909060] false) [])
                 (mkUdpSocket
                    (mkConn (mkSource [] net_Timeout)
                            [] None
                            [Wire.marshalQuery x54 0;
                             Wire.marshalQuery x54 16909060] false) [])
                 0 0 0 0 challenge_reply info_reply 16909060)
      as (Hcall & Hreq & _); try reflexivity.
    eexists. split; [exact Hcall|]. simpl. rewrite Hreq. reflexivity.
  - destruct (Info_and_PlayersInfo_challenge_once Wire.model
                (query_server [Chunk players_reply None] [])
                (mkUdpSocket (Wire.peer [Chunk players_reply None] net_Timeout) []))
      as (_ & (Hd & _ & _)); [reflexivity|].
    destruct (Hd (mkUdpSocket
                    (mkConn (mkSource [Chunk players_reply None] net_Timeout)
                            [] None [Wire.marshalQuery x55 0] false) [])
                 (mkUdpSocket
                    (mkConn (mkSource [] net_Timeout)
                            [] None [Wire.marshalQuery x55 0] false) [])
                 0 0 players_reply)
      as (Hcall & Hreq & _); try reflexivity.
    eexists. split; [exact Hcall|]. simpl. rewrite Hreq. reflexivity.
Defined.

Lemma Send_before_authentication_witness :
  Send Wire.model 0 [x6c; x73] (auth_server []) 5
  = Some (Err ErrRCONNotInitialized, auth_server [], 5).
Proof.
  apply (Send_before_authentication Wire.model 0 [x6c; x73] (auth_server []) 5).
  reflexivity.
Defined.

(** * Further properties *)

(** ** The codec: reading across short reads, round trips *)

Lemma app_eq_firstn_skipn {A : Type} (l a b : list A) :
  l = a ++ b -> a = firstn (length a) l /\ b = skipn (length a) l.
Proof.
  intros ->. split.
  - rewrite firstn_app, firstn_all, Nat.sub_diag. simpl.
    now rewrite app_nil_r.
  - rewrite skipn_app, skipn_all, Nat.sub_diag. reflexivity.
Qed.

(** [n] bytes are read from a clean script that holds them, however
    they are split into chunks. *)
Lemma readAtLeast_clean (p : list chunk) (idl : ioErr) :
  forall (n : nat) (a b : list byte),
    clean p = true ->
    available p = a ++ b ->
    length a = n ->
    exists p',
      readAtLeast p idl n = (a, None, p')
      /\ clean p' = true /\ available p' = b.
Proof.
  induction p as [|[bs e] rest IH]; intros n a b Hc Ha Hn.
  - simpl in Ha. destruct a; [|discriminate Ha]. simpl in Ha, Hn. subst.
    exists []. auto.
  - simpl in Hc. destruct e as [x|]; [discriminate Hc|].
    destruct n as [|n].
    + destruct a; [|discriminate Hn]. simpl in Ha.
      exists (Chunk bs None :: rest). simpl. auto.
    + simpl in Ha. cbn [readAtLeast].
      destruct (app_eq_firstn_skipn _ _ _ Ha) as [Hfa Hsb]. rewrite Hn in *.
      destruct (S n <? length bs)%nat eqn:Elt.
      * apply Nat.ltb_lt in Elt.
        rewrite firstn_app in Hfa. rewrite skipn_app in Hsb.
        replace (S n - length bs)%nat with 0%nat in * by lia.
        simpl in Hfa, Hsb. rewrite app_nil_r in Hfa.
        exists (Chunk (skipn (S n) bs) None :: rest).
        rewrite Hfa, Hsb. simpl. auto.
      * apply Nat.ltb_ge in Elt.
        destruct (S n =? length bs)%nat eqn:Eeq.
        -- apply Nat.eqb_eq in Eeq.
           rewrite firstn_app in Hfa. rewrite skipn_app in Hsb.
           rewrite Eeq, firstn_all, skipn_all, Nat.sub_diag in *.
           simpl in Hfa, Hsb. rewrite app_nil_r in Hfa.
           exists rest. rewrite Hfa, Hsb. auto.
        -- apply Nat.eqb_neq in Eeq.
           rewrite firstn_app in Hfa. rewrite skipn_app in Hsb.
           rewrite firstn_all2 in Hfa by lia. rewrite skipn_all2 in Hsb by lia.
           simpl in Hsb.
           destruct (IH (S n - length bs)%nat
                        (firstn (S n - length bs) (available rest)) b Hc)
             as (p' & Hr & Hc' & Ha').
           { rewrite Hsb. now rewrite firstn_skipn. }
           { rewrite length_firstn. apply Nat.min_l.
             apply (f_equal (@length byte)) in Ha.
             rewrite !length_app in Ha. lia. }
           rewrite Hr. exists p'. rewrite Hfa. auto.
Qed.

Lemma io_ReadFull_clean (r : Reader) (n : nat) (a b : list byte) :
  Reader_clean r = true ->
  unread r = a ++ b ->
  length a = n ->
  exists r',
    io_ReadFull r n = (a, None, r')
    /\ Reader_clean r' = true /\ unread r' = b.
Proof.
  unfold Reader_clean, unread, io_ReadFull. intros Hc Ha Hn.
  destruct (readAtLeast_clean _ (idle (Reader_source r)) n a b Hc Ha Hn)
    as (p' & Hr & Hc' & Ha').
  rewrite Hr. destruct r as [s|s buf]; eexists; split; try reflexivity;
    simpl; auto.
Qed.

(** X1. [readBytes] returns the next [n] bytes of an error-free stream
    that holds at least [n], however the transport splits them into
    reads, and leaves the bytes after them unread. *)
Theorem readBytes_returns_next_bytes
  (r : Reader) (n : nat) (a b : list byte) :
  Reader_clean r = true ->
  unread r = a ++ b ->
  length a = n ->
  exists r',
    readBytes r n = (Ok a, r')
    /\ Reader_clean r' = true /\ unread r' = b.
Proof.
  intros Hc Ha Hn.
  destruct (io_ReadFull_clean r n a b Hc Ha Hn) as (r' & Hr & H).
  exists r'. unfold readBytes. rewrite Hr. simpl. auto.
Qed.

Lemma readBytes_returns_next_bytes_witness :
  exists r',
    readBytes (plainReader (mkSource [Chunk [x01] None; Chunk [] None;
                                      Chunk [x02; x03; x04] None] net_Timeout)) 3
    = (Ok [x01; x02; x03], r')
    /\ Reader_clean r' = true /\ unread r' = [x04].
Proof.
  apply (readBytes_returns_next_bytes
           (plainReader (mkSource [Chunk [x01] None; Chunk [] None;
                                   Chunk [x02; x03; x04] None] net_Timeout))
           3 [x01; x02; x03] [x04]); reflexivity.
Defined.

Lemma byteZ_byte_of_Z (z : Z) : byteZ (byte_of_Z z) = z mod 256.
Proof.
  unfold byteZ, byte_of_Z.
  assert (Hb : 0 <= z mod 256 < 256) by (apply Z.mod_pos_bound; lia).
  destruct (Byte.of_N (Z.to_N (z mod 256))) as [b|] eqn:E.
  - apply Byte.to_of_N in E. rewrite E. apply Z2N.id. lia.
  - apply Byte.of_N_None_iff in E. lia.
Qed.

Lemma lor_shiftl_add (a b n : Z) :
  0 <= n -> 0 <= a < 2 ^ n -> Z.lor a (Z.shiftl b n) = a + b * 2 ^ n.
Proof.
  intros Hn Ha.
  assert (Hland : Z.land a (Z.shiftl b n) = 0).
  { apply Z.bits_inj'. intros i Hi.
    rewrite Z.land_spec, Z.bits_0.
    destruct (Z.lt_ge_cases i n) as [Hlt | Hge].
    - rewrite Z.shiftl_spec_low by lia. apply andb_false_r.
    - rewrite <- (Z.mod_small a (2 ^ n)) by lia.
      rewrite Z.mod_pow2_bits_high by lia. reflexivity. }
  rewrite <- Z.lxor_lor by exact Hland.
  rewrite <- Z.add_nocarry_lxor by exact Hland.
  now rewrite Z.shiftl_mul_pow2 by lia.
Qed.

(** The four bytes [writeLong] appends decode to the value modulo 2^32. *)
Lemma uint32_of_le_le32 (v : Z) : uint32_of_le (le32 v) = v mod 2 ^ 32.
Proof.
  unfold uint32_of_le, le32. rewrite !byteZ_byte_of_Z.
  rewrite !Z.shiftr_div_pow2 by lia.
  assert (H0 : 0 <= v mod 256 < 256) by (apply Z.mod_pos_bound; lia).
  assert (H1 : 0 <= (v / 2 ^ 8) mod 256 < 256) by (apply Z.mod_pos_bound; lia).
  assert (H2 : 0 <= (v / 2 ^ 16) mod 256 < 256) by (apply Z.mod_pos_bound; lia).
  assert (H3 : 0 <= (v / 2 ^ 24) mod 256 < 256) by (apply Z.mod_pos_bound; lia).
  rewrite (lor_shiftl_add (v mod 256) _ 8) by lia.
  rewrite (lor_shiftl_add _ _ 16) by lia.
  rewrite (lor_shiftl_add _ _ 24) by lia.
  change (2 ^ 8) with 256 in *. change (2 ^ 16) with 65536 in *.
  change (2 ^ 24) with 16777216 in *. change (2 ^ 32) with 4294967296.
  clear H0 H1 H2 H3. Z.div_mod_to_equations. lia.
Qed.

Lemma int32_of_le_le32 (v : Z) :
  - 2 ^ 31 <= v < 2 ^ 31 -> int32_of_le (le32 v) = v.
Proof.
  intros Hv. unfold int32_of_le, int32_of_uint32. rewrite uint32_of_le_le32.
  change (2 ^ 31) with 2147483648 in *. change (2 ^ 32) with 4294967296.
  destruct (v mod 4294967296 <? 2147483648) eqn:E;
    [apply Z.ltb_lt in E | apply Z.ltb_ge in E];
    Z.div_mod_to_equations; lia.
Qed.

Lemma length_le32 (v : Z) : length (le32 v) = 4%nat.
Proof. reflexivity. Qed.

(** X2. What [writeLong] writes, [readLong] reads back: on an
    error-free stream that starts with the bytes written for an int32
    [v], [readLong] returns [v] and [readULong] returns the same bit
    pattern as an unsigned number, [v mod 2^32]; both leave the bytes
    that follow unread. *)
Theorem readLong_reads_back_writeLong (r : Reader) (v : Z) (rest : list byte) :
  - 2 ^ 31 <= v < 2 ^ 31 ->
  Reader_clean r = true ->
  unread r = writeLong [] v ++ rest ->
  (exists r',
      readLong r = (Ok v, r') /\ Reader_clean r' = true /\ unread r' = rest)
  /\ (exists r',
         readULong r = (Ok (v mod 2 ^ 32), r')
         /\ Reader_clean r' = true /\ unread r' = rest).
Proof.
  intros Hv Hc Hu. unfold writeLong in Hu. simpl app in Hu.
  destruct (io_ReadFull_clean r 4 (le32 v) rest Hc Hu (length_le32 v))
    as (r' & Hr & Hc' & Hu').
  split; exists r'.
  - unfold readLong, binary_Read4. rewrite Hr. cbn [must].
    rewrite int32_of_le_le32 by exact Hv. auto.
  - unfold readULong, binary_Read4. rewrite Hr. cbn [must].
    rewrite uint32_of_le_le32. auto.
Qed.

Lemma readLong_reads_back_writeLong_witness :
  (exists r',
      readLong (bytes_NewReader (writeLong [] (-2) ++ [x07])) = (Ok (-2), r')
      /\ Reader_clean r' = true /\ unread r' = [x07])
  /\ (exists r',
         readULong (bytes_NewReader (writeLong [] (-2) ++ [x07]))
         = (Ok ((-2) mod 2 ^ 32), r')
         /\ Reader_clean r' = true /\ unread r' = [x07]).
Proof.
  apply (readLong_reads_back_writeLong
           (bytes_NewReader (writeLong [] (-2) ++ [x07])) (-2) [x07]).
  - lia.
  - reflexivity.
  - reflexivity.
Defined.

(** X3. What [writeString] writes, [readString] reads back: on an
    error-free stream that starts with the bytes written for a string
    [v] without a zero byte, [readString] returns [v] and leaves the
    bytes after the terminator unread. *)
Theorem readString_reads_back_writeString
  (r : Reader) (v rest : list byte) (fuel : nat) :
  ~ In x00 v ->
  Reader_clean r = true ->
  unread r = writeString [] v ++ rest ->
  (length v < fuel)%nat ->
  exists r',
    readString fuel r = Some (Ok v, r')
    /\ Reader_clean r' = true /\ unread r' = rest.
Proof.
  intros Hnz Hc Hu Hf. unfold writeString in Hu. simpl in Hu.
  rewrite <- app_assoc in Hu. simpl in Hu.
  destruct (readString_loop_spec v rest Hnz fuel r [] Hc Hu Hf)
    as (r' & Hl & H).
  exists r'. split; [exact Hl | exact H].
Qed.

Lemma readString_reads_back_writeString_witness :
  exists r',
    readString 3 (bytes_NewReader (writeString [] [x6d; x61] ++ [x09]))
    = Some (Ok [x6d; x61], r')
    /\ Reader_clean r' = true /\ unread r' = [x09].
Proof.
  apply (readString_reads_back_writeString
           (bytes_NewReader (writeString [] [x6d; x61] ++ [x09]))
           [x6d; x61] [x09] 3).
  - simpl. intros [H | [H | H]]; [discriminate H | discriminate H | exact H].
  - reflexivity.
  - reflexivity.
  - simpl. lia.
Defined.

Lemma readAtLeast_exhausted (p : list chunk) (idl : ioErr) :
  clean p = true ->
  available p = [] ->
  readAtLeast p idl 1 = ([], Some idl, []).
Proof.
  induction p as [|[bs e] rest IH]; simpl; intros Hc Ha; [reflexivity|].
  destruct e; [discriminate Hc|].
  apply app_eq_nil in Ha as [-> Ha]. simpl. now rewrite IH.
Qed.

Lemma readString_loop_unterminated (v : list byte) :
  ~ In x00 v ->
  forall (fuel : nat) (r : Reader) (buf : list byte),
    Reader_clean r = true ->
    unread r = v ->
    (length v < fuel)%nat ->
    exists e r', readString_loop fuel r buf = Some (Panic e, r').
Proof.
  induction v as [|b v IH]; intros Hnz fuel r buf Hc Hu Hf;
    (destruct fuel as [|fuel]; [simpl in Hf; lia|]).
  - cbn [readString_loop]. unfold io_ReadFull.
    unfold Reader_clean, unread in Hc, Hu.
    rewrite (readAtLeast_exhausted _ _ Hc Hu).
    destruct (idle (Reader_source r)), r; simpl; eexists; eexists; reflexivity.
  - destruct (io_ReadFull_one r b v Hc Hu) as (r' & Hr & Hc' & Hu').
    assert (Hb : Byte.eqb b x00 = false).
    { destruct (Byte.eqb b x00) eqn:E; [|reflexivity].
      apply Byte.byte_dec_bl in E. subst b. exfalso. apply Hnz. now left. }
    destruct (IH (fun H => Hnz (or_intror H)) fuel r' (buf ++ [b]) Hc' Hu')
      as (e & r'' & Hl); [simpl in Hf; lia|].
    cbn [readString_loop]. rewrite Hr. cbn [must hd]. rewrite Hb.
    exists e, r''. exact Hl.
Qed.

(** X4. [readString] does not return a string it found no terminator
    for: on an error-free stream that ends, or stalls, before any zero
    byte, the call panics with the value [must] gives the failed read. *)
Theorem readString_without_terminator_panics
  (r : Reader) (fuel : nat) :
  Reader_clean r = true ->
  ~ In x00 (unread r) ->
  (length (unread r) < fuel)%nat ->
  exists e r', readString fuel r = Some (Panic e, r').
Proof.
  intros Hc Hnz Hf.
  apply (readString_loop_unterminated (unread r) Hnz fuel r [] Hc eq_refl Hf).
Qed.

Lemma readString_without_terminator_panics_witness :
  exists e r',
    readString 3 (bytes_NewReader [x6d; x61]) = Some (Panic e, r').
Proof.
  apply (readString_without_terminator_panics (bytes_NewReader [x6d; x61]) 3).
  - reflexivity.
  - simpl. intros [H | [H | H]]; [discriminate H | discriminate H | exact H].
  - simpl. lia.
Defined.

(** ** The RCON socket: what [receive] returns *)

(** Reading [a] off the head of the first chunk. *)
Lemma readAtLeast_head (a x : list byte) (rest : list chunk) (idl : ioErr) :
  a <> [] ->
  readAtLeast (Chunk (a ++ x) None :: rest) idl (length a)
  = (a, None, match x with [] => rest | _ => Chunk x None :: rest end).
Proof.
  intros Ha. destruct (length a) as [|n] eqn:En.
  - destruct a; [contradiction | discriminate En].
  - cbn [readAtLeast]. rewrite <- En. rewrite length_app.
    destruct x as [|b x].
    + simpl. rewrite Nat.add_0_r, Nat.ltb_irrefl, Nat.eqb_refl, app_nil_r.
      reflexivity.
    + replace (length a <? length a + length (b :: x))%nat with true
        by (symmetry; apply Nat.ltb_lt; simpl; lia).
      rewrite firstn_app, firstn_all, Nat.sub_diag, skipn_app, skipn_all,
        Nat.sub_diag. simpl. rewrite app_nil_r. reflexivity.
Qed.

(** The length prefix at the head of the first chunk is read into the
    buffer of the tee. *)
Lemma readLong_prefix (c : Conn) (total : Z) (x : list byte)
  (rest : list chunk) :
  - 2 ^ 31 <= total < 2 ^ 31 ->
  pending (rd c) = Chunk (writeLong [] total ++ x) None :: rest ->
  readLong (teeReader (rd c) [])
  = (Ok total,
     teeReader
       (mkSource match x with [] => rest | _ => Chunk x None :: rest end
                 (idle (rd c)))
       (le32 total)).
Proof.
  intros Hv Hp. unfold readLong, binary_Read4, io_ReadFull.
  cbn [Reader_source]. rewrite Hp. unfold writeLong. cbn [app].
  change (readAtLeast (Chunk (le32 total ++ x) None :: rest) (idle (rd c)) 4)
    with (readAtLeast (Chunk (le32 total ++ x) None :: rest) (idle (rd c))
                      (length (le32 total))).
  rewrite readAtLeast_head by discriminate.
  cbn [must app]. rewrite int32_of_le_le32 by exact Hv. reflexivity.
Qed.

Lemma Conn_Read_head (c : Conn) (a x : list byte) (rest : list chunk) :
  pending (rd c) = match a ++ x with [] => rest | _ => Chunk (a ++ x) None :: rest end ->
  a <> [] ->
  Conn_Read c (length a)
  = (a, None,
     Conn_set_rd c
       (mkSource match x with [] => rest | _ => Chunk x None :: rest end
                 (idle (rd c)))).
Proof.
  intros Hp Ha. unfold Conn_Read, source_Read. rewrite Hp.
  destruct a as [|a0 a]; [contradiction|]. cbn [app].
  change (a0 :: a ++ x) with ((a0 :: a) ++ x). rewrite length_app.
  destruct x as [|b x].
  - rewrite Nat.add_0_r, Nat.ltb_irrefl, app_nil_r. reflexivity.
  - replace (length (a0 :: a) <? length (a0 :: a) + length (b :: x))%nat
      with true by (symmetry; apply Nat.ltb_lt; simpl; lia).
    rewrite firstn_app, firstn_all, Nat.sub_diag, skipn_app, skipn_all,
      Nat.sub_diag. simpl. rewrite app_nil_r. reflexivity.
Qed.

Lemma available_head (x : list byte) (rest : list chunk) :
  available match x with [] => rest | _ => Chunk x None :: rest end
  = x ++ available rest.
Proof. destruct x; reflexivity. Qed.

(** X5. A frame that one read delivers whole, alone or with the bytes
    that follow it on the stream, is returned exactly, length prefix
    first; the bytes that follow stay on the connection. *)
Theorem receive_returns_frame_read_at_once
  (s : rconSocket) (total : Z) (payload more : list byte)
  (rest : list chunk) (fuel : nat) :
  0 < total < 2 ^ 31 ->
  Z.of_nat (length payload) = total ->
  deadlineErr (conn s) = None ->
  pending (rd (conn s))
  = Chunk (writeLong [] total ++ payload ++ more) None :: rest ->
  (1 <= fuel)%nat ->
  exists s',
    receive fuel s = Some (Ok (writeLong [] total ++ payload), s')
    /\ available (pending (rd (conn s'))) = more ++ available rest.
Proof.
  intros Ht Hl Hd Hp Hf. unfold receive.
  rewrite (readLong_prefix (conn s) total (payload ++ more) rest) by (lia || exact Hp).
  cbn [Reader_source].
  destruct fuel as [|fuel]; [lia|]. cbn [receive_loop].
  replace (total <=? 0) with false by (symmetry; apply Z.leb_gt; lia).
  rewrite Conn_set_rd_deadlineErr, Hd.
  assert (Hne : payload <> []) by (intros ->; simpl in Hl; lia).
  replace (Z.to_nat total) with (length payload) by lia.
  rewrite (Conn_Read_head _ payload more rest); [|reflexivity|exact Hne].
  replace (0 <? length payload)%nat with true
    by (symmetry; apply Nat.ltb_lt; destruct payload; [contradiction|simpl; lia]).
  rewrite Nat.sub_diag. cbn [repeat]. rewrite app_nil_r.
  replace (total - Z.of_nat (length payload)) with 0 by lia.
  eexists. split.
  - destruct fuel; reflexivity.
  - cbn. apply available_head.
Qed.

Lemma receive_returns_frame_read_at_once_witness :
  exists s',
    receive 1 (mkRconSocket
                 (Wire.peer [Chunk (writeLong [] 2 ++ [x41; x42] ++ [x0a]) None]
                            io_EOF))
    = Some (Ok (writeLong [] 2 ++ [x41; x42]), s')
    /\ available (pending (rd (conn s'))) = [x0a] ++ available [].
Proof.
  apply (receive_returns_frame_read_at_once
           (mkRconSocket
              (Wire.peer [Chunk (writeLong [] 2 ++ [x41; x42] ++ [x0a]) None]
                         io_EOF))
           2 [x41; x42] [x0a] [] 1).
  - lia.
  - reflexivity.
  - reflexivity.
  - reflexivity.
  - lia.
Defined.

(** X6. A payload that arrives in two reads: the first read appends
    its whole buffer, so the result holds the first part, as many zero
    bytes as the second part is long, and then the second part. *)
Theorem receive_pads_payload_read_in_two
  (s : rconSocket) (total : Z) (p1 p2 : list byte)
  (rest : list chunk) (fuel : nat) :
  p1 <> [] -> p2 <> [] ->
  total < 2 ^ 31 ->
  Z.of_nat (length p1 + length p2) = total ->
  deadlineErr (conn s) = None ->
  pending (rd (conn s))
  = Chunk (writeLong [] total ++ p1) None :: Chunk p2 None :: rest ->
  (2 <= fuel)%nat ->
  exists s',
    receive fuel s
    = Some (Ok (writeLong [] total ++ p1 ++ repeat x00 (length p2) ++ p2), s')
    /\ pending (rd (conn s')) = rest.
Proof.
  intros H1 H2 Ht Hl Hd Hp Hf. unfold receive.
  assert (Hl1 : (0 < length p1)%nat) by (destruct p1; [contradiction|simpl; lia]).
  assert (Hl2 : (0 < length p2)%nat) by (destruct p2; [contradiction|simpl; lia]).
  rewrite (readLong_prefix (conn s) total p1 (Chunk p2 None :: rest))
    by (lia || exact Hp).
  cbn [Reader_source].
  destruct fuel as [|[|fuel]]; try lia. cbn [receive_loop].
  replace (total <=? 0) with false by (symmetry; apply Z.leb_gt; lia).
  rewrite Conn_set_rd_deadlineErr, Hd.
  unfold Conn_Read at 1. unfold source_Read. cbn [pending rd Conn_set_rd idle].
  destruct p1 as [|a p1]; [contradiction|].
  replace (Z.to_nat total <? length (a :: p1))%nat with false
    by (symmetry; apply Nat.ltb_ge; lia).
  replace (0 <? length (a :: p1))%nat with true
    by (symmetry; apply Nat.ltb_lt; exact Hl1).
  replace (total - Z.of_nat (length (a :: p1)) <=? 0) with false
    by (symmetry; apply Z.leb_gt; lia).
  unfold Conn_Read, source_Read. cbn [pending rd Conn_set_rd idle deadlineErr].
  rewrite Hd.
  replace (Z.to_nat (total - Z.of_nat (length (a :: p1)))) with (length p2) by lia.
  rewrite Nat.ltb_irrefl.
  replace (0 <? length p2)%nat with true
    by (symmetry; apply Nat.ltb_lt; exact Hl2).
  replace (Z.to_nat total - length (a :: p1))%nat with (length p2) by lia.
  rewrite Nat.sub_diag. cbn [repeat]. rewrite app_nil_r.
  replace (total - Z.of_nat (length (a :: p1)) - Z.of_nat (length p2))
    with 0 by lia.
  eexists. split.
  - destruct fuel; cbn [receive_loop Z.leb Z.compare];
      unfold writeLong; rewrite <- !app_assoc; reflexivity.
  - reflexivity.
Qed.

Lemma receive_pads_payload_read_in_two_witness :
  exists s',
    receive 2 (mkRconSocket
                 (Wire.peer [Chunk (writeLong [] 3 ++ [x41]) None;
                             Chunk [x42; x43] None] io_EOF))
    = Some (Ok (writeLong [] 3 ++ [x41] ++ repeat x00 2 ++ [x42; x43]), s')
    /\ pending (rd (conn s')) = [].
Proof.
  apply (receive_pads_payload_read_in_two
           (mkRconSocket
              (Wire.peer [Chunk (writeLong [] 3 ++ [x41]) None;
                          Chunk [x42; x43] None] io_EOF))
           3 [x41] [x42; x43] [] 2).
  - discriminate.
  - discriminate.
  - lia.
  - reflexivity.
  - reflexivity.
  - reflexivity.
  - lia.
Defined.

(** X7. A length prefix that is zero or negative ends [receive] at
    once: the four prefix bytes are the result, whatever the fuel, and
    nothing after them is read. *)
Theorem receive_nonpositive_length
  (s : rconSocket) (total : Z) (x : list byte) (rest : list chunk)
  (fuel : nat) :
  - 2 ^ 31 <= total <= 0 ->
  pending (rd (conn s)) = Chunk (writeLong [] total ++ x) None :: rest ->
  exists s',
    receive fuel s = Some (Ok (writeLong [] total), s')
    /\ available (pending (rd (conn s'))) = x ++ available rest.
Proof.
  intros Ht Hp. unfold receive.
  rewrite (readLong_prefix (conn s) total x rest) by (lia || exact Hp).
  cbn [Reader_source].
  assert (E : (total <=? 0) = true) by (apply Z.leb_le; lia).
  eexists. split.
  - destruct fuel; cbn [receive_loop]; rewrite E; reflexivity.
  - cbn. apply available_head.
Qed.

Lemma receive_nonpositive_length_witness :
  exists s',
    receive 0 (mkRconSocket
                 (Wire.peer [Chunk (writeLong [] (-1) ++ [x41]) None] io_EOF))
    = Some (Ok (writeLong [] (-1)), s')
    /\ available (pending (rd (conn s'))) = [x41] ++ available [].
Proof.
  apply (receive_nonpositive_length
           (mkRconSocket
              (Wire.peer [Chunk (writeLong [] (-1) ++ [x41]) None] io_EOF))
           (-1) [x41] [] 0).
  - lia.
  - reflexivity.
Defined.

Lemma readAtLeast_short (p : list chunk) (idl : ioErr) :
  forall n : nat,
    clean p = true ->
    (length (available p) < n)%nat ->
    exists got p', readAtLeast p idl n = (got, Some idl, p').
Proof.
  induction p as [|[bs e] rest IH]; intros n Hc Hl.
  - destruct n; [simpl in Hl; lia|]. simpl. eauto.
  - simpl in Hc. destruct e; [discriminate Hc|].
    simpl in Hl. rewrite length_app in Hl.
    destruct n as [|n]; [lia|]. cbn [readAtLeast].
    replace (S n <? length bs)%nat with false
      by (symmetry; apply Nat.ltb_ge; lia).
    replace (S n =? length bs)%nat with false
      by (symmetry; apply Nat.eqb_neq; lia).
    destruct (IH (S n - length bs)%nat Hc) as (got & p' & Hr); [lia|].
    rewrite Hr. eauto.
Qed.

(** X8. When the peer closes the stream before the four bytes of the
    length prefix have arrived (the read of the prefix meets [io.EOF]),
    the panic of the prefix read is recovered: [receive] returns an
    error, whatever the fuel, and does not enter the payload loop. *)
Theorem receive_short_prefix_is_an_error (s : rconSocket) (fuel : nat) :
  clean (pending (rd (conn s))) = true ->
  (length (available (pending (rd (conn s)))) < 4)%nat ->
  idle (rd (conn s)) = io_EOF ->
  exists e s', receive fuel s = Some (Err e, s').
Proof.
  intros Hc Hl Hi. unfold receive, readLong, binary_Read4, io_ReadFull.
  cbn [Reader_source].
  destruct (readAtLeast_short _ (idle (rd (conn s))) 4%nat Hc Hl)
    as (got & p' & Hr).
  rewrite Hr, Hi.
  destruct (0 <? length got)%nat; cbn [must]; eexists; eexists; reflexivity.
Qed.

Lemma receive_short_prefix_is_an_error_witness :
  exists e s',
    receive 0 (mkRconSocket (Wire.peer [Chunk [x0a; x00] None] io_EOF))
    = Some (Err e, s').
Proof.
  apply (receive_short_prefix_is_an_error
           (mkRconSocket (Wire.peer [Chunk [x0a; x00] None] io_EOF)) 0).
  - reflexivity.
  - simpl. lia.
  - reflexivity.
Defined.

(** ** The RCON engine: how [Send] fails *)

Section SendFailures.

Variable fm : FrameModel.
Variables reqID mirrorID : Z.
Hypothesis ids_differ : reqID <> mirrorID.

Lemma Send_loop_wrong_type (fuel f : nat) (rs rs1 : rconSocket)
  (data buf : list byte) (r : rconResponse) (saw : bool) :
  receive f rs = Some (Ok data, rs1) ->
  rconResponse_unmarshalBinary fm rconResponse_zero data = (None, r) ->
  typ r <> rrtRespValue fm ->
  (f <= S fuel)%nat ->
  Send_loop fm (S fuel) reqID mirrorID rs buf saw
  = Some (Err ErrInvalidResponseType, rs1).
Proof.
  intros Hr Hu Ht Hle. cbn [Send_loop].
  rewrite (receive_mono _ _ _ _ Hr Hle), Hu.
  apply Z.eqb_neq in Ht. rewrite Ht. reflexivity.
Qed.

Lemma Send_loop_unknown_id (fuel f : nat) (rs rs1 : rconSocket)
  (data buf : list byte) (r : rconResponse) :
  receive f rs = Some (Ok data, rs1) ->
  rconResponse_unmarshalBinary fm rconResponse_zero data = (None, r) ->
  typ r = rrtRespValue fm ->
  id r <> mirrorID ->
  id r <> reqID ->
  (f <= S fuel)%nat ->
  Send_loop fm (S fuel) reqID mirrorID rs buf false
  = Some (Err ErrInvalidResponseID, rs1).
Proof.
  intros Hr Hu Ht Hm Hq Hle. cbn [Send_loop].
  rewrite (receive_mono _ _ _ _ Hr Hle), Hu, Ht, Z.eqb_refl.
  apply Z.eqb_neq in Hm. rewrite Hm.
  assert (Hq' : (reqID =? id r) = false) by (apply Z.eqb_neq; congruence).
  rewrite Hq'. reflexivity.
Qed.

Lemma Send_loop_receive_error (fuel f : nat) (rs rs1 : rconSocket)
  (buf : list byte) (e : error) (saw : bool) :
  receive f rs = Some (Err e, rs1) ->
  (f <= S fuel)%nat ->
  Send_loop fm (S fuel) reqID mirrorID rs buf saw
  = Some (Err (fmt_Errorf "steam: receiving rcon response (%v)" e), rs1).
Proof.
  intros Hr Hle. cbn [Send_loop].
  rewrite (receive_mono _ _ _ _ Hr Hle). reflexivity.
Qed.

Lemma Send_loop_decode_error (fuel f : nat) (rs rs1 : rconSocket)
  (data buf : list byte) (e : error) (r : rconResponse) (saw : bool) :
  receive f rs = Some (Ok data, rs1) ->
  rconResponse_unmarshalBinary fm rconResponse_zero data = (Some e, r) ->
  (f <= S fuel)%nat ->
  Send_loop fm (S fuel) reqID mirrorID rs buf saw
  = Some (Err (fmt_Errorf "steam: decoding response (%v)" e), rs1).
Proof.
  intros Hr Hu Hle. cbn [Send_loop].
  rewrite (receive_mono _ _ _ _ Hr Hle), Hu. reflexivity.
Qed.

(** The loop takes the fragments, and the mirror frame when there is
    one, and goes on from the socket they leave. *)
Lemma Send_loop_takes_frames (fragments : list rconResponse)
  (mirror : rconResponse) (saw : bool) (rs rsm : rconSocket) res :
  replies fm rs (frames_taken fragments mirror saw) rsm ->
  Forall (fun r => typ r = rrtRespValue fm /\ id r = reqID) fragments ->
  (saw = true -> typ mirror = rrtRespValue fm /\ id mirror = mirrorID) ->
  (exists f1, forall fuel, (f1 <= fuel)%nat ->
     Send_loop fm fuel reqID mirrorID rsm (concat (map body fragments)) saw
     = Some res) ->
  exists f0, forall fuel, (f0 <= fuel)%nat ->
    Send_loop fm fuel reqID mirrorID rs [] false = Some res.
Proof.
  intros Hrep Hall Hm (f1 & Hf1). unfold frames_taken in Hrep.
  apply (Send_loop_fragments fm reqID mirrorID ids_differ fragments rs rsm []
           (if saw then [mirror] else []) res Hrep Hall).
  intros rs0 H0. cbn [app]. destruct saw.
  - destruct (replies_cons_inv fm _ _ _ _ H0) as (f & d & rs1 & Hr & Hu & Hn).
    apply replies_nil_inv in Hn. rewrite Hn in *.
    destruct (Hm eq_refl) as [Ht Hi].
    exists (S (Nat.max f f1)). intros fuel Hle.
    destruct fuel as [|fuel]; [lia|].
    rewrite (Send_loop_mirror fm reqID mirrorID fuel f rs0 rs1 d _ mirror
               Hr Hu Ht Hi) by lia.
    apply Hf1. lia.
  - apply replies_nil_inv in H0. rewrite H0 in *.
    exists f1. exact Hf1.
Qed.

End SendFailures.

(** [Send] returns what its loop returns. *)
Lemma Send_result_of_loop (fm : FrameModel) (cmd : list byte) (s : Server)
  (ids ids2 : idState fm) (req reqMirror : rconRequest)
  (rs2 rs' : rconSocket) (r : result (list byte)) :
  requests_written fm cmd s ids req reqMirror ids2 rs2 ->
  (exists f0, forall fuel, (f0 <= fuel)%nat ->
     Send_loop fm fuel (req_id req) (req_id reqMirror) rs2 [] false
     = Some (r, rs')) ->
  exists f0, forall fuel, (f0 <= fuel)%nat ->
    Send fm fuel cmd s ids = Some (r, set_rsock s (Some rs'), ids2).
Proof.
  intros (Hi & rs & rs1 & ids1 & Hs & Hq & Hw & Hqm & Hwm) (f0 & Hf0).
  exists f0. intros fuel Hle.
  rewrite (Send_reaches_loop fm fuel cmd s ids ids1 ids2 rs rs1 rs2
             req reqMirror Hi Hs Hq Hw Hqm Hwm).
  rewrite (Hf0 fuel Hle). reflexivity.
Qed.

Lemma replies_app_inv (fm : FrameModel) (l1 l2 : list rconResponse) :
  forall rs rs',
    replies fm rs (l1 ++ l2) rs' ->
    exists rsm, replies fm rs l1 rsm /\ replies fm rsm l2 rs'.
Proof.
  induction l1 as [|r l1 IH]; intros rs rs' H.
  - exists rs. split; [constructor | exact H].
  - destruct (replies_cons_inv fm _ _ _ _ H) as (f & d & rs1 & Hr & Hu & Hn).
    destruct (IH rs1 rs' Hn) as (rsm & H1 & H2).
    exists rsm. split; [|exact H2].
    exact (replies_cons fm rs rs1 rsm f d r l1 Hr Hu H1).
Qed.

(** X9. A reply frame whose type is not RESPONSE_VALUE makes [Send]
    fail with ErrInvalidResponseType wherever it comes: among the
    fragments, or after the mirror frame, where the type is checked
    before the trailer is looked at.  No output is returned. *)
Theorem Send_rejects_frame_of_wrong_type
  (fm : FrameModel) (cmd : list byte) (s : Server) (ids ids2 : idState fm)
  (req reqMirror : rconRequest) (rs2 rs' : rconSocket)
  (fragments : list rconResponse) (mirror bad : rconResponse)
  (sawMirror : bool) :
  requests_written fm cmd s ids req reqMirror ids2 rs2 ->
  req_id req <> req_id reqMirror ->
  replies fm rs2 (frames_taken fragments mirror sawMirror ++ [bad]) rs' ->
  Forall (fun r => typ r = rrtRespValue fm /\ id r = req_id req) fragments ->
  (sawMirror = true ->
   typ mirror = rrtRespValue fm /\ id mirror = req_id reqMirror) ->
  typ bad <> rrtRespValue fm ->
  exists f0, forall fuel, (f0 <= fuel)%nat ->
    Send fm fuel cmd s ids
    = Some (Err ErrInvalidResponseType, set_rsock s (Some rs'), ids2).
Proof.
  intros Hw Hne Hrep Hall Hm Hbad.
  destruct (replies_app_inv fm _ _ _ _ Hrep) as (rsm & H1 & H2).
  destruct (replies_cons_inv fm _ _ _ _ H2) as (f & d & rs1 & Hr & Hu & Hn).
  apply replies_nil_inv in Hn. rewrite Hn in *.
  apply (Send_result_of_loop fm cmd s ids ids2 req reqMirror rs2 rs1 _ Hw).
  apply (Send_loop_takes_frames fm _ _ Hne fragments mirror sawMirror rs2 rsm
           _ H1 Hall Hm).
  exists (S f). intros fuel Hle. destruct fuel as [|fuel]; [lia|].
  apply (Send_loop_wrong_type fm _ _ fuel f rsm rs1 d _ bad _ Hr Hu Hbad). lia.
Qed.

Lemma Send_rejects_frame_of_wrong_type_witness :
  exists f0, forall fuel, (f0 <= fuel)%nat ->
    Send Wire.model fuel [x6c; x73]
         (rcon_server [Chunk (Wire.frame 5 0 [x61]) None;
                       Chunk (Wire.frame 6 0 []) None;
                       Chunk (Wire.frame 6 2 []) None]) 5
    = Some (Err ErrInvalidResponseType,
            set_rsock (rcon_server [Chunk (Wire.frame 5 0 [x61]) None;
                                    Chunk (Wire.frame 6 0 []) None;
                                    Chunk (Wire.frame 6 2 []) None])
                      (rsock (rcon_server_left [x6c; x73] [])), 7).
Proof.
  apply (Send_rejects_frame_of_wrong_type Wire.model [x6c; x73] _ 5 7
           (mkRconRequest 5 2 [x6c; x73]) (mkRconRequest 6 0 [])
           (mkRconSocket
              (mkConn (mkSource [Chunk (Wire.frame 5 0 [x61]) None;
                                 Chunk (Wire.frame 6 0 []) None;
                                 Chunk (Wire.frame 6 2 []) None] io_EOF)
                      [] None [Wire.frame 5 2 [x6c; x73]; Wire.frame 6 0 []]
                      false))
           (mkRconSocket
              (mkConn (mkSource [] io_EOF) [] None
                      [Wire.frame 5 2 [x6c; x73]; Wire.frame 6 0 []] false))
           [mkRconResponse 0 5 [x61]] (mkRconResponse 0 6 [])
           (mkRconResponse 2 6 []) true).
  - split; [reflexivity|]. do 3 eexists. repeat split; reflexivity.
  - simpl. lia.
  - simpl.
    eapply (replies_cons _ _ _ _ 1%nat); [vm_compute; reflexivity | reflexivity |].
    eapply (replies_cons _ _ _ _ 1%nat); [vm_compute; reflexivity | reflexivity |].
    eapply (replies_cons _ _ _ _ 1%nat); [vm_compute; reflexivity | reflexivity |].
    apply replies_nil.
  - repeat constructor.
  - intros _. split; reflexivity.
  - simpl. lia.
Defined.

(** X10. Before the mirror frame, a RESPONSE_VALUE frame whose id is
    neither that of the command request nor that of the mirror request
    makes [Send] fail with ErrInvalidResponseID; the output accumulated
    from the fragments before it is not returned. *)
Theorem Send_rejects_frame_of_unknown_id
  (fm : FrameModel) (cmd : list byte) (s : Server) (ids ids2 : idState fm)
  (req reqMirror : rconRequest) (rs2 rs' : rconSocket)
  (fragments : list rconResponse) (bad : rconResponse) :
  requests_written fm cmd s ids req reqMirror ids2 rs2 ->
  req_id req <> req_id reqMirror ->
  replies fm rs2 (fragments ++ [bad]) rs' ->
  Forall (fun r => typ r = rrtRespValue fm /\ id r = req_id req) fragments ->
  typ bad = rrtRespValue fm ->
  id bad <> req_id req ->
  id bad <> req_id reqMirror ->
  exists f0, forall fuel, (f0 <= fuel)%nat ->
    Send fm fuel cmd s ids
    = Some (Err ErrInvalidResponseID, set_rsock s (Some rs'), ids2).
Proof.
  intros Hw Hne Hrep Hall Ht Hq Hmi.
  destruct (replies_app_inv fm _ _ _ _ Hrep) as (rsm & H1 & H2).
  destruct (replies_cons_inv fm _ _ _ _ H2) as (f & d & rs1 & Hr & Hu & Hn).
  apply replies_nil_inv in Hn. rewrite Hn in *.
  apply (Send_result_of_loop fm cmd s ids ids2 req reqMirror rs2 rs1 _ Hw).
  apply (Send_loop_takes_frames fm _ _ Hne fragments bad false rs2 rsm _).
  - unfold frames_taken. rewrite app_nil_r. exact H1.
  - exact Hall.
  - discriminate.
  - exists (S f). intros fuel Hle. destruct fuel as [|fuel]; [lia|].
    apply (Send_loop_unknown_id fm _ _ fuel f rsm rs1 d _ bad Hr Hu Ht Hmi Hq).
    lia.
Qed.

Lemma Send_rejects_frame_of_unknown_id_witness :
  exists f0, forall fuel, (f0 <= fuel)%nat ->
    Send Wire.model fuel [x6c; x73]
         (rcon_server [Chunk (Wire.frame 5 0 [x61]) None;
                       Chunk (Wire.frame 9 0 [x62]) None]) 5
    = Some (Err ErrInvalidResponseID,
            set_rsock (rcon_server [Chunk (Wire.frame 5 0 [x61]) None;
                                    Chunk (Wire.frame 9 0 [x62]) None])
                      (rsock (rcon_server_left [x6c; x73] [])), 7).
Proof.
  apply (Send_rejects_frame_of_unknown_id Wire.model [x6c; x73] _ 5 7
           (mkRconRequest 5 2 [x6c; x73]) (mkRconRequest 6 0 [])
           (mkRconSocket
              (mkConn (mkSource [Chunk (Wire.frame 5 0 [x61]) None;
                                 Chunk (Wire.frame 9 0 [x62]) None] io_EOF)
                      [] None [Wire.frame 5 2 [x6c; x73]; Wire.frame 6 0 []]
                      false))
           (mkRconSocket
              (mkConn (mkSource [] io_EOF) [] None
                      [Wire.frame 5 2 [x6c; x73]; Wire.frame 6 0 []] false))
           [mkRconResponse 0 5 [x61]] (mkRconResponse 0 9 [x62])).
  - split; [reflexivity|]. do 3 eexists. repeat split; reflexivity.
  - simpl. lia.
  - simpl.
    eapply (replies_cons _ _ _ _ 1%nat); [vm_compute; reflexivity | reflexivity |].
    eapply (replies_cons _ _ _ _ 1%nat); [vm_compute; reflexivity | reflexivity |].
    apply replies_nil.
  - repeat constructor.
  - reflexivity.
  - simpl. lia.
  - simpl. lia.
Defined.

(** X11. When a [receive] of the loop fails, among the fragments or
    after the mirror frame, [Send] returns that error wrapped as
    "steam: receiving rcon response (...)" and none of the output it
    had accumulated. *)
Theorem Send_wraps_receive_error
  (fm : FrameModel) (cmd : list byte) (s : Server) (ids ids2 : idState fm)
  (req reqMirror : rconRequest) (rs2 rsm rs' : rconSocket)
  (fragments : list rconResponse) (mirror : rconResponse)
  (sawMirror : bool) (f : nat) (e : error) :
  requests_written fm cmd s ids req reqMirror ids2 rs2 ->
  req_id req <> req_id reqMirror ->
  replies fm rs2 (frames_taken fragments mirror sawMirror) rsm ->
  Forall (fun r => typ r = rrtRespValue fm /\ id r = req_id req) fragments ->
  (sawMirror = true ->
   typ mirror = rrtRespValue fm /\ id mirror = req_id reqMirror) ->
  receive f rsm = Some (Err e, rs') ->
  exists f0, forall fuel, (f0 <= fuel)%nat ->
    Send fm fuel cmd s ids
    = Some (Err (fmt_Errorf "steam: receiving rcon response (%v)" e),
            set_rsock s (Some rs'), ids2).
Proof.
  intros Hw Hne Hrep Hall Hm Hr.
  apply (Send_result_of_loop fm cmd s ids ids2 req reqMirror rs2 rs' _ Hw).
  apply (Send_loop_takes_frames fm _ _ Hne fragments mirror sawMirror rs2 rsm
           _ Hrep Hall Hm).
  exists (S f). intros fuel Hle. destruct fuel as [|fuel]; [lia|].
  apply (Send_loop_receive_error fm _ _ fuel f rsm rs' _ e _ Hr). lia.
Qed.

Lemma Send_wraps_receive_error_witness :
  exists f0, forall fuel, (f0 <= fuel)%nat ->
    Send Wire.model fuel [x6c; x73]
         (rcon_server [Chunk (Wire.frame 5 0 [x61]) None;
                       Chunk [x0a; x00; x00; x00; x01; x02; x03] None]) 5
    = Some (Err (fmt_Errorf "steam: receiving rcon response (%v)"
                            errCouldNotReceive),
            set_rsock (rcon_server [Chunk (Wire.frame 5 0 [x61]) None;
                                    Chunk [x0a; x00; x00; x00; x01; x02; x03] None])
                      (rsock (rcon_server_left [x6c; x73] [])), 7).
Proof.
  apply (Send_wraps_receive_error Wire.model [x6c; x73] _ 5 7
           (mkRconRequest 5 2 [x6c; x73]) (mkRconRequest 6 0 [])
           (mkRconSocket
              (mkConn (mkSource [Chunk (Wire.frame 5 0 [x61]) None;
                                 Chunk [x0a; x00; x00; x00; x01; x02; x03] None]
                                io_EOF)
                      [] None [Wire.frame 5 2 [x6c; x73]; Wire.frame 6 0 []]
                      false))
           (mkRconSocket
              (mkConn (mkSource [Chunk [x0a; x00; x00; x00; x01; x02; x03] None]
                                io_EOF)
                      [] None [Wire.frame 5 2 [x6c; x73]; Wire.frame 6 0 []]
                      false))
           (mkRconSocket
              (mkConn (mkSource [] io_EOF) [] None
                      [Wire.frame 5 2 [x6c; x73]; Wire.frame 6 0 []] false))
           [mkRconResponse 0 5 [x61]] (mkRconResponse 0 6 []) false 2).
  - split; [reflexivity|]. do 3 eexists. repeat split; reflexivity.
  - simpl. lia.
  - simpl.
    eapply (replies_cons _ _ _ _ 1%nat); [vm_compute; reflexivity | reflexivity |].
    apply replies_nil.
  - repeat constructor.
  - discriminate.
  - reflexivity.
Defined.

(** X12. When a received frame does not decode, [Send] returns the
    error of [unmarshalBinary] wrapped as "steam: decoding response
    (...)" and none of the output it had accumulated. *)
Theorem Send_wraps_decode_error
  (fm : FrameModel) (cmd : list byte) (s : Server) (ids ids2 : idState fm)
  (req reqMirror : rconRequest) (rs2 rsm rs' : rconSocket)
  (fragments : list rconResponse) (mirror partial : rconResponse)
  (sawMirror : bool) (f : nat) (data : list byte) (e : error) :
  requests_written fm cmd s ids req reqMirror ids2 rs2 ->
  req_id req <> req_id reqMirror ->
  replies fm rs2 (frames_taken fragments mirror sawMirror) rsm ->
  Forall (fun r => typ r = rrtRespValue fm /\ id r = req_id req) fragments ->
  (sawMirror = true ->
   typ mirror = rrtRespValue fm /\ id mirror = req_id reqMirror) ->
  receive f rsm = Some (Ok data, rs') ->
  rconResponse_unmarshalBinary fm rconResponse_zero data = (Some e, partial) ->
  exists f0, forall fuel, (f0 <= fuel)%nat ->
    Send fm fuel cmd s ids
    = Some (Err (fmt_Errorf "steam: decoding response (%v)" e),
            set_rsock s (Some rs'), ids2).
Proof.
  intros Hw Hne Hrep Hall Hm Hr Hu.
  apply (Send_result_of_loop fm cmd s ids ids2 req reqMirror rs2 rs' _ Hw).
  apply (Send_loop_takes_frames fm _ _ Hne fragments mirror sawMirror rs2 rsm
           _ Hrep Hall Hm).
  exists (S f). intros fuel Hle. destruct fuel as [|fuel]; [lia|].
  apply (Send_loop_decode_error fm _ _ fuel f rsm rs' data _ e partial _ Hr Hu).
  lia.
Qed.

Lemma Send_wraps_decode_error_witness :
  exists f0, forall fuel, (f0 <= fuel)%nat ->
    Send Wire.model fuel [x6c; x73]
         (rcon_server [Chunk (Wire.frame 5 7 []) None]) 5
    = Some (Err (fmt_Errorf "steam: decoding response (%v)" errBadData),
            set_rsock (rcon_server [Chunk (Wire.frame 5 7 []) None])
                      (rsock (rcon_server_left [x6c; x73] [])), 7).
Proof.
  apply (Send_wraps_decode_error Wire.model [x6c; x73] _ 5 7
           (mkRconRequest 5 2 [x6c; x73]) (mkRconRequest 6 0 [])
           (mkRconSocket
              (mkConn (mkSource [Chunk (Wire.frame 5 7 []) None] io_EOF)
                      [] None [Wire.frame 5 2 [x6c; x73]; Wire.frame 6 0 []]
                      false))
           (mkRconSocket
              (mkConn (mkSource [Chunk (Wire.frame 5 7 []) None] io_EOF)
                      [] None [Wire.frame 5 2 [x6c; x73]; Wire.frame 6 0 []]
                      false))
           (mkRconSocket
              (mkConn (mkSource [] io_EOF) [] None
                      [Wire.frame 5 2 [x6c; x73]; Wire.frame 6 0 []] false))
           [] (mkRconResponse 0 6 []) rconResponse_zero false 1
           (Wire.frame 5 7 []) errBadData).
  - split; [reflexivity|]. do 3 eexists. repeat split; reflexivity.
  - simpl. lia.
  - apply replies_nil.
  - constructor.
  - discriminate.
  - reflexivity.
  - reflexivity.
Defined.

(** X13. When writing the command request fails, [Send] returns the
    error wrapped as "steam: sending rcon request (...)" without
    drawing the id of the mirror request; when writing the mirror
    request fails, it returns the error wrapped as "steam: sending rcon
    mirror request (...)".  In both cases this holds whatever the fuel:
    the loop is not entered. *)
Theorem Send_wraps_write_errors
  (fm : FrameModel) (fuel : nat) (cmd : list byte) (s : Server)
  (ids ids1 : idState fm) (rs rs1 : rconSocket) (req : rconRequest) :
  rconInitialized s = true ->
  rsock s = Some rs ->
  newRCONRequest fm ids (rrtExecCmd fm) cmd = (req, ids1) ->
  (forall e,
      rconSocket_send rs (rconRequest_marshalBinary fm req) = (Some e, rs1) ->
      Send fm fuel cmd s ids
      = Some (Err (fmt_Errorf "steam: sending rcon request (%v)" e),
              set_rsock s (Some rs1), ids1))
  /\ (forall e reqMirror ids2 rs2,
         rconSocket_send rs (rconRequest_marshalBinary fm req) = (None, rs1) ->
         newRCONRequest fm ids1 (rrtRespValue fm) [] = (reqMirror, ids2) ->
         rconSocket_send rs1 (rconRequest_marshalBinary fm reqMirror)
         = (Some e, rs2) ->
         Send fm fuel cmd s ids
         = Some (Err (fmt_Errorf "steam: sending rcon mirror request (%v)" e),
                 set_rsock s (Some rs2), ids2)).
Proof.
  intros Hi Hs Hq. split.
  - intros e Hw. unfold Send. rewrite Hi, Hq, Hs, Hw. reflexivity.
  - intros e reqMirror ids2 rs2 Hw Hqm Hwm. unfold Send.
    rewrite Hi, Hq, Hs, Hw, Hqm, Hwm. reflexivity.
Qed.

Lemma Send_wraps_write_errors_witness :
  Send Wire.model 0 [x6c; x73]
       (mkServer "example:27015" None [] None false
                 (Some (mkRconSocket
                          (mkConn (mkSource [] io_EOF) [Some net_Closed]
                                  None [] false))) true) 5
  = Some (Err (fmt_Errorf "steam: sending rcon request (%v)"
                          (IOError net_Closed)),
          mkServer "example:27015" None [] None false
                   (Some (mkRconSocket
                            (mkConn (mkSource [] io_EOF) [] None [] false)))
                   true, 6).
Proof.
  destruct (Send_wraps_write_errors Wire.model 0 [x6c; x73]
              (mkServer "example:27015" None [] None false
                        (Some (mkRconSocket
                                 (mkConn (mkSource [] io_EOF) [Some net_Closed]
                                         None [] false))) true)
              5 6
              (mkRconSocket
                 (mkConn (mkSource [] io_EOF) [Some net_Closed] None [] false))
              (mkRconSocket (mkConn (mkSource [] io_EOF) [] None [] false))
              (mkRconRequest 5 2 [x6c; x73]))
    as (H & _).
  - reflexivity.
  - reflexivity.
  - reflexivity.
  - apply (H (IOError net_Closed)). reflexivity.
Defined.

(** ** The RCON engine: the outcomes of [authenticate] *)

Section Authenticate.

Variable fm : FrameModel.
Variables (s : Server) (ids ids1 : idState fm).
Variables (req : rconRequest) (rs1 rs2 : rconSocket).
Variables (f1 : nat) (data1 : list byte) (r1 : rconResponse).

Hypothesis written_ok : auth_request_written fm s ids req ids1 rs1.
Hypothesis first_received : receive f1 rs1 = Some (Ok data1, rs2).
Hypothesis first_decoded :
  rconResponse_unmarshalBinary fm rconResponse_zero data1 = (None, r1).

(** [authenticate] up to the check of the first reply. *)
Lemma authenticate_first_reply (fuel : nat) :
  (f1 <= fuel)%nat ->
  authenticate fm fuel s ids
  = if negb (typ r1 =? rrtRespValue fm) || negb (id r1 =? req_id req)
    then Some (Err ErrInvalidResponseID, set_rsock s (Some rs2), ids1)
    else
      match receive fuel rs2 with
      | None => None
      | Some (Panic v, rs) => Some (Panic v, set_rsock s (Some rs), ids1)
      | Some (Err e, rs) => Some (Err e, set_rsock s (Some rs), ids1)
      | Some (Ok data, rs) =>
          let '(uerr, resp) := rconResponse_unmarshalBinary fm r1 data in
          match uerr with
          | Some e => Some (Err e, set_rsock s (Some rs), ids1)
          | None =>
              if negb (typ resp =? rrtAuthResp fm)
                 || negb (id resp =? req_id req)
              then Some (Err ErrRCONAuthFailed, set_rsock s (Some rs), ids1)
              else Some (Ok tt, set_rsock s (Some rs), ids1)
          end
      end.
Proof.
  intros Hle. destruct written_ok as (rs & Hs & Hq & Hw).
  unfold authenticate.
  rewrite Hq, Hs, Hw, (receive_mono _ _ _ _ first_received Hle), first_decoded.
  destruct (negb (typ r1 =? rrtRespValue fm)) eqn:Et; cbn [orb];
    [reflexivity|].
  destruct (negb (id r1 =? req_id req)) eqn:Ei; [reflexivity|].
  destruct (receive fuel rs2) as [[[d|e|v] rs']|]; reflexivity.
Qed.

Lemma authenticate_second_reply (fuel f2 : nat) (data2 : list byte)
  (rs3 : rconSocket) (r2 : rconResponse) :
  typ r1 = rrtRespValue fm ->
  id r1 = req_id req ->
  receive f2 rs2 = Some (Ok data2, rs3) ->
  rconResponse_unmarshalBinary fm r1 data2 = (None, r2) ->
  (Nat.max f1 f2 <= fuel)%nat ->
  authenticate fm fuel s ids
  = if negb (typ r2 =? rrtAuthResp fm) || negb (id r2 =? req_id req)
    then Some (Err ErrRCONAuthFailed, set_rsock s (Some rs3), ids1)
    else Some (Ok tt, set_rsock s (Some rs3), ids1).
Proof.
  intros Ht Hi Hr Hu Hle.
  rewrite authenticate_first_reply by lia.
  rewrite Ht, Hi, !Z.eqb_refl. cbn [negb orb].
  rewrite (receive_mono _ _ _ _ Hr) by lia. rewrite Hu. reflexivity.
Qed.

End Authenticate.

(** X14. [authenticate] succeeds when the first reply is a
    RESPONSE_VALUE frame with the id of the AUTH request and the second,
    decoded into the same response value, is an AUTH_RESPONSE frame with
    that id. *)
Theorem authenticate_accepts_matching_replies
  (fm : FrameModel) (s : Server) (ids ids1 : idState fm) (req : rconRequest)
  (rs1 rs2 rs3 : rconSocket) (f1 f2 : nat) (data1 data2 : list byte)
  (r1 r2 : rconResponse) (fuel : nat) :
  auth_request_written fm s ids req ids1 rs1 ->
  receive f1 rs1 = Some (Ok data1, rs2) ->
  rconResponse_unmarshalBinary fm rconResponse_zero data1 = (None, r1) ->
  typ r1 = rrtRespValue fm ->
  id r1 = req_id req ->
  receive f2 rs2 = Some (Ok data2, rs3) ->
  rconResponse_unmarshalBinary fm r1 data2 = (None, r2) ->
  typ r2 = rrtAuthResp fm ->
  id r2 = req_id req ->
  (Nat.max f1 f2 <= fuel)%nat ->
  authenticate fm fuel s ids = Some (Ok tt, set_rsock s (Some rs3), ids1).
Proof.
  intros Hw Hr1 Hu1 Ht1 Hi1 Hr2 Hu2 Ht2 Hi2 Hle.
  rewrite (authenticate_second_reply fm s ids ids1 req rs1 rs2 f1 data1 r1
             Hw Hr1 Hu1 fuel f2 data2 rs3 r2 Ht1 Hi1 Hr2 Hu2 Hle).
  rewrite Ht2, Hi2, !Z.eqb_refl. reflexivity.
Qed.

Lemma authenticate_accepts_matching_replies_witness :
  authenticate Wire.model 1 (auth_server accepting_peer) 5
  = Some (Ok tt, auth_server_left [], 6).
Proof.
  apply (authenticate_accepts_matching_replies Wire.model
           (auth_server accepting_peer) 5 6 (mkRconRequest 5 3 [x70; x77])
           (mkRconSocket
              (mkConn (mkSource accepting_peer io_EOF) [] None
                      [Wire.frame 5 3 [x70; x77]] false))
           (mkRconSocket
              (mkConn (mkSource [Chunk (Wire.frame 5 2 []) None] io_EOF) []
                      None [Wire.frame 5 3 [x70; x77]] false))
           (mkRconSocket
              (mkConn (mkSource [] io_EOF) [] None
                      [Wire.frame 5 3 [x70; x77]] false))
           1 1 (Wire.frame 5 0 []) (Wire.frame 5 2 [])
           (mkRconResponse 0 5 []) (mkRconResponse 2 5 []) 1).
  - eexists. repeat split; reflexivity.
  - reflexivity.
  - reflexivity.
  - reflexivity.
  - reflexivity.
  - reflexivity.
  - reflexivity.
  - reflexivity.
  - reflexivity.
  - simpl. lia.
Defined.

(** X15. After a valid first reply, a second reply that is not an
    AUTH_RESPONSE frame with the id of the AUTH request (a server
    refusing the password answers with the id -1) makes [authenticate]
    fail with ErrRCONAuthFailed. *)
Theorem authenticate_refused
  (fm : FrameModel) (s : Server) (ids ids1 : idState fm) (req : rconRequest)
  (rs1 rs2 rs3 : rconSocket) (f1 f2 : nat) (data1 data2 : list byte)
  (r1 r2 : rconResponse) (fuel : nat) :
  auth_request_written fm s ids req ids1 rs1 ->
  receive f1 rs1 = Some (Ok data1, rs2) ->
  rconResponse_unmarshalBinary fm rconResponse_zero data1 = (None, r1) ->
  typ r1 = rrtRespValue fm ->
  id r1 = req_id req ->
  receive f2 rs2 = Some (Ok data2, rs3) ->
  rconResponse_unmarshalBinary fm r1 data2 = (None, r2) ->
  typ r2 <> rrtAuthResp fm \/ id r2 <> req_id req ->
  (Nat.max f1 f2 <= fuel)%nat ->
  authenticate fm fuel s ids
  = Some (Err ErrRCONAuthFailed, set_rsock s (Some rs3), ids1).
Proof.
  intros Hw Hr1 Hu1 Ht1 Hi1 Hr2 Hu2 Hbad Hle.
  rewrite (authenticate_second_reply fm s ids ids1 req rs1 rs2 f1 data1 r1
             Hw Hr1 Hu1 fuel f2 data2 rs3 r2 Ht1 Hi1 Hr2 Hu2 Hle).
  destruct Hbad as [Ht | Hi].
  - apply Z.eqb_neq in Ht. rewrite Ht. reflexivity.
  - apply Z.eqb_neq in Hi. rewrite Hi, orb_true_r. reflexivity.
Qed.

Lemma authenticate_refused_witness :
  authenticate Wire.model 1
    (auth_server [Chunk (Wire.frame 5 0 []) None;
                  Chunk (Wire.frame (-1) 2 []) None]) 5
  = Some (Err ErrRCONAuthFailed, auth_server_left [], 6).
Proof.
  apply (authenticate_refused Wire.model
           (auth_server [Chunk (Wire.frame 5 0 []) None;
                         Chunk (Wire.frame (-1) 2 []) None])
           5 6 (mkRconRequest 5 3 [x70; x77])
           (mkRconSocket
              (mkConn (mkSource [Chunk (Wire.frame 5 0 []) None;
                                 Chunk (Wire.frame (-1) 2 []) None] io_EOF)
                      [] None [Wire.frame 5 3 [x70; x77]] false))
           (mkRconSocket
              (mkConn (mkSource [Chunk (Wire.frame (-1) 2 []) None] io_EOF) []
                      None [Wire.frame 5 3 [x70; x77]] false))
           (mkRconSocket
              (mkConn (mkSource [] io_EOF) [] None
                      [Wire.frame 5 3 [x70; x77]] false))
           1 1 (Wire.frame 5 0 []) (Wire.frame (-1) 2 [])
           (mkRconResponse 0 5 []) (mkRconResponse 2 (-1) []) 1).
  - eexists. repeat split; reflexivity.
  - reflexivity.
  - reflexivity.
  - reflexivity.
  - reflexivity.
  - reflexivity.
  - reflexivity.
  - right. simpl. lia.
  - simpl. lia.
Defined.

(** X16. A first reply of type RESPONSE_VALUE whose id is not that of
    the AUTH request makes [authenticate] fail with
    ErrInvalidResponseID; the second reply is not read. *)
Theorem authenticate_rejects_first_reply_of_wrong_id
  (fm : FrameModel) (s : Server) (ids ids1 : idState fm) (req : rconRequest)
  (rs1 rs2 : rconSocket) (f1 : nat) (data1 : list byte)
  (r1 : rconResponse) (fuel : nat) :
  auth_request_written fm s ids req ids1 rs1 ->
  receive f1 rs1 = Some (Ok data1, rs2) ->
  rconResponse_unmarshalBinary fm rconResponse_zero data1 = (None, r1) ->
  typ r1 = rrtRespValue fm ->
  id r1 <> req_id req ->
  (f1 <= fuel)%nat ->
  authenticate fm fuel s ids
  = Some (Err ErrInvalidResponseID, set_rsock s (Some rs2), ids1).
Proof.
  intros Hw Hr1 Hu1 Ht1 Hi1 Hle.
  rewrite (authenticate_first_reply fm s ids ids1 req rs1 rs2 f1 data1 r1
             Hw Hr1 Hu1 fuel Hle).
  apply Z.eqb_neq in Hi1. rewrite Hi1, orb_true_r. reflexivity.
Qed.

Lemma authenticate_rejects_first_reply_of_wrong_id_witness :
  authenticate Wire.model 1
    (auth_server [Chunk (Wire.frame 4 0 []) None;
                  Chunk (Wire.frame 5 2 []) None]) 5
  = Some (Err ErrInvalidResponseID,
          auth_server_left [Chunk (Wire.frame 5 2 []) None], 6).
Proof.
  apply (authenticate_rejects_first_reply_of_wrong_id Wire.model
           (auth_server [Chunk (Wire.frame 4 0 []) None;
                         Chunk (Wire.frame 5 2 []) None])
           5 6 (mkRconRequest 5 3 [x70; x77])
           (mkRconSocket
              (mkConn (mkSource [Chunk (Wire.frame 4 0 []) None;
                                 Chunk (Wire.frame 5 2 []) None] io_EOF)
                      [] None [Wire.frame 5 3 [x70; x77]] false))
           (mkRconSocket
              (mkConn (mkSource [Chunk (Wire.frame 5 2 []) None] io_EOF) []
                      None [Wire.frame 5 3 [x70; x77]] false))
           1 (Wire.frame 4 0 []) (mkRconResponse 0 4 []) 1).
  - eexists. repeat split; reflexivity.
  - reflexivity.
  - reflexivity.
  - reflexivity.
  - simpl. lia.
  - lia.
Defined.

(** ** The RCON socket and [authenticate]: what they leave untouched *)

Lemma receive_loop_only_reads (fuel : nat) :
  forall (c c' : Conn) (buf : list byte) (total : Z) r,
    receive_loop fuel c buf total = Some (r, c') ->
    exists src, c' = Conn_set_rd c src.
Proof.
  induction fuel as [|fuel IH]; intros c c' buf total r H; simpl in H.
  - destruct (total <=? 0); [|discriminate H].
    injection H as _ <-. exists (rd c). now destruct c.
  - destruct (total <=? 0).
    { injection H as _ <-. exists (rd c). now destruct c. }
    destruct (deadlineErr c).
    { injection H as _ <-. exists (rd c). now destruct c. }
    unfold Conn_Read in H.
    destruct (source_Read (rd c) (Z.to_nat total)) as [[bs err] src1].
    assert (Hrec : forall b t,
               receive_loop fuel (Conn_set_rd c src1) b t = Some (r, c') ->
               exists src, c' = Conn_set_rd c src).
    { intros b t Hl. destruct (IH _ _ _ _ _ Hl) as (src & ->).
      exists src. reflexivity. }
    destruct err as [[| | | |]|]; try (eapply Hrec; exact H).
    injection H as _ <-. exists src1. reflexivity.
Qed.

Lemma receive_leaves_connection (fuel : nat) (s s' : rconSocket)
  (r : result (list byte)) :
  receive fuel s = Some (r, s') ->
  written (conn s') = written (conn s)
  /\ closed (conn s') = closed (conn s).
Proof.
  unfold receive. intros H.
  destruct (readLong (teeReader (rd (conn s)) [])) as [[total|e|v] tr].
  - destruct (receive_loop fuel _ _ total) as [[res c']|] eqn:E;
      [|discriminate H].
    injection H as _ <-.
    destruct (receive_loop_only_reads _ _ _ _ _ _ E) as (src & ->).
    simpl. auto.
  - injection H as _ <-. simpl. auto.
  - injection H as _ <-. simpl. auto.
Qed.

(** X17. [receive] only consumes input: whatever it returns, it has
    written nothing to the connection and has not closed it. *)
Theorem receive_only_reads (fuel : nat) (s s' : rconSocket)
  (r : result (list byte)) :
  receive fuel s = Some (r, s') ->
  written (conn s') = written (conn s)
  /\ closed (conn s') = closed (conn s).
Proof.
  exact (receive_leaves_connection fuel s s' r).
Qed.

Lemma receive_only_reads_witness :
  written (conn (mkRconSocket (Wire.peer [] io_EOF)))
  = written (conn closes_early)
  /\ closed (conn (mkRconSocket (Wire.peer [] io_EOF)))
     = closed (conn closes_early).
Proof.
  apply (receive_only_reads 2 closes_early
           (mkRconSocket (Wire.peer [] io_EOF)) (Err errCouldNotReceive)).
  reflexivity.
Defined.

Lemma rconSocket_send_keeps_open (rs rs' : rconSocket) (p : list byte)
  (err : option error) :
  rconSocket_send rs p = (err, rs') ->
  closed (conn rs') = closed (conn rs).
Proof.
  unfold rconSocket_send, Conn_Write. intros H.
  destruct (deadlineErr (conn rs)); [injection H as _ <-; reflexivity|].
  destruct (writeErrs (conn rs)) as [|[e|] ws]; simpl in H;
    injection H as _ <-; reflexivity.
Qed.

(** [authenticate] changes nothing of the facade but the RCON socket,
    which it leaves open or closed as it found it. *)
Lemma authenticate_keeps_facade (fm : FrameModel) (fuel : nat)
  (s s' : Server) (ids ids' : idState fm) (rs : rconSocket)
  (r : result unit) :
  rsock s = Some rs ->
  authenticate fm fuel s ids = Some (r, s', ids') ->
  exists rs',
    s' = set_rsock s (Some rs') /\ closed (conn rs') = closed (conn rs).
Proof.
  intros Hs H. unfold authenticate in H. rewrite Hs in H.
  destruct (newRCONRequest fm ids (rrtAuth fm) (rconPassword s)) as [req ids1].
  destruct (rconSocket_send rs (rconRequest_marshalBinary fm req))
    as [err rs1] eqn:Hw.
  apply rconSocket_send_keeps_open in Hw.
  destruct err as [e|].
  { injection H as _ <- _. exists rs1. auto. }
  destruct (receive fuel rs1) as [[r1 rs2]|] eqn:Hr1; [|discriminate H].
  apply receive_leaves_connection in Hr1 as (_ & Hc1).
  destruct r1 as [d1|e|v]; try (injection H as _ <- _; exists rs2;
    split; [reflexivity | congruence]).
  destruct (rconResponse_unmarshalBinary fm rconResponse_zero d1)
    as [[e|] resp].
  { injection H as _ <- _. exists rs2. split; [reflexivity | congruence]. }
  destruct (negb (typ resp =? rrtRespValue fm) || negb (id resp =? req_id req)).
  { injection H as _ <- _. exists rs2. split; [reflexivity | congruence]. }
  destruct (negb (id resp =? req_id req)).
  { injection H as _ <- _. exists rs2. split; [reflexivity | congruence]. }
  destruct (receive fuel rs2) as [[r2 rs3]|] eqn:Hr2; [|discriminate H].
  apply receive_leaves_connection in Hr2 as (_ & Hc2).
  destruct r2 as [d2|e|v]; try (injection H as _ <- _; exists rs3;
    split; [reflexivity | congruence]).
  destruct (rconResponse_unmarshalBinary fm resp d2) as [[e|] resp2].
  { injection H as _ <- _. exists rs3. split; [reflexivity | congruence]. }
  destruct (negb (typ resp2 =? rrtAuthResp fm) || negb (id resp2 =? req_id req));
    injection H as _ <- _; exists rs3; split; (reflexivity || congruence).
Qed.

(** ** The facade: [Connect] and [Close] *)

(** The state [Connect] reaches when [authenticate] succeeds. *)
Lemma Connect_authenticated (fm : FrameModel) (fuel : nat) (lat : list Z)
  (a : string) (os : list ConnectOptions) (ids ids1 : idState fm)
  (c c2 : Conn) (s1 : Server) :
  string_is_empty a = false ->
  bytes_is_empty (password os) = false ->
  effective_dial fm os "udp"%string a = Ok c ->
  effective_dial fm os "tcp"%string a = Ok c2 ->
  authenticate fm fuel
    (set_rsock (connecting fm a os (mkUdpSocket c lat))
               (Some (mkRconSocket c2))) ids
  = Some (Ok tt, s1, ids1) ->
  exists rs',
    closed (conn rs') = closed c2
    /\ Connect fm fuel lat a os ids
       = Some (Ok tt,
               mkServer a (Some (effective_dial fm os)) (password os)
                        (Some (mkUdpSocket c lat)) false (Some rs') true,
               ids1).
Proof.
  intros Ha Hp Hu Ht Hauth.
  destruct (authenticate_keeps_facade fm fuel
              (set_rsock (connecting fm a os (mkUdpSocket c lat))
                         (Some (mkRconSocket c2)))
              s1 ids ids1 (mkRconSocket c2) (Ok tt) eq_refl Hauth)
    as (rs' & -> & Hc).
  exists rs'. split; [exact Hc|].
  rewrite (Connect_reaches_initRCON fm fuel lat a os ids c Ha Hp Hu).
  unfold initRCON. simpl. rewrite Ha.
  unfold newRCONSocket. rewrite Ht. rewrite Hauth. reflexivity.
Qed.

(** X18. With an address, a password, both dials succeeding and
    [authenticate] succeeding, [Connect] returns a facade that holds
    the query socket as dialled and the RCON socket, neither closed by
    the call, and that has [rconInitialized] set. *)
Theorem Connect_returns_authenticated_facade
  (fm : FrameModel) (fuel : nat) (lat : list Z)
  (a : string) (os : list ConnectOptions) (ids ids1 : idState fm)
  (c c2 : Conn) (s1 : Server) :
  string_is_empty a = false ->
  bytes_is_empty (password os) = false ->
  effective_dial fm os "udp"%string a = Ok c ->
  effective_dial fm os "tcp"%string a = Ok c2 ->
  authenticate fm fuel
    (set_rsock (connecting fm a os (mkUdpSocket c lat))
               (Some (mkRconSocket c2))) ids
  = Some (Ok tt, s1, ids1) ->
  exists s' rs',
    Connect fm fuel lat a os ids = Some (Ok tt, s', ids1)
    /\ usock s' = Some (mkUdpSocket c lat)
    /\ rsock s' = Some rs'
    /\ closed (conn rs') = closed c2
    /\ rconInitialized s' = true.
Proof.
  intros Ha Hp Hu Ht Hauth.
  destruct (Connect_authenticated fm fuel lat a os ids ids1 c c2 s1
              Ha Hp Hu Ht Hauth) as (rs' & Hc & HC).
  eexists. exists rs'. split; [exact HC|]. simpl. auto.
Qed.

Lemma Connect_returns_authenticated_facade_witness :
  exists s' rs',
    Connect Wire.model 1 [] "example:27015" (with_password dial_accepting) 5
    = Some (Ok tt, s', 6)
    /\ usock s' = Some (mkUdpSocket (Wire.peer [] net_Timeout) [])
    /\ rsock s' = Some rs'
    /\ closed (conn rs') = closed (Wire.peer accepting_peer io_EOF)
    /\ rconInitialized s' = true.
Proof.
  eapply (Connect_returns_authenticated_facade Wire.model 1 []
            "example:27015" (with_password dial_accepting) 5 6
            (Wire.peer [] net_Timeout) (Wire.peer accepting_peer io_EOF)).
  - reflexivity.
  - reflexivity.
  - reflexivity.
  - reflexivity.
  - vm_compute. reflexivity.
Defined.

(** X19. Without a password, in the options or for want of options,
    [Connect] opens the query socket only: it returns, whatever the
    fuel, a facade without RCON socket and with [rconInitialized]
    unset, draws no request id, and a [Send] on that facade fails with
    ErrRCONNotInitialized. *)
Theorem Connect_without_password
  (fm : FrameModel) (fuel fuel' : nat) (lat : list Z) (a : string)
  (os : list ConnectOptions) (ids : idState fm) (c : Conn)
  (cmd : list byte) :
  string_is_empty a = false ->
  bytes_is_empty (password os) = true ->
  effective_dial fm os "udp"%string a = Ok c ->
  exists s',
    Connect fm fuel lat a os ids = Some (Ok tt, s', ids)
    /\ usock s' = Some (mkUdpSocket c lat)
    /\ rsock s' = None
    /\ rconInitialized s' = false
    /\ Send fm fuel' cmd s' ids = Some (Err ErrRCONNotInitialized, s', ids).
Proof.
  intros Ha Hp Hu. exists (connecting fm a os (mkUdpSocket c lat)).
  split; [|repeat split].
  unfold Connect, connecting.
  assert (Hinit : forall s0,
             addr s0 = a -> dial s0 = Some (effective_dial fm os) ->
             init lat s0 = (Ok tt, set_usock s0 (Some (mkUdpSocket c lat)))).
  { intros s0 Hs0 Hd. unfold init. rewrite Hs0, Ha, Hd. cbn [call_dial].
    unfold newUDPSocket. rewrite Hu. reflexivity. }
  destruct os as [|o os']; cbn [dial password] in *.
  - rewrite Hinit by reflexivity. reflexivity.
  - cbn [effective_dial] in *.
    destruct (Dial o) as [f|] eqn:Ed; cbn [dial];
      rewrite Hinit by reflexivity; cbn [rconPassword set_usock];
      rewrite Hp; reflexivity.
Qed.

Lemma Connect_without_password_witness :
  exists s',
    Connect Wire.model 0 [] "example:27015"
            [mkConnectOptions (Some dial_udp_only) []] 5
    = Some (Ok tt, s', 5)
    /\ usock s' = Some (mkUdpSocket (Wire.peer [] net_Timeout) [])
    /\ rsock s' = None
    /\ rconInitialized s' = false
    /\ Send Wire.model 3 [x6c; x73] s' 5
       = Some (Err ErrRCONNotInitialized, s', 5).
Proof.
  apply (Connect_without_password Wire.model 0 3 [] "example:27015"
           [mkConnectOptions (Some dial_udp_only) []] 5
           (Wire.peer [] net_Timeout) [x6c; x73]); reflexivity.
Defined.

(** X20. Called with no options, or with options whose first pointer
    is not nil, [Connect] without an address fails with "steam: server
    needs a address" and holds no socket; when the query socket cannot
    be opened it fails with the dial error wrapped as "steam: could not
    open udp socket (...)", holds no socket, and does not go on to the
    RCON socket even with a password. *)
Theorem Connect_fails_before_any_socket
  (fm : FrameModel) (fuel : nat) (lat : list Z) (a : string)
  (os : list ConnectOptions) (ids : idState fm) :
  (string_is_empty a = true ->
   exists s',
     Connect fm fuel lat a os ids
     = Some (Err (errors_New "steam: server needs a address"), s', ids)
     /\ usock s' = None /\ rsock s' = None)
  /\ (forall e,
         string_is_empty a = false ->
         effective_dial fm os "udp"%string a = Err e ->
         exists s',
           Connect fm fuel lat a os ids
           = Some (Err (fmt_Errorf "steam: could not open udp socket (%v)" e),
                   s', ids)
           /\ usock s' = None /\ rsock s' = None).
Proof.
  split.
  - intros Ha. unfold Connect.
    destruct os as [|o os']; [|destruct (Dial o)];
      cbn [dial]; unfold init; cbn [addr]; rewrite Ha;
      eexists; split; try reflexivity; split; reflexivity.
  - intros e Ha Hu. unfold Connect.
    destruct os as [|o os']; [|destruct (Dial o) eqn:Ed];
      cbn [dial effective_dial] in *; try rewrite Ed in Hu;
      unfold init; cbn [addr dial call_dial]; rewrite Ha;
      unfold newUDPSocket; rewrite Hu;
      eexists; split; try reflexivity; split; reflexivity.
Qed.

Lemma Connect_fails_before_any_socket_witness :
  exists s',
    Connect Wire.model 0 [] "example:27015" (with_password dial_unreachable) 5
    = Some (Err (fmt_Errorf "steam: could not open udp socket (%v)"
                            (IOError (net_OpError "no route to host"))),
            s', 5)
    /\ usock s' = None /\ rsock s' = None.
Proof.
  destruct (Connect_fails_before_any_socket Wire.model 0 [] "example:27015"
              (with_password dial_unreachable) 5) as (_ & H).
  apply (H (IOError (net_OpError "no route to host"))); reflexivity.
Defined.

(** X21. [Close] on a facade that holds its query socket, and its RCON
    socket when [rconInitialized] is set, returns normally with the
    query socket closed; the RCON socket is closed exactly when
    [rconInitialized] is set and is otherwise left as it is.  Closing
    again changes nothing. *)
Theorem Close_releases_the_sockets (s : Server) (u : udpSocket) :
  usock s = Some u ->
  (rconInitialized s = true -> exists rs, rsock s = Some rs) ->
  exists s',
    Close s = (Ok tt, s')
    /\ usock_closed s'
    /\ (rconInitialized s = true -> rsock_closed s')
    /\ (rconInitialized s = false -> rsock s' = rsock s)
    /\ Close s' = (Ok tt, s').
Proof.
  intros Hu Hr. unfold Close, close_rsock, close_usock.
  destruct (rconInitialized s) eqn:Ei.
  - destruct (Hr eq_refl) as (rs & Hs). rewrite Hs. cbn. rewrite Hu.
    eexists. split; [reflexivity|]. cbn. rewrite Ei. cbn.
    repeat split.
    + eexists. split; reflexivity.
    + intros _. eexists. split; reflexivity.
    + discriminate.
  - rewrite Hu. eexists. split; [reflexivity|]. cbn. rewrite Ei.
    repeat split.
    + eexists. split; reflexivity.
    + discriminate.
Qed.

Lemma Close_releases_the_sockets_witness :
  exists s',
    Close connected_server = (Ok tt, s')
    /\ usock_closed s'
    /\ (rconInitialized connected_server = true -> rsock_closed s')
    /\ (rconInitialized connected_server = false ->
        rsock s' = rsock connected_server)
    /\ Close s' = (Ok tt, s').
Proof.
  apply (Close_releases_the_sockets connected_server
           (mkUdpSocket (Wire.peer [] net_Timeout) [])).
  - reflexivity.
  - intros _. eexists. reflexivity.
Defined.

(** X22. [Close] after a [Connect] that authenticated: the call
    returns normally and both sockets that [Connect] opened are
    closed. *)
Theorem Close_after_Connect
  (fm : FrameModel) (fuel : nat) (lat : list Z)
  (a : string) (os : list ConnectOptions) (ids ids1 : idState fm)
  (c c2 : Conn) (s1 : Server) :
  string_is_empty a = false ->
  bytes_is_empty (password os) = false ->
  effective_dial fm os "udp"%string a = Ok c ->
  effective_dial fm os "tcp"%string a = Ok c2 ->
  authenticate fm fuel
    (set_rsock (connecting fm a os (mkUdpSocket c lat))
               (Some (mkRconSocket c2))) ids
  = Some (Ok tt, s1, ids1) ->
  exists s' s'',
    Connect fm fuel lat a os ids = Some (Ok tt, s', ids1)
    /\ Close s' = (Ok tt, s'')
    /\ usock_closed s'' /\ rsock_closed s''.
Proof.
  intros Ha Hp Hu Ht Hauth.
  destruct (Connect_authenticated fm fuel lat a os ids ids1 c c2 s1
              Ha Hp Hu Ht Hauth) as (rs' & _ & HC).
  eexists. eexists. split; [exact HC|]. split; [reflexivity|]. split.
  - eexists. split; reflexivity.
  - eexists. split; reflexivity.
Qed.

Lemma Close_after_Connect_witness :
  exists s' s'',
    Connect Wire.model 1 [] "example:27015" (with_password dial_accepting) 5
    = Some (Ok tt, s', 6)
    /\ Close s' = (Ok tt, s'')
    /\ usock_closed s'' /\ rsock_closed s''.
Proof.
  eapply (Close_after_Connect Wire.model 1 []
            "example:27015" (with_password dial_accepting) 5 6
            (Wire.peer [] net_Timeout) (Wire.peer accepting_peer io_EOF)).
  - reflexivity.
  - reflexivity.
  - reflexivity.
  - reflexivity.
  - vm_compute. reflexivity.
Defined.

(** ** The query engine: how [Info] and [PlayersInfo] fail *)

(** X23. In the first exchange, an error of the send is returned as it
    is by [Info] and by [PlayersInfo], and no reply is taken; an error
    of the receive is returned wrapped as "steam: could not receive
    info response (...)" by [Info] and as it is by [PlayersInfo]. *)
Theorem query_first_exchange_errors
  (fm : FrameModel) (s : Server) (u : udpSocket) :
  usock s = Some u ->
  (forall e u1 t1,
      udpSocket_send u (infoRequest_marshalBinary fm 0) = (Some e, u1, t1) ->
      Info fm s = (Err e, set_usock s (Some u1))
      /\ replies_left u1 = replies_left u)
  /\ (forall e u1 u2 t1 t2,
         udpSocket_send u (infoRequest_marshalBinary fm 0) = (None, u1, t1) ->
         udpSocket_receive (udpBufferSize fm) u1 = (Err e, u2, t2) ->
         Info fm s
         = (Err (fmt_Errorf "steam: could not receive info response (%v)" e),
            set_usock s (Some u2)))
  /\ (forall e u1 t1,
         udpSocket_send u (playersInfoRequest_marshalBinary fm 0)
         = (Some e, u1, t1) ->
         PlayersInfo fm s = (Err e, set_usock s (Some u1))
         /\ replies_left u1 = replies_left u)
  /\ (forall e u1 u2 t1 t2,
         udpSocket_send u (playersInfoRequest_marshalBinary fm 0)
         = (None, u1, t1) ->
         udpSocket_receive (udpBufferSize fm) u1 = (Err e, u2, t2) ->
         PlayersInfo fm s = (Err e, set_usock s (Some u2))).
Proof.
  intros Hs. repeat split.
  - unfold Info. rewrite Hs, H. reflexivity.
  - apply udpSocket_send_bound in H. apply H.
  - intros e u1 u2 t1 t2 Hw Hr. unfold Info. rewrite Hs, Hw, Hr. reflexivity.
  - unfold PlayersInfo. rewrite Hs, H. reflexivity.
  - apply udpSocket_send_bound in H. apply H.
  - intros e u1 u2 t1 t2 Hw Hr. unfold PlayersInfo.
    rewrite Hs, Hw, Hr. reflexivity.
Qed.

Lemma query_first_exchange_errors_witness :
  Info Wire.model lossy_query_server
  = (Err (IOError (net_OpError "network is unreachable")),
     set_usock lossy_query_server
       (Some (mkUdpSocket
                (mkConn (mkSource [Chunk info_reply None] net_Timeout)
                        [] None [] false) [7])))
  /\ Info Wire.model (query_server [] [])
     = (Err (fmt_Errorf "steam: could not receive info response (%v)"
                        (IOError net_Timeout)),
        set_usock (query_server [] [])
          (Some (mkUdpSocket
                   (mkConn (mkSource [] net_Timeout) [] None
                           [Wire.marshalQuery x54 0] false) []))).
Proof.
  split.
  - destruct (query_first_exchange_errors Wire.model lossy_query_server
                lossy_query_socket eq_refl) as (H & _).
    apply (H (IOError (net_OpError "network is unreachable")) _ 3).
    reflexivity.
  - destruct (query_first_exchange_errors Wire.model (query_server [] [])
                (mkUdpSocket (Wire.peer [] net_Timeout) []) eq_refl)
      as (_ & H & _).
    apply (H (IOError net_Timeout)
             (mkUdpSocket
                (mkConn (mkSource [] net_Timeout) [] None
                        [Wire.marshalQuery x54 0] false) []) _ 0 0);
      reflexivity.
Defined.

(** X24. A first reply that is tagged as a challenge response but does
    not decode as one ends the call with the decoding error: [Info] and
    [PlayersInfo] return it as it is, after one request and one reply,
    and send no second request. *)
Theorem query_undecodable_challenge
  (fm : FrameModel) (s : Server) (u u1 u2 : udpSocket) (t1 t2 : Z)
  (data1 : list byte) (e : error) :
  usock s = Some u ->
  udpSocket_receive (udpBufferSize fm) u1 = (Ok data1, u2, t2) ->
  isChallengeResponse fm data1 = true ->
  ChallengeResponse_unmarshalBinary fm data1 = Err e ->
  (udpSocket_send u (infoRequest_marshalBinary fm 0) = (None, u1, t1) ->
   Info fm s = (Err e, set_usock s (Some u2))
   /\ requests u2 = requests u ++ [infoRequest_marshalBinary fm 0])
  /\ (udpSocket_send u (playersInfoRequest_marshalBinary fm 0) = (None, u1, t1) ->
      PlayersInfo fm s = (Err e, set_usock s (Some u2))
      /\ requests u2 = requests u ++ [playersInfoRequest_marshalBinary fm 0]).
Proof.
  intros Hs Hr Hc Hd. split; intros Hw.
  - split.
    + unfold Info. rewrite Hs, Hw, Hr, Hc, Hd. reflexivity.
    + apply udpSocket_send_ok in Hw as [Hw _].
      apply udpSocket_receive_ok in Hr as [Hr' _]. congruence.
  - split.
    + unfold PlayersInfo. rewrite Hs, Hw, Hr, Hc, Hd. reflexivity.
    + apply udpSocket_send_ok in Hw as [Hw _].
      apply udpSocket_receive_ok in Hr as [Hr' _]. congruence.
Qed.

Lemma query_undecodable_challenge_witness :
  exists s',
    Info Wire.model
         (query_server [Chunk [xff; xff; xff; xff; x41] None;
                        Chunk info_reply None] [])
    = (Err errNotEnoughDataInResponse, s')
    /\ option_map requests (usock s') = Some [Wire.marshalQuery x54 0]
    /\ option_map replies_left (usock s') = Some 1%nat.
Proof.
  destruct (query_undecodable_challenge Wire.model
              (query_server [Chunk [xff; xff; xff; xff; x41] None;
                             Chunk info_reply None] [])
              (mkUdpSocket
                 (Wire.peer [Chunk [xff; xff; xff; xff; x41] None;
                             Chunk info_reply None] net_Timeout) [])
              (mkUdpSocket
                 (mkConn (mkSource [Chunk [xff; xff; xff; xff; x41] None;
                                    Chunk info_reply None] net_Timeout)
                         [] None [Wire.marshalQuery x54 0] false) [])
              (mkUdpSocket
                 (mkConn (mkSource [Chunk info_reply None] net_Timeout)
                         [] None [Wire.marshalQuery x54 0] false) [])
              0 0 [xff; xff; xff; xff; x41] errNotEnoughDataInResponse)
    as (H & _); try reflexivity.
  destruct (H eq_refl) as (HI & _).
  eexists. split; [exact HI|]. split; reflexivity.
Defined.

(** X25. In the second exchange, after a challenge, an error of the
    send and an error of the receive are both returned as they are, by
    [Info] (which wraps the error of its first receive only) and by
    [PlayersInfo]. *)
Theorem query_second_exchange_errors
  (fm : FrameModel) (s : Server) (u u2 : udpSocket)
  (data1 : list byte) (challenge : Z) :
  usock s = Some u ->
  isChallengeResponse fm data1 = true ->
  ChallengeResponse_unmarshalBinary fm data1 = Ok challenge ->
  (forall u1 t1 t2,
      udpSocket_send u (infoRequest_marshalBinary fm 0) = (None, u1, t1) ->
      udpSocket_receive (udpBufferSize fm) u1 = (Ok data1, u2, t2) ->
      (forall e u3 t3,
          udpSocket_send u2 (infoRequest_marshalBinary fm challenge)
          = (Some e, u3, t3) ->
          Info fm s = (Err e, set_usock s (Some u3)))
      /\ (forall e u3 u4 t3 t4,
             udpSocket_send u2 (infoRequest_marshalBinary fm challenge)
             = (None, u3, t3) ->
             udpSocket_receive (udpBufferSize fm) u3 = (Err e, u4, t4) ->
             Info fm s = (Err e, set_usock s (Some u4))))
  /\ (forall u1 t1 t2,
         udpSocket_send u (playersInfoRequest_marshalBinary fm 0)
         = (None, u1, t1) ->
         udpSocket_receive (udpBufferSize fm) u1 = (Ok data1, u2, t2) ->
         (forall e u3 t3,
             udpSocket_send u2 (playersInfoRequest_marshalBinary fm challenge)
             = (Some e, u3, t3) ->
             PlayersInfo fm s = (Err e, set_usock s (Some u3)))
         /\ (forall e u3 u4 t3 t4,
                udpSocket_send u2 (playersInfoRequest_marshalBinary fm challenge)
                = (None, u3, t3) ->
                udpSocket_receive (udpBufferSize fm) u3 = (Err e, u4, t4) ->
                PlayersInfo fm s = (Err e, set_usock s (Some u4)))).
Proof.
  intros Hs Hc Hd. split; intros u1 t1 t2 Hw Hr; split.
  - intros e u3 t3 Hw2. unfold Info.
    rewrite Hs, Hw, Hr, Hc, Hd, Hw2. reflexivity.
  - intros e u3 u4 t3 t4 Hw2 Hr2. unfold Info.
    rewrite Hs, Hw, Hr, Hc, Hd, Hw2, Hr2. reflexivity.
  - intros e u3 t3 Hw2. unfold PlayersInfo.
    rewrite Hs, Hw, Hr, Hc, Hd, Hw2. reflexivity.
  - intros e u3 u4 t3 t4 Hw2 Hr2. unfold PlayersInfo.
    rewrite Hs, Hw, Hr, Hc, Hd, Hw2, Hr2. reflexivity.
Qed.

Lemma query_second_exchange_errors_witness :
  exists s',
    Info Wire.model (query_server [Chunk challenge_reply None] [])
    = (Err (IOError net_Timeout), s').
Proof.
  destruct (query_second_exchange_errors Wire.model
              (query_server [Chunk challenge_reply None] [])
              (mkUdpSocket (Wire.peer [Chunk challenge_reply None] net_Timeout) [])
              (mkUdpSocket
                 (mkConn (mkSource [] net_Timeout) [] None
                         [Wire.marshalQuery x54 0] false) [])
              challenge_reply 16909060)
    as (H & _); try reflexivity.
  destruct (H (mkUdpSocket
                 (mkConn (mkSource [Chunk challenge_reply None] net_Timeout)
                         [] None [Wire.marshalQuery x54 0] false) [])
              0 0) as (_ & H2); try reflexivity.
  eexists.
  apply (H2 (IOError net_Timeout)
            (mkUdpSocket
               (mkConn (mkSource [] net_Timeout) [] None
                       [Wire.marshalQuery x54 0;
                        Wire.marshalQuery x54 16909060] false) [])
            (mkUdpSocket
               (mkConn (mkSource [] net_Timeout) [] None
                       [Wire.marshalQuery x54 0;
                        Wire.marshalQuery x54 16909060] false) [])
            0 0); reflexivity.
Defined.

(** ** The RCON socket: what [receive] consumes *)

Lemma skipn_app_le {A : Type} (n : nat) (l1 l2 : list A) :
  (length l1 <= n)%nat -> skipn n (l1 ++ l2) = skipn (n - length l1) l2.
Proof.
  intros H. rewrite skipn_app. now rewrite skipn_all2 by exact H.
Qed.

(** On an error-free script that holds at least [total] bytes, the
    payload loop returns after taking exactly [total] bytes off it. *)
Lemma receive_loop_consumes (p : list chunk) :
  forall (fuel : nat) (c : Conn) (buf : list byte) (total : Z),
    deadlineErr c = None ->
    pending (rd c) = p ->
    clean p = true ->
    0 <= total <= Z.of_nat (length (available p)) ->
    (length p < fuel)%nat ->
    exists out c',
      receive_loop fuel c buf total = Some (Ok out, c')
      /\ clean (pending (rd c')) = true
      /\ available (pending (rd c')) = skipn (Z.to_nat total) (available p).
Proof.
  induction p as [|[bs e] rest IH]; intros fuel c buf total Hd Hp Hc Ht Hf.
  - simpl in Ht. assert (total = 0) by lia. subst total.
    exists buf, c. rewrite Hp.
    destruct fuel; simpl; auto.
  - simpl in Hc. destruct e; [discriminate Hc|].
    destruct fuel as [|fuel]; [simpl in Hf; lia|].
    cbn [receive_loop].
    destruct (total <=? 0) eqn:E.
    { apply Z.leb_le in E. assert (total = 0) by lia. subst total.
      exists buf, c. rewrite Hp. simpl. auto. }
    apply Z.leb_gt in E. rewrite Hd.
    unfold Conn_Read, source_Read. rewrite Hp.
    simpl in Ht. rewrite length_app in Ht.
    destruct (Z.to_nat total <? length bs)%nat eqn:Elt.
    + apply Nat.ltb_lt in Elt.
      rewrite length_firstn, Nat.min_l by lia.
      replace (0 <? Z.to_nat total)%nat with true
        by (symmetry; apply Nat.ltb_lt; lia).
      replace (total - Z.of_nat (Z.to_nat total)) with 0 by lia.
      eexists. eexists. split; [destruct fuel; reflexivity|].
      cbn [pending rd Conn_set_rd clean available]. split; [exact Hc|].
      rewrite skipn_app.
      replace (Z.to_nat total - length bs)%nat with 0%nat by lia.
      reflexivity.
    + apply Nat.ltb_ge in Elt.
      set (c1 := Conn_set_rd c (mkSource rest (idle (rd c)))).
      assert (Hrec : forall b t,
                 t = total - Z.of_nat (length bs) ->
                 exists out c',
                   receive_loop fuel c1 b t = Some (Ok out, c')
                   /\ clean (pending (rd c')) = true
                   /\ available (pending (rd c'))
                      = skipn (Z.to_nat total) (available (Chunk bs None :: rest))).
      { intros b t ->.
        destruct (IH fuel c1 b (total - Z.of_nat (length bs)))
          as (out & c' & Hl & Hc' & Ha'); auto.
        - lia.
        - simpl in Hf. lia.
        - exists out, c'. split; [exact Hl|]. split; [exact Hc'|].
          rewrite Ha'. cbn [available]. rewrite skipn_app_le by lia.
          f_equal. lia. }
      destruct (0 <? length bs)%nat eqn:En.
      * apply Hrec. reflexivity.
      * apply Nat.ltb_ge in En. apply Hrec. lia.
Qed.

Lemma readAtLeast_no_longer (p : list chunk) (idl : ioErr) :
  forall (n : nat) got err p',
    readAtLeast p idl n = (got, err, p') -> (length p' <= length p)%nat.
Proof.
  induction p as [|[bs e] rest IH]; intros n got err p' H.
  - destruct n; simpl in H; injection H as _ _ <-; auto.
  - destruct n as [|n]; [simpl in H; injection H as _ _ <-; auto|].
    cbn [readAtLeast] in H.
    destruct (S n <? length bs)%nat; [injection H as _ _ <-; auto|].
    destruct (S n =? length bs)%nat; [injection H as _ _ <-; simpl; auto|].
    destruct e; [injection H as _ _ <-; simpl; auto|].
    destruct (readAtLeast rest idl (S n - length bs)) as [[g er] q] eqn:Er.
    injection H as _ _ <-. apply IH in Er. simpl. lia.
Qed.

(** The loop only appends to the buffer it is given. *)
Lemma receive_loop_extends_buf (fuel : nat) :
  forall (c : Conn) (buf : list byte) (t : Z) (r : list byte) (c' : Conn),
    receive_loop fuel c buf t = Some (Ok r, c') ->
    exists o, r = buf ++ o.
Proof.
  induction fuel as [|fuel IH]; intros c buf t r c' H; simpl in H.
  - destruct (t <=? 0); [|discriminate H].
    injection H as <- _. exists []. now rewrite app_nil_r.
  - destruct (t <=? 0).
    { injection H as <- _. exists []. now rewrite app_nil_r. }
    destruct (deadlineErr c); [discriminate H|].
    destruct (Conn_Read c (Z.to_nat t)) as [[bs err] c1].
    assert (Hrec : forall t',
               receive_loop fuel c1
                 (if (0 <? length bs)%nat
                  then buf ++ bs ++ repeat x00 (Z.to_nat t - length bs)
                  else buf) t' = Some (Ok r, c') ->
               exists o, r = buf ++ o).
    { intros t' Hl. apply IH in Hl as (o & ->).
      destruct (0 <? length bs)%nat.
      - eexists. rewrite <- app_assoc. reflexivity.
      - exists o. reflexivity. }
    destruct err as [[| | | |]|]; try discriminate H; apply (Hrec _ H).
Qed.

(** X26. On an error-free stream that holds a frame (the length prefix
    written for [total] and [total] payload bytes), however the
    transport splits it into reads, [receive] returns a buffer that
    starts with the prefix and takes exactly the frame off the stream:
    the bytes that follow it are what the next call will read. *)
Theorem receive_consumes_exactly_the_frame
  (s : rconSocket) (total : Z) (payload more : list byte) (fuel : nat) :
  0 <= total < 2 ^ 31 ->
  Z.of_nat (length payload) = total ->
  deadlineErr (conn s) = None ->
  clean (pending (rd (conn s))) = true ->
  available (pending (rd (conn s))) = writeLong [] total ++ payload ++ more ->
  (length (pending (rd (conn s))) < fuel)%nat ->
  exists out s',
    receive fuel s = Some (Ok (writeLong [] total ++ out), s')
    /\ clean (pending (rd (conn s'))) = true
    /\ available (pending (rd (conn s'))) = more.
Proof.
  intros Ht Hl Hd Hc Ha Hf. unfold receive, readLong, binary_Read4, io_ReadFull.
  cbn [Reader_source].
  unfold writeLong in Ha. cbn [app] in Ha.
  destruct (readAtLeast_clean _ (idle (rd (conn s))) 4 (le32 total)
              (payload ++ more) Hc Ha (length_le32 total))
    as (p' & Hr & Hc' & Ha').
  rewrite Hr. cbn [must]. rewrite int32_of_le_le32 by lia.
  apply readAtLeast_no_longer in Hr.
  destruct (receive_loop_consumes p' fuel
              (Conn_set_rd (conn s) (mkSource p' (idle (rd (conn s)))))
              ([] ++ le32 total) total)
    as (out & c' & Hloop & Hc'' & Ha''); auto.
  - rewrite Ha', length_app. lia.
  - lia.
  - destruct (receive_loop_extends_buf _ _ _ _ _ _ Hloop) as (o & ->).
    cbn [Reader_source]. rewrite Hloop. exists o. eexists.
    split; [reflexivity|]. cbn [conn].
    split; [exact Hc''|].
    rewrite Ha'', Ha'. rewrite skipn_app.
    replace (Z.to_nat total) with (length payload) by lia.
    rewrite skipn_all, Nat.sub_diag. reflexivity.
Qed.

Lemma receive_consumes_exactly_the_frame_witness :
  exists out s',
    receive 4 (mkRconSocket
                 (Wire.peer [Chunk [x03; x00] None; Chunk [x00; x00; x41] None;
                             Chunk [x42; x43; x0a] None] io_EOF))
    = Some (Ok (writeLong [] 3 ++ out), s')
    /\ clean (pending (rd (conn s'))) = true
    /\ available (pending (rd (conn s'))) = [x0a].
Proof.
  apply (receive_consumes_exactly_the_frame
           (mkRconSocket
              (Wire.peer [Chunk [x03; x00] None; Chunk [x00; x00; x41] None;
                          Chunk [x42; x43; x0a] None] io_EOF))
           3 [x41; x42; x43] [x0a] 4).
  - lia.
  - reflexivity.
  - reflexivity.
  - reflexivity.
  - reflexivity.
  - simpl. lia.
Defined.

(** ** The RCON engine: [Send] over a fragment read in two *)

(** C2. The code at the failing input: the server replies with one
    RESPONSE_VALUE frame with the id of the command request and the
    body "abc", then the mirror frame, then the trailer frame, and the
    transport delivers the first frame in two reads.  [receive] appends
    the whole buffer of its first read, zero bytes included, so the
    frame decodes to the body "ab" and a zero byte, and [Send] returns
    that, where the specification has it return "abc". *)
Theorem Send_loses_bytes_of_split_fragment :
  available split_fragment_reply
  = Wire.frame 5 0 [x61; x62; x63] ++ Wire.frame 6 0 []
    ++ Wire.frame 6 0 trailer
  /\ exists f0, forall fuel, (f0 <= fuel)%nat ->
       Send Wire.model fuel [x6c; x73] (rcon_server split_fragment_reply) 5
       = Some (Ok [x61; x62; x00], rcon_server_after [x6c; x73], 7).
Proof.
  split; [reflexivity|].
  apply (Send_result_of_loop Wire.model [x6c; x73]
           (rcon_server split_fragment_reply) 5 7
           (mkRconRequest 5 2 [x6c; x73]) (mkRconRequest 6 0 [])
           (mkRconSocket
              (mkConn (mkSource split_fragment_reply io_EOF) [] None
                      [Wire.frame 5 2 [x6c; x73]; Wire.frame 6 0 []] false))
           (mkRconSocket
              (mkConn (mkSource [] io_EOF) [] None
                      [Wire.frame 5 2 [x6c; x73]; Wire.frame 6 0 []] false))
           (Ok [x61; x62; x00])).
  - split; [reflexivity|]. do 3 eexists. repeat split; reflexivity.
  - destruct (Send_loop_protocol Wire.model 5 6 ltac:(lia)
                [mkRconResponse 0 5 [x61; x62; x00]]
                (mkRconResponse 0 6 []) (mkRconResponse 0 6 trailer)
                (mkRconSocket
                   (mkConn (mkSource split_fragment_reply io_EOF) [] None
                           [Wire.frame 5 2 [x6c; x73]; Wire.frame 6 0 []]
                           false))
                (mkRconSocket
                   (mkConn (mkSource [] io_EOF) [] None
                           [Wire.frame 5 2 [x6c; x73]; Wire.frame 6 0 []]
                           false)))
      as (f0 & Hf0).
    + simpl.
      eapply (replies_cons _ _ _ _ 2%nat);
        [vm_compute; reflexivity | reflexivity |].
      eapply (replies_cons _ _ _ _ 1%nat);
        [vm_compute; reflexivity | reflexivity |].
      eapply (replies_cons _ _ _ _ 1%nat);
        [vm_compute; reflexivity | reflexivity |].
      apply replies_nil.
    + repeat constructor.
    + reflexivity.
    + reflexivity.
    + reflexivity.
    + exists f0. intros fuel Hle. cbn [req_id].
      rewrite (Hf0 fuel Hle). reflexivity.
Qed.
